(** * Theater seat finder bot: a shallow embedding of [src/main.py]

    Python strings are modelled as Rocq [string]s over ASCII, Python ints as
    [Z], Python lists as [list], and a Python [dict] as an association list in
    insertion order (the order [dict.items()] iterates in).  Exceptions that
    can escape a Python function are modelled by the [result] type below. *)

From Stdlib Require Import List ZArith Lia Bool Ascii String Sorting.Permutation Sorting.Sorted.
From Stdlib Require Import Relations.Relation_Operators.
Import ListNotations.
Open Scope Z_scope.

(** ** Python exceptions and fallible computations *)

Inductive exn : Type :=
| CancelledError
| NameError
| TypeError
| ValueError
| KeyError
| AttributeError
| FileNotFoundError
| IsADirectoryError
| PermissionError
| TomlDecodeError
| TimeoutError
| OtherError (name : string).

Inductive result (A : Type) : Type :=
| Ok (a : A)
| Err (e : exn).
Arguments Ok {A} a.
Arguments Err {A} e.

Definition rbind {A B} (m : result A) (k : A -> result B) : result B :=
  match m with Ok a => k a | Err e => Err e end.
Notation "x <-? m ;; k" := (rbind m (fun x => k))
  (at level 61, m at next level, right associativity).

(** ** Python's [str.isdigit] and [int(str)] on ASCII strings *)

Definition is_digit (c : ascii) : bool :=
  (48 <=? nat_of_ascii c)%nat && (nat_of_ascii c <=? 57)%nat.

Definition digit_value (c : ascii) : Z := Z.of_nat (nat_of_ascii c) - 48.

(** [str.isdigit]: non-empty and made of digits only. *)
Fixpoint all_digits (s : string) : bool :=
  match s with
  | EmptyString => true
  | String c t => is_digit c && all_digits t
  end.

Definition isdigit (s : string) : bool :=
  match s with
  | EmptyString => false
  | _ => all_digits s
  end.

(** The characters [int()] strips: ASCII whitespace including the
    separators 0x1C-0x1F, which Python counts as whitespace. *)
Definition is_space (c : ascii) : bool :=
  let n := nat_of_ascii c in
  ((9 <=? n)%nat && (n <=? 13)%nat) || ((28 <=? n)%nat && (n <=? 32)%nat).

Fixpoint lstrip (s : string) : string :=
  match s with
  | String c t => if is_space c then lstrip t else s
  | EmptyString => EmptyString
  end.

Fixpoint rstrip (s : string) : string :=
  match s with
  | EmptyString => EmptyString
  | String c t =>
      let t' := rstrip t in
      match t' with
      | EmptyString => if is_space c then EmptyString else String c EmptyString
      | _ => String c t'
      end
  end.

(** Digits after the first one: a single [_] may separate two digits. *)
Fixpoint digits_tail (s : string) (acc : Z) : option Z :=
  match s with
  | EmptyString => Some acc
  | String c t =>
      if is_digit c then digits_tail t (acc * 10 + digit_value c)
      else if Ascii.eqb c "_"%char then
        match t with
        | String d t' =>
            if is_digit d then digits_tail t' (acc * 10 + digit_value d)
            else None
        | EmptyString => None
        end
      else None
  end.

Definition py_digits (s : string) : option Z :=
  match s with
  | String d t => if is_digit d then digits_tail t (digit_value d) else None
  | EmptyString => None
  end.

(** [int(s)] for a [str] in base 10: [None] is the [ValueError]. *)
Definition py_int (s : string) : option Z :=
  let s' := rstrip (lstrip s) in
  match s' with
  | String c t =>
      if Ascii.eqb c "-"%char then option_map Z.opp (py_digits t)
      else if Ascii.eqb c "+"%char then py_digits t
      else py_digits s'
  | EmptyString => None
  end.

(** ** Data classes *)

Record Seat : Type := mkSeat {
  row : string;
  chair : string;
  status : string
}.

(** A group dictionary [{row, start_chair, end_chair, count}]. *)
Record Group : Type := mkGroup {
  group_row : string;
  start_chair : string;
  end_chair : string;
  count : Z
}.

(** ** [find_adjacent_seats] *)

(** The max_row filter, lines 188-193.  The comprehension
    [[s for s in seats if int(s.row) <= max_row]] raises [ValueError] at the
    first non-numeric row; the handler then formats [s.row], but [s] is the
    comprehension's own variable and is not bound in the function, so the
    handler raises [NameError]. *)
Definition max_row_filter (seats : list Seat) (max_row : option Z)
  : result (list Seat) :=
  match max_row with
  | None => Ok seats
  | Some m =>
      if forallb (fun s => match py_int (row s) with Some _ => true | None => false end) seats
      then Ok (filter (fun s => match py_int (row s) with
                                | Some r => r <=? m
                                | None => false
                                end) seats)
      else Err NameError
  end.

(** [seats_by_row]: a dict from row label to its seats, in first-seen
    order, each list in input order. *)
Fixpoint dict_append_seat (d : list (string * list Seat)) (s : Seat)
  : list (string * list Seat) :=
  match d with
  | [] => [(row s, [s])]
  | (r, l) :: d' =>
      if String.eqb r (row s) then (r, l ++ [s]) :: d'
      else (r, l) :: dict_append_seat d' s
  end.

Definition group_by_row (seats : list Seat) : list (string * list Seat) :=
  fold_left dict_append_seat seats [].

(** The sort key [int(s.chair) if s.chair.isdigit() else s.chair]. *)
Inductive sort_key : Type :=
| KInt (z : Z)
| KStr (s : string).

Definition chair_key (s : Seat) : sort_key :=
  if isdigit (chair s) then
    KInt (match py_int (chair s) with Some z => z | None => 0 end)
  else KStr (chair s).

Definition key_is_int (s : Seat) : bool :=
  match chair_key s with KInt _ => true | KStr _ => false end.

(** Stable insertion sort: [x] goes before the first element not smaller. *)
Fixpoint insert_by {A} (le : A -> A -> bool) (x : A) (l : list A) : list A :=
  match l with
  | [] => [x]
  | y :: l' => if le x y then x :: l else y :: insert_by le x l'
  end.

Fixpoint isort {A} (le : A -> A -> bool) (l : list A) : list A :=
  match l with
  | [] => []
  | x :: l' => insert_by le x (isort le l')
  end.

Definition int_key_le (a b : Seat) : bool :=
  match chair_key a, chair_key b with
  | KInt x, KInt y => x <=? y
  | _, _ => true
  end.

Definition str_key_le (a b : Seat) : bool :=
  match String.compare (chair a) (chair b) with Gt => false | _ => true end.

(** [list.sort(key=...)]: a stable sort when the keys are all [int] or all
    [str].  With keys of both types some [int] key must be compared with a
    [str] key (any comparison sort compares the neighbours of its output),
    and Python 3 raises [TypeError] on that comparison. *)
Definition sort_row (l : list Seat) : result (list Seat) :=
  if forallb key_is_int l then Ok (isort int_key_le l)
  else if forallb (fun s => negb (key_is_int s)) l then Ok (isort str_key_le l)
  else Err TypeError.

Fixpoint sort_rows (d : list (string * list Seat))
  : result (list (string * list Seat)) :=
  match d with
  | [] => Ok []
  | (r, l) :: d' =>
      l' <-? sort_row l ;;
      d'' <-? sort_rows d' ;;
      Ok ((r, l') :: d'')
  end.

(** The [try: int(...) == int(...) + 1 except ValueError: False] test. *)
Definition is_consecutive (previous current : Seat) : bool :=
  match py_int (chair current), py_int (chair previous) with
  | Some c, Some p => c =? p + 1
  | _, _ => false
  end.

(** [current_sequence] is kept reversed: its head is [current_sequence[-1]]. *)
Definition close_sequence (r : string) (min_seats : Z) (seq_rev : list Seat)
  : list Group :=
  match seq_rev with
  | [] => []
  | last_seat :: _ =>
      if Z.of_nat (List.length seq_rev) >=? min_seats then
        [mkGroup r (chair (List.last seq_rev last_seat)) (chair last_seat)
                 (Z.of_nat (List.length seq_rev))]
      else []
  end.

Fixpoint scan_row (r : string) (min_seats : Z) (seq_rev : list Seat)
  (rest : list Seat) : list Group :=
  match rest with
  | [] => close_sequence r min_seats seq_rev
  | current_seat :: rest' =>
      match seq_rev with
      | previous_seat :: _ =>
          if is_consecutive previous_seat current_seat
          then scan_row r min_seats (current_seat :: seq_rev) rest'
          else close_sequence r min_seats seq_rev
               ++ scan_row r min_seats [current_seat] rest'
      | [] => scan_row r min_seats [current_seat] rest'
      end
  end.

Definition row_groups (min_seats : Z) (entry : string * list Seat) : list Group :=
  let (r, row_seats) := entry in
  if Z.of_nat (List.length row_seats) <? min_seats then []
  else match row_seats with
       | [] => []
       | first :: rest => scan_row r min_seats [first] rest
       end.

Definition find_adjacent_seats (seats : list Seat) (min_seats : Z)
  (max_row : option Z) : result (list Group) :=
  kept <-? max_row_filter seats max_row ;;
  sorted <-? sort_rows (group_by_row kept) ;;
  Ok (flat_map (row_groups min_seats) sorted).

(** [int(chair)] of the seats of [run] is [a], [a + 1], [a + 2], ... *)
Fixpoint chairs_from (a : Z) (run : list Seat) : bool :=
  match run with
  | [] => true
  | s :: t =>
      match py_int (chair s) with Some z => Z.eqb z a | None => false end
      && chairs_from (a + 1) t
  end.

(** The same, read from the last seat of a run: [b], [b - 1], ... *)
Fixpoint desc_from (b : Z) (seq_rev : list Seat) : bool :=
  match seq_rev with
  | [] => true
  | s :: t =>
      match py_int (chair s) with Some z => Z.eqb z b | None => false end
      && desc_from (b - 1) t
  end.

(** A group dictionary and the run of input seats it describes. *)
Definition group_has_run (seats : list Seat) (g : Group) (run : list Seat) : Prop :=
  match run with
  | [] => False
  | s0 :: _ =>
      (forall s, In s run -> In s seats /\ row s = group_row g)
      /\ start_chair g = chair s0
      /\ end_chair g = chair (List.last run s0)
      /\ count g = Z.of_nat (List.length run)
      /\ (2 <= count g ->
          exists a, chairs_from a run = true
                    /\ py_int (start_chair g) = Some a
                    /\ py_int (end_chair g) = Some (a + count g - 1))
  end.

(** ** [parse_seats_from_html]: [re.findall] with a lazy, DOTALL pattern *)

(** The pieces of a pattern made of literals and [.*?] (with or without a
    capture group); this is the shape of the pattern at line 164. *)
Inductive rx : Type :=
| RLit (l : string)
| RLazy
| RLazyCap.

Fixpoint strip_prefix (l s : string) : option string :=
  match l, s with
  | EmptyString, _ => Some s
  | String a l', String b s' => if Ascii.eqb a b then strip_prefix l' s' else None
  | String _ _, EmptyString => None
  end.

(** [.*?] under DOTALL: try the rest of the pattern first, and consume one
    more character of any kind only when the rest fails. *)
Fixpoint lazy_any {R} (k : string -> option R) (s : string) : option R :=
  match k s with
  | Some r => Some r
  | None => match s with
            | EmptyString => None
            | String _ t => lazy_any k t
            end
  end.

Fixpoint lazy_cap {R} (k : string -> option (list string * R)) (acc : string)
  (s : string) : option (list string * R) :=
  match k s with
  | Some (caps, r) => Some (acc :: caps, r)
  | None => match s with
            | EmptyString => None
            | String c t => lazy_cap k (acc ++ String c EmptyString)%string t
            end
  end.

(** The first match, in backtracking priority order, anchored at the start
    of [s]: the captured groups and the rest of the input. *)
Fixpoint rx_match (ps : list rx) (s : string) : option (list string * string) :=
  match ps with
  | [] => Some ([], s)
  | RLit l :: ps' =>
      match strip_prefix l s with
      | Some s' => rx_match ps' s'
      | None => None
      end
  | RLazy :: ps' => lazy_any (rx_match ps') s
  | RLazyCap :: ps' => lazy_cap (rx_match ps') EmptyString s
  end.

(** [re.findall]: scan left to right; after a match resume at its end,
    otherwise one character further.  The pattern used here never
    matches the empty string, so [S (length s)] steps always suffice. *)
Fixpoint findall_fuel (fuel : nat) (ps : list rx) (s : string)
  : list (list string) :=
  match fuel with
  | O => []
  | S f =>
      match rx_match ps s with
      | Some (caps, rest) => caps :: findall_fuel f ps rest
      | None => match s with
                | EmptyString => []
                | String _ t => findall_fuel f ps t
                end
      end
  end.

Definition findall (ps : list rx) (s : string) : list (list string) :=
  findall_fuel (S (String.length s)) ps s.

Definition dq : string := String (ascii_of_nat 34) EmptyString.

(** [r'<a.*?class="(.*?)".*?data-chair="(.*?)".*?data-row="(.*?)".*?</a>'] *)
Definition seat_pattern : list rx :=
  [RLit "<a"; RLazy; RLit ("class=" ++ dq)%string; RLazyCap; RLit dq;
   RLazy; RLit ("data-chair=" ++ dq)%string; RLazyCap; RLit dq;
   RLazy; RLit ("data-row=" ++ dq)%string; RLazyCap; RLit dq;
   RLazy; RLit "</a>"].

(** Python's [needle in haystack] for strings. *)
Fixpoint str_contains (needle hay : string) : bool :=
  match strip_prefix needle hay with
  | Some _ => true
  | None => match hay with
            | EmptyString => false
            | String _ t => str_contains needle t
            end
  end.

Definition seat_of_match (caps : list string) : list Seat :=
  match caps with
  | [class_attr; chair_num; row_num] =>
      [mkSeat row_num chair_num
              (if str_contains "taken" class_attr then "taken" else "available")]
  | _ => []
  end.

Definition parse_seats_from_html (html_content : string) : list Seat :=
  flat_map seat_of_match (findall seat_pattern html_content).

(** ** [_compare_groups] *)

Definition group_key (g : Group) : string * string * string :=
  (group_row g, start_chair g, end_chair g).

Definition key_eqb (a b : string * string * string) : bool :=
  match a, b with
  | (r1, s1, e1), (r2, s2, e2) =>
      String.eqb r1 r2 && String.eqb s1 s2 && String.eqb e1 e2
  end.

Definition key_mem (k : string * string * string) (ks : list (string * string * string)) : bool :=
  existsb (key_eqb k) ks.

Definition _compare_groups (old_groups new_groups : list Group) : list Group :=
  let old_group_keys := map group_key old_groups in
  fold_left (fun new_added group =>
               if key_mem (group_key group) old_group_keys then new_added
               else new_added ++ [group]) new_groups [].

(** ** Subscriptions, the TOML store and the monitoring loop *)

Record MonitoredShow : Type := mkShow {
  chat_id : Z;
  theater_id : string;
  min_seats : Z;
  created_at : string;
  last_available_groups : list Group;
  max_row : option Z
}.

Definition set_last_groups (sh : MonitoredShow) (gs : list Group) : MonitoredShow :=
  mkShow (chat_id sh) (theater_id sh) (min_seats sh) (created_at sh) gs (max_row sh).

(** Python dicts keyed by strings, in insertion order. *)
Fixpoint dict_get {A} (k : string) (d : list (string * A)) : option A :=
  match d with
  | [] => None
  | (k', v) :: d' => if String.eqb k k' then Some v else dict_get k d'
  end.

Fixpoint dict_set {A} (k : string) (v : A) (d : list (string * A)) : list (string * A) :=
  match d with
  | [] => [(k, v)]
  | (k', v') :: d' => if String.eqb k k' then (k', v) :: d' else (k', v') :: dict_set k v d'
  end.

Local Open Scope string_scope.

(** TOML documents as the Python values [toml] reads and writes; [TNone]
    is Python's [None], which only occurs on the way out. *)
#[warnings="-register-all"]
Inductive tval : Type :=
| TStr (s : string)
| TInt (z : Z)
| TArr (l : list tval)
| TTable (kvs : list (string * tval))
| TNone.

(** [toml.dump] leaves out every key whose value is [None]. *)
Fixpoint strip_none (v : tval) : tval :=
  match v with
  | TArr l => TArr ((fix go l := match l with
                                 | [] => []
                                 | x :: l' => strip_none x :: go l'
                                 end) l)
  | TTable kvs => TTable ((fix go kvs := match kvs with
                                         | [] => []
                                         | (_, TNone) :: kvs' => go kvs'
                                         | (k, x) :: kvs' => (k, strip_none x) :: go kvs'
                                         end) kvs)
  | x => x
  end.

Fixpoint none_free (v : tval) : bool :=
  match v with
  | TArr l => (fix go l := match l with
                          | [] => true
                          | x :: l' => none_free x && go l'
                          end) l
  | TTable kvs => (fix go kvs := match kvs with
                                 | [] => true
                                 | (_, x) :: kvs' => none_free x && go kvs'
                                 end) kvs
  | TNone => false
  | _ => true
  end.

Definition group_to_toml (g : Group) : tval :=
  TTable [("row", TStr (group_row g)); ("start_chair", TStr (start_chair g));
          ("end_chair", TStr (end_chair g)); ("count", TInt (count g))].

Definition show_to_toml (show : MonitoredShow) : tval :=
  TTable [("chat_id", TInt (chat_id show));
          ("theater_id", TStr (theater_id show));
          ("min_seats", TInt (min_seats show));
          ("created_at", TStr (created_at show));
          ("last_available_groups", TArr (map group_to_toml (last_available_groups show)));
          ("max_row", match max_row show with Some m => TInt m | None => TNone end)].

Definition db_to_toml (shows : list (string * MonitoredShow)) : tval :=
  TTable [("monitored_shows", TTable (map (fun '(k, sh) => (k, show_to_toml sh)) shows))].

(** Reading the loaded TOML back: [value['field']] raises [KeyError] on a
    missing key and [TypeError] when [value] is not a table.  A field of
    the wrong TOML type is treated as a failure of the record (Python
    would keep the ill-typed value); this matters only for corrupt files. *)
Definition field (kvs : tval) (k : string) : result tval :=
  match kvs with
  | TTable t => match dict_get k t with Some v => Ok v | None => Err KeyError end
  | _ => Err TypeError
  end.

Definition as_int (v : tval) : result Z :=
  match v with TInt z => Ok z | _ => Err TypeError end.
Definition as_str (v : tval) : result string :=
  match v with TStr s => Ok s | _ => Err TypeError end.

Definition group_of_toml (v : tval) : result Group :=
  r <-? (x <-? field v "row" ;; as_str x) ;;
  s <-? (x <-? field v "start_chair" ;; as_str x) ;;
  e <-? (x <-? field v "end_chair" ;; as_str x) ;;
  c <-? (x <-? field v "count" ;; as_int x) ;;
  Ok (mkGroup r s e c).

Fixpoint map_result {A B} (f : A -> result B) (l : list A) : result (list B) :=
  match l with
  | [] => Ok []
  | x :: l' => y <-? f x ;; ys <-? map_result f l' ;; Ok (y :: ys)
  end.

(** [value.get(k, default)] on a table. *)
Definition get_or (v : tval) (k : string) (default : tval) : tval :=
  match v with
  | TTable t => match dict_get k t with Some x => x | None => default end
  | _ => default
  end.

Definition show_of_toml (value : tval) : result MonitoredShow :=
  c <-? (x <-? field value "chat_id" ;; as_int x) ;;
  t <-? (x <-? field value "theater_id" ;; as_str x) ;;
  m <-? (x <-? field value "min_seats" ;; as_int x) ;;
  a <-? (x <-? field value "created_at" ;; as_str x) ;;
  gs <-? (match get_or value "last_available_groups" (TArr []) with
          | TArr l => map_result group_of_toml l
          | _ => Err TypeError
          end) ;;
  mr <-? (match get_or value "max_row" TNone with
          | TNone => Ok None
          | TInt z => Ok (Some z)
          | _ => Err TypeError
          end) ;;
  Ok (mkShow c t m a gs mr).

(** The body of the [with] block of [load_db]: [data.get('monitored_shows', {})]
    then [.items()], which raises [AttributeError] on a non-table. *)
Definition shows_of_toml (data : tval) : result (list (string * MonitoredShow)) :=
  match get_or data "monitored_shows" (TTable []) with
  | TTable entries =>
      fold_left (fun acc '(key, value) =>
                   shows <-? acc ;; sh <-? show_of_toml value ;; Ok (dict_set key sh shows))
                entries (Ok [])
  | _ => Err AttributeError
  end.

(** Effects the bot performs, in the order it performs them.  [ESent]
    stands for the message [monitor_show] formats from the new groups and
    the total number of groups. *)
Inductive event : Type :=
| EStarted
| ESave
| ESaveFailed (e : exn)
| ELoadFailed (e : exn)
| EDeleted
| ESent (chat : Z) (show : string) (new_groups : list Group) (total : nat)
| ESendFailed (e : exn)
| ECancelled
| ELoopError (e : exn).

Inductive http_result : Type :=
| HttpOk (html : string)
| HttpClientError
| HttpRaise (e : exn).

Inductive outcome : Type :=
| Exited
| StillRunning
| Cancelled
| Crashed (e : exn).

Section Bot.

(** The text of the database file and the [toml] library's encoder and
    decoder on the documents [toml.dump] writes (after it has left out the
    [None] values, see [strip_none]). *)
Variable text : Type.
Variable toml_dumps : tval -> text.
Variable toml_loads : text -> option tval.

(** The path [theater_bot_db.toml]: absent, a file, a file the process may
    not open, or a directory.  The directory holding it is writable. *)
Inductive fsnode : Type :=
| NoFile
| File (contents : text)
| Locked
| Directory.

Record BotState : Type := mkState {
  monitored_shows : list (string * MonitoredShow);
  db_file : fsnode;
  trace : list event
}.

(** A state and exception monad over the bot. *)
Definition M (A : Type) : Type := BotState -> result A * BotState.

Definition ret {A} (a : A) : M A := fun st => (Ok a, st).
Definition raise {A} (e : exn) : M A := fun st => (Err e, st).
Definition bind {A B} (m : M A) (k : A -> M B) : M B :=
  fun st => match m st with
            | (Ok a, st') => k a st'
            | (Err e, st') => (Err e, st')
            end.
Definition catch {A} (m : M A) (h : exn -> M A) : M A :=
  fun st => match m st with
            | (Err e, st') => h e st'
            | r => r
            end.
Definition modify (f : BotState -> BotState) : M unit := fun st => (Ok tt, f st).
Definition gets {A} (f : BotState -> A) : M A := fun st => (Ok (f st), st).
Definition lift {A} (r : result A) : M A := fun st => (r, st).
Definition emit (ev : event) : M unit :=
  modify (fun st => mkState (monitored_shows st) (db_file st) (List.app (trace st) [ev])).
Definition set_fs (n : fsnode) : M unit :=
  modify (fun st => mkState (monitored_shows st) n (trace st)).

Notation "x <- m ;; k" := (bind m (fun x => k))
  (at level 61, m at next level, right associativity).
Notation "m ;; k" := (bind m (fun _ => k))
  (at level 61, right associativity).

(** [save_db]: overwrite the whole file; failures are logged. *)
Definition save_db : M unit :=
  emit ESave ;;
  fun st =>
    match db_file st with
    | NoFile | File _ =>
        (Ok tt, mkState (monitored_shows st)
                        (File (toml_dumps (strip_none (db_to_toml (monitored_shows st)))))
                        (trace st))
    | Locked => emit (ESaveFailed PermissionError) st
    | Directory => emit (ESaveFailed IsADirectoryError) st
    end.

(** The [except Exception] handler of [load_db]: log, delete the file if
    [os.path.exists], and return an empty dict.  [os.remove] itself is not
    guarded. *)
Definition load_db_handler (e : exn) : M (list (string * MonitoredShow)) :=
  emit (ELoadFailed e) ;;
  fun st =>
    match db_file st with
    | NoFile => (Ok [], st)
    | File _ | Locked => (emit EDeleted ;; set_fs NoFile ;; ret []) st
    | Directory => (Err IsADirectoryError, st)
    end.

Definition load_db : M (list (string * MonitoredShow)) :=
  fun st =>
    match db_file st with
    | NoFile => (Ok [], st)
    | Locked => load_db_handler PermissionError st
    | Directory => load_db_handler IsADirectoryError st
    | File t =>
        match toml_loads t with
        | None => load_db_handler TomlDecodeError st
        | Some data =>
            match shows_of_toml data with
            | Ok shows => (Ok shows, st)
            | Err e => load_db_handler e st
            end
        end
    end.

(** One iteration of the [while] loop of [monitor_show] meets the outside
    world at its three [await]s: the other handlers of the bot may run
    during each of them ([during_*]), and each may end in an exception. *)
Record tick_env : Type := mkTick {
  during_fetch : BotState -> BotState;
  http : http_result;
  during_send : BotState -> BotState;
  send_error : option exn;
  during_sleep : BotState -> BotState;
  sleep_cancelled : bool
}.

(** [fetch_and_parse_chairmap]: [aiohttp.ClientError] yields [[]]; any
    other exception propagates. *)
Definition fetch_and_parse_chairmap (env : tick_env) : M (list Seat) :=
  modify (during_fetch env) ;;
  match http env with
  | HttpOk html_content =>
      ret (filter (fun s => String.eqb (status s) "available")
                  (parse_seats_from_html html_content))
  | HttpClientError => ret []
  | HttpRaise e => raise e
  end.

(** [self.monitored_shows[key]]. *)
Definition get_show (key : string) : M MonitoredShow :=
  fun st => match dict_get key (monitored_shows st) with
            | Some sh => (Ok sh, st)
            | None => (Err KeyError, st)
            end.

Definition put_show (key : string) (sh : MonitoredShow) : M unit :=
  modify (fun st => mkState (dict_set key sh (monitored_shows st)) (db_file st) (trace st)).

(** [send_message] inside [try ... except Exception]: [CancelledError] is
    not an [Exception] and escapes. *)
Definition send_message (env : tick_env) (chat : Z) (theater : string)
  (new_groups : list Group) (total : nat) : M unit :=
  modify (during_send env) ;;
  match send_error env with
  | None => emit (ESent chat theater new_groups total)
  | Some CancelledError => raise CancelledError
  | Some e => emit (ESendFailed e)
  end.

Definition tick_body (theater : string) (min : Z) (chat : Z) (key : string)
  (env : tick_env) : M unit :=
  available_seats <- fetch_and_parse_chairmap env ;;
  match available_seats with
  | [] => ret tt
  | _ =>
      sh <- get_show key ;;
      adjacent_groups <- lift (find_adjacent_seats available_seats min (max_row sh)) ;;
      sh' <- get_show key ;;
      let new_groups := _compare_groups (last_available_groups sh') adjacent_groups in
      (match new_groups with
       | [] => ret tt
       | _ => send_message env chat theater new_groups (List.length adjacent_groups)
       end) ;;
      sh'' <- get_show key ;;
      put_show key (set_last_groups sh'' adjacent_groups) ;;
      save_db
  end.

Definition sleep (env : tick_env) : M unit :=
  modify (during_sleep env) ;;
  if sleep_cancelled env then raise CancelledError else ret tt.

Definition loop_cond (key : string) (chat : Z) (st : BotState) : bool :=
  match dict_get key (monitored_shows st) with
  | Some sh => Z.eqb (chat_id sh) chat
  | None => false
  end.

(** The [while] loop, run for the iterations described by [envs]. *)
Fixpoint monitor_loop (theater : string) (min : Z) (chat : Z) (key : string)
  (envs : list tick_env) : M outcome :=
  c <- gets (loop_cond key chat) ;;
  if c then
    match envs with
    | [] => ret StillRunning
    | env :: envs' =>
        tick_body theater min chat key env ;;
        sleep env ;;
        monitor_loop theater min chat key envs'
    end
  else ret Exited.

Definition monitor_show (theater : string) (min : Z) (chat : Z) (key : string)
  (envs : list tick_env) : M outcome :=
  emit EStarted ;;
  catch (monitor_loop theater min chat key envs)
        (fun e => match e with
                  | CancelledError => emit ECancelled ;; ret Cancelled
                  | _ => emit (ELoopError e) ;; ret (Crashed e)
                  end).

End Bot.

(** ** Concrete inputs *)

(** An idealised [toml] codec: the document itself is the file text. *)
Definition ideal_dumps (d : tval) : tval := d.
Definition ideal_loads (t : tval) : option tval := Some t.

Definition avail (r c : string) : Seat := mkSeat r c "available".

(** A markup element with the attributes in the order the pattern expects. *)
Definition anchor (cls chair_num row_num body : string) : string :=
  "<a class=" ++ dq ++ cls ++ dq ++ " data-chair=" ++ dq ++ chair_num ++ dq
  ++ " data-row=" ++ dq ++ row_num ++ dq ++ ">" ++ body ++ "</a>".

(** The same element with the attributes in the opposite order. *)
Definition anchor_reordered (cls chair_num row_num : string) : string :=
  "<a data-row=" ++ dq ++ row_num ++ dq ++ " data-chair=" ++ dq ++ chair_num ++ dq
  ++ " class=" ++ dq ++ cls ++ dq ++ "></a>".

Definition quiet_tick (h : http_result) : tick_env tval :=
  mkTick _ (fun s => s) h (fun s => s) None (fun s => s) false.

Definition show_7_42 (last : list Group) : MonitoredShow :=
  mkShow 7 "42" 2 "2026-01-01T10:00:00" last None.

Definition state_7_42 (last : list Group) : BotState tval :=
  mkState _ [("7_42", show_7_42 last)] (NoFile _) [].

(** The spec's wording of the max_row filter: numeric rows above the
    ceiling are dropped, every non-numeric row is kept. *)
Definition spec_ceiling_filter (seats : list Seat) (m : Z) : list Seat :=
  filter (fun s => match py_int (row s) with
                   | Some r => Z.leb r m
                   | None => true
                   end) seats.

(** The seats the grouper considers: the input after the ceiling, read as
    the spec words it. *)
Definition retained_seats (seats : list Seat) (max_row : option Z) : list Seat :=
  match max_row with
  | None => seats
  | Some m => spec_ceiling_filter seats m
  end.

(** Some seat of [seats] in row [r] has chair number [z]. *)
Definition in_row (seats : list Seat) (r : string) (z : Z) : Prop :=
  exists s, In s seats /\ row s = r /\ py_int (chair s) = Some z.

Definition seat_value (s : Seat) : Z :=
  match py_int (chair s) with Some z => z | None => 0 end.

(** [g] is a run [a .. a + count - 1] of seats of [seats] in its row, of
    length at least [min_seats], that no seat of the row extends. *)
Definition maximal_group (seats : list Seat) (min_seats : Z) (g : Group) : Prop :=
  exists a, py_int (start_chair g) = Some a
            /\ py_int (end_chair g) = Some (a + count g - 1)
            /\ (min_seats <= count g)%Z
            /\ (forall i, (0 <= i < count g)%Z -> in_row seats (group_row g) (a + i))
            /\ ~ in_row seats (group_row g) (a - 1)
            /\ ~ in_row seats (group_row g) (a + count g).

(** [g] is one seat of [seats] whose chair label [int()] rejects: a run of
    one, of length at least [min_seats], that no seat of its row extends
    by a consecutive number, since the label has no number. *)
Definition label_group (seats : list Seat) (min_seats : Z) (g : Group) : Prop :=
  py_int (start_chair g) = None
  /\ end_chair g = start_chair g
  /\ count g = 1
  /\ (min_seats <= count g)%Z
  /\ exists s, In s seats /\ row s = group_row g /\ chair s = start_chair g.

(** [g] lies in row [r] and contains the chair numbers [v .. v + k - 1]. *)
Definition group_covers (g : Group) (r : string) (v k : Z) : Prop :=
  group_row g = r
  /\ exists a, py_int (start_chair g) = Some a /\ (a <= v)%Z /\ (v + k <= a + count g)%Z.

(** [c not in s]. *)
Fixpoint char_free (c : ascii) (s : string) : bool :=
  match s with
  | EmptyString => true
  | String a t => negb (Ascii.eqb c a) && char_free c t
  end.

(** A markup document: each element preceded by some text. *)
Definition synthetic_doc (els : list (string * string * string * string * string)) : string :=
  fold_right (fun '(gap, cls, chair_num, row_num, body) acc =>
                gap ++ anchor cls chair_num row_num body ++ acc) "" els.

Definition expected_seat (el : string * string * string * string * string) : Seat :=
  let '(_, cls, chair_num, row_num, _) := el in
  mkSeat row_num chair_num (if str_contains "taken" cls then "taken" else "available").

Definition lt_char : ascii := "<"%char.
Definition dq_char : ascii := ascii_of_nat 34.

(** An element in the order class, data-chair, data-row: no double quote inside an
    attribute value, and no [<] in the text before the element or in its body. *)
Definition canonical_el (el : string * string * string * string * string) : bool :=
  let '(gap, cls, chair_num, row_num, body) := el in
  char_free lt_char gap && char_free dq_char cls && char_free dq_char chair_num
  && char_free dq_char row_num && char_free lt_char body.

(** [anchor ... ++ rest] associated to the right. *)
Definition anchor_then (cls chair_num row_num body rest : string) : string :=
  "<a class=" ++ dq ++ (cls ++ (dq ++ " data-chair=" ++ dq ++ (chair_num ++
  (dq ++ " data-row=" ++ dq ++ (row_num ++ (dq ++ ">" ++ (body ++ ("</a>" ++ rest)))))))).

(** The document [toml.dump] writes for one subscription. *)
Definition stripped_show (sh : MonitoredShow) : tval :=
  TTable ([("chat_id", TInt (chat_id sh));
           ("theater_id", TStr (theater_id sh));
           ("min_seats", TInt (min_seats sh));
           ("created_at", TStr (created_at sh));
           ("last_available_groups", TArr (map group_to_toml (last_available_groups sh)))]
          ++ match max_row sh with Some m => [("max_row", TInt m)] | None => [] end).

Definition save_tail (post : list event) : Prop :=
  post = [] \/ exists e, post = [ESaveFailed e].

Definition value_le (a b : Seat) : Prop := seat_value a <= seat_value b.

Definition value_lt (a b : Seat) : Prop := seat_value a < seat_value b.

Definition rows_inv (acc : list (string * list Seat)) (seen : list Seat) : Prop :=
  NoDup (map fst acc)
  /\ (forall r l, In (r, l) acc -> l = filter (fun s => String.eqb (row s) r) seen)
  /\ (forall s, In s seen -> In (row s) (map fst acc)).

(** ** [extract_theater_id]: [re.search(r'.*?showURL=(\d+).*', url)] *)

Definition newline : ascii := ascii_of_nat 10.
Definition nl : string := String newline EmptyString.

(** [.*?] without DOTALL: lazy, and [.] does not match a newline. *)
Fixpoint lazy_line {R} (k : string -> option R) (s : string) : option R :=
  match k s with
  | Some r => Some r
  | None => match s with
            | EmptyString => None
            | String c t => if Ascii.eqb c newline then None else lazy_line k t
            end
  end.

(** [(\d+)], greedy: take one more digit while the rest of the pattern can
    still match after it, otherwise give the digits back one at a time.
    [acc] holds the digits taken so far. *)
Fixpoint digits_plus {R} (k : string -> option R) (acc s : string)
  : option (string * R) :=
  let here := match acc with
              | EmptyString => None
              | _ => match k s with Some r => Some (acc, r) | None => None end
              end in
  match s with
  | String c t =>
      if is_digit c then
        match digits_plus k (acc ++ String c EmptyString) t with
        | Some r => Some r
        | None => here
        end
      else here
  | EmptyString => here
  end.

(** [.*], greedy and without DOTALL, at the end of the pattern: it takes the
    rest of the line and the match succeeds. *)
Fixpoint dot_star (s : string) : option string :=
  match s with
  | EmptyString => Some EmptyString
  | String c t => if Ascii.eqb c newline then Some s else dot_star t
  end.

(** [re.search]: the first start position at which the pattern matches. *)
Fixpoint search {R} (m : string -> option R) (s : string) : option R :=
  match m s with
  | Some r => Some r
  | None => match s with
            | EmptyString => None
            | String _ t => search m t
            end
  end.

Definition theater_pattern (s : string) : option (string * string) :=
  lazy_line (fun s1 => match strip_prefix "showURL=" s1 with
                       | Some s2 => digits_plus dot_star EmptyString s2
                       | None => None
                       end) s.

(** [match.group(1)] of a successful search. *)
Definition extract_theater_id (url : string) : option string :=
  match search theater_pattern url with
  | Some (d, _) => Some d
  | None => None
  end.

(** ** Python string helpers used by the handlers *)

(** [s.split(sep)]. *)
Fixpoint py_split (sep : ascii) (s : string) : list string :=
  match s with
  | EmptyString => [EmptyString]
  | String c t =>
      match py_split sep t with
      | [] => [String c EmptyString]
      | p :: ps => if Ascii.eqb c sep then EmptyString :: p :: ps else String c p :: ps
      end
  end.

(** [s.split(sep, 1)]. *)
Fixpoint py_split_once (sep : ascii) (s : string) : list string :=
  match s with
  | EmptyString => [EmptyString]
  | String c t =>
      if Ascii.eqb c sep then [EmptyString; t]
      else match py_split_once sep t with
           | [] => [String c EmptyString]
           | p :: ps => String c p :: ps
           end
  end.

(** [lst[i]], with [IndexError]. *)
Definition py_index (l : list string) (i : nat) : result string :=
  match nth_error l i with Some x => Ok x | None => Err (OtherError "IndexError") end.

Definition py_startswith (p s : string) : bool :=
  match strip_prefix p s with Some _ => true | None => false end.

(** [str(n)] for a non-negative [n]: decimal digits, prepended to [acc]. *)
Fixpoint digits_rev (fuel : nat) (n : Z) (acc : string) : string :=
  match fuel with
  | O => acc
  | S f =>
      let acc' := String (ascii_of_nat (Z.to_nat (48 + n mod 10))) acc in
      if (n <? 10)%Z then acc' else digits_rev f (n / 10) acc'
  end.

(** [str(z)] for an [int] (and [f"{z}"]). *)
Definition py_str (z : Z) : string :=
  if (z <? 0)%Z then "-" ++ digits_rev (S (Z.to_nat (Z.log2 (- z)))) (- z) ""
  else digits_rev (S (Z.to_nat (Z.log2 z))) z "".

(** Python's truth value of an [Optional[str]]: [None] and [''] are false. *)
Definition truthy (s : option string) : bool :=
  match s with Some (String _ _) => true | _ => false end.

(** ** The Telegram handlers *)

(** The state objects stored in [context.user_data['state']]. *)
Inductive ustate : Type :=
| InitialState
| FindSeatsState
| MonitorSetupState (temp_theater_id : option string) (waiting_for : option string)
                    (temp_min_seats : option Z)
| ChangeMaxRowState (key : string).

(** Reply markups; an inline button is its text and its [callback_data]. *)
Inductive markup : Type :=
| NoMarkup
| ReplyKeyboard (rows : list (list string))
| InlineKeyboard (rows : list (list (string * string))).

(** The Bot API calls a handler makes: [reply_text], [edit_message_text]
    and [query.answer()]. *)
Inductive api_call : Type :=
| SendText (msg : string) (mk : markup)
| EditText (msg : string) (mk : markup)
| Answer.

Definition find_btn : string := "🔍 Find Available Seats".
Definition monitor_btn : string := "➕ Monitor Show".
Definition myshows_btn : string := "📋 My Monitored Shows".
Definition stop_btn : string := "❌ Stop Monitoring".
Definition help_btn : string := "❓ Help".

Definition get_main_menu_keyboard : markup :=
  ReplyKeyboard [[find_btn; monitor_btn]; [myshows_btn; stop_btn]; [help_btn]].

Definition button_commands : list string :=
  [find_btn; monitor_btn; myshows_btn; stop_btn; help_btn].

Definition welcome_message : string :=
  "🎭 Welcome to Theater Seat Finder Bot!" ++ nl
  ++ "I'll help you find available seats for shows." ++ nl
  ++ "Use the buttons below or commands:" ++ nl
  ++ "/find - Find available seats" ++ nl
  ++ "/monitor - Monitor a show" ++ nl
  ++ "/myshows - View your monitored shows" ++ nl
  ++ "/stop - Stop monitoring shows" ++ nl
  ++ "/help - Show help information".

Definition help_text : string :=
  "❓ Theater Seat Finder Bot Help" ++ nl
  ++ "1. Send me a show URL to find seats" ++ nl
  ++ "2. Select from the results to monitor" ++ nl
  ++ "3. I'll notify you when seats become available" ++ nl
  ++ "Available commands:" ++ nl
  ++ "/find - Find available seats" ++ nl
  ++ "/monitor - Monitor a show" ++ nl
  ++ "/myshows - View your monitored shows" ++ nl
  ++ "/stop - Stop monitoring shows" ++ nl
  ++ "/help - Show this help" ++ nl
  ++ "Use the buttons at the bottom of your screen for quick access!".

Definition not_monitoring_message : string :=
  "You are not monitoring any shows." ++ nl
  ++ "Use the '➕ Monitor Show' button to start monitoring!".

Definition max_row_info (mr : option Z) : string :=
  match mr with Some m => py_str m | None => "Unlimited" end.

Definition show_entry (show : MonitoredShow) : string :=
  "• Show ID: " ++ theater_id show ++ nl
  ++ "  Min seats: " ++ py_str (min_seats show) ++ nl
  ++ "  " ++ ("Max row: " ++ max_row_info (max_row show)) ++ nl
  ++ "  Last checked: " ++ py_str (Z.of_nat (List.length (last_available_groups show)))
  ++ " groups found" ++ nl.

Definition my_shows_message (user_shows : list (string * MonitoredShow)) : string :=
  fold_left (fun message '(_, show) => message ++ show_entry show) user_shows
            ("📋 Your monitored shows:" ++ nl).

Definition back_to_menu : list (string * string) := [("Back to Menu", "main_menu")].

Definition manage_keyboard (user_shows : list (string * MonitoredShow))
  : list (list (string * string)) :=
  let keyboard := map (fun '(key, show) => [("Manage: " ++ theater_id show, "manage_" ++ key)])
                      user_shows in
  match keyboard with
  | [] => keyboard
  | _ => List.app keyboard [back_to_menu]
  end.

Definition stop_keyboard (user_shows : list (string * MonitoredShow))
  : list (list (string * string)) :=
  List.app (map (fun '(key, show) =>
                   [("Stop: " ++ theater_id show ++ " (Min: " ++ py_str (min_seats show) ++ ")",
                     "stop_" ++ key)]) user_shows)
           [back_to_menu].

(** The two ways a grouping is listed, [find_seats_for_url] ([at_row]) and
    the [find_now_] button. *)
Definition group_lines (at_row : bool) (groups : list Group) : string :=
  snd (fold_left (fun '(i, message) group =>
                    (i + 1,
                     message ++ py_str i ++ ". " ++ py_str (count group)
                     ++ (if at_row
                         then " adjacent seats at row " ++ group_row group
                              ++ ": Seat numbers " ++ start_chair group ++ " - " ++ end_chair group
                         else " adjacent seats: Row " ++ group_row group
                              ++ ", Chair " ++ start_chair group ++ " - " ++ end_chair group)
                     ++ nl))
                 groups (1, "")).

Definition groups_message (at_row : bool) (groups : list Group) : string :=
  match groups with
  | [] => "No adjacent seats found that meet your criteria."
  | _ => "Found " ++ py_str (Z.of_nat (List.length groups)) ++ " groups of adjacent seats:" ++ nl
         ++ group_lines at_row groups
  end.

Definition manage_message (show : MonitoredShow) : string :=
  "Manage Show: " ++ theater_id show ++ nl
  ++ "Min seats: " ++ py_str (min_seats show) ++ nl
  ++ "Max row: " ++ max_row_info (max_row show) ++ nl
  ++ "Last checked: " ++ py_str (Z.of_nat (List.length (last_available_groups show)))
  ++ " groups found" ++ nl.

(** [del d[k]] for a key of [d]. *)
Fixpoint dict_del {A} (k : string) (d : list (string * A)) : list (string * A) :=
  match d with
  | [] => []
  | (k', v) :: d' => if String.eqb k k' then d' else (k', v) :: dict_del k d'
  end.

Definition dict_mem {A} (k : string) (d : list (string * A)) : bool :=
  match dict_get k d with Some _ => true | None => false end.

(** The coroutine call a task was created for:
    [self.monitor_show(theater_id, min_seats, chat_id, key)]. *)
Record TaskSpec : Type := mkTask {
  task_theater : string;
  task_min : Z;
  task_chat : Z;
  task_key : string
}.

(** What a handler sees of the outside world: the chat of the update, the
    time [datetime.now().isoformat()] reads, the outcome of the Bot API
    calls (all succeed, or each raises [e]) and the HTTP response of a
    fetch.  The monitoring tasks that may run during the handler's
    [await]s are not part of this model. *)
Record henv : Type := mkEnv {
  update_chat : Z;
  now_iso : string;
  api_error : option exn;
  http_response : http_result
}.

Section Handlers.

Variable db_text : Type.
Variable toml_dumps : tval -> db_text.
Variable env : henv.

(** The bot object and the user's [context.user_data]: tasks are numbered
    in creation order; [tasks_cancelled] lists the tasks [.cancel()] was
    called on; [api_log] lists the Bot API calls made. *)
Record HState : Type := mkH {
  bot : BotState db_text;
  monitoring_tasks : list (string * nat);
  tasks_created : list (nat * TaskSpec);
  tasks_cancelled : list nat;
  user_state : option ustate;
  api_log : list api_call
}.

Definition HM (A : Type) : Type := HState -> result A * HState.

Definition hret {A} (a : A) : HM A := fun h => (Ok a, h).
Definition hbind {A B} (m : HM A) (k : A -> HM B) : HM B :=
  fun h => match m h with
           | (Ok a, h') => k a h'
           | (Err e, h') => (Err e, h')
           end.
Definition hlift {A} (r : result A) : HM A := fun h => (r, h).

Notation "x <- m ;; k" := (hbind m (fun x => k))
  (at level 61, m at next level, right associativity).
Notation "m ;; k" := (hbind m (fun _ => k))
  (at level 61, right associativity).

(** Running a computation of the store (see [Bot]) on the bot's part. *)
Definition on_bot {A} (m : M db_text A) : HM A :=
  fun h => let (r, b) := m (bot h) in
           (r, mkH b (monitoring_tasks h) (tasks_created h) (tasks_cancelled h)
                   (user_state h) (api_log h)).

Definition get_shows : HM (list (string * MonitoredShow)) :=
  fun h => (Ok (monitored_shows db_text (bot h)), h).

Definition set_shows (d : list (string * MonitoredShow)) : HM unit :=
  fun h => (Ok tt, mkH (mkState db_text d (db_file db_text (bot h)) (trace db_text (bot h)))
                       (monitoring_tasks h) (tasks_created h) (tasks_cancelled h)
                       (user_state h) (api_log h)).

Definition save : HM unit := on_bot (save_db db_text toml_dumps).

Definition get_user_state : HM (option ustate) := fun h => (Ok (user_state h), h).

(** [context.user_data['state'] = s] and [context.user_data.pop('state', None)]. *)
Definition set_user_state (s : option ustate) : HM unit :=
  fun h => (Ok tt, mkH (bot h) (monitoring_tasks h) (tasks_created h) (tasks_cancelled h)
                       s (api_log h)).

Definition call_api (c : api_call) : HM unit :=
  fun h => match api_error env with
           | Some e => (Err e, h)
           | None => (Ok tt, mkH (bot h) (monitoring_tasks h) (tasks_created h)
                                 (tasks_cancelled h) (user_state h) (List.app (api_log h) [c]))
           end.

Definition reply_text (msg : string) (mk : markup) : HM unit := call_api (SendText msg mk).
Definition edit_message_text (msg : string) (mk : markup) : HM unit := call_api (EditText msg mk).

(** [fetch_and_parse_chairmap] with the handler's HTTP response. *)
Definition fetch : HM (list Seat) :=
  on_bot (fetch_and_parse_chairmap db_text
            (mkTick db_text (fun s => s) (http_response env) (fun s => s) None (fun s => s) false)).

(** [start_monitoring_task]: cancel the task stored under [key], if any,
    and store a new one. *)
Definition start_monitoring_task (key theater_id : string) (min_seats chat_id : Z) : HM unit :=
  fun h =>
    let cancelled := match dict_get key (monitoring_tasks h) with
                     | Some t => List.app (tasks_cancelled h) [t]
                     | None => tasks_cancelled h
                     end in
    let task := List.length (tasks_created h) in
    (Ok tt, mkH (bot h) (dict_set key task (monitoring_tasks h))
                (List.app (tasks_created h) [(task, mkTask theater_id min_seats chat_id key)])
                cancelled (user_state h) (api_log h)).

Definition stop_monitoring_task (key : string) : HM unit :=
  fun h =>
    match dict_get key (monitoring_tasks h) with
    | Some t => (Ok tt, mkH (bot h) (dict_del key (monitoring_tasks h)) (tasks_created h)
                            (List.app (tasks_cancelled h) [t]) (user_state h) (api_log h))
    | None => (Ok tt, h)
    end.

Definition user_shows (shows : list (string * MonitoredShow)) : list (string * MonitoredShow) :=
  filter (fun '(_, v) => Z.eqb (chat_id v) (update_chat env)) shows.

(** The [📋 My Monitored Shows] branch and [myshows_command]. *)
Definition list_shows : HM unit :=
  shows <- get_shows ;;
  match user_shows shows with
  | [] => reply_text not_monitoring_message get_main_menu_keyboard
  | us => reply_text (my_shows_message us) (InlineKeyboard (manage_keyboard us))
  end.

(** The [❌ Stop Monitoring] branch and [stop_command]. *)
Definition list_stops : HM unit :=
  shows <- get_shows ;;
  match user_shows shows with
  | [] => reply_text "You are not monitoring any shows." get_main_menu_keyboard
  | us => reply_text ("Select a show to stop monitoring:" ++ nl) (InlineKeyboard (stop_keyboard us))
  end.

Definition start_command : HM unit :=
  reply_text welcome_message get_main_menu_keyboard ;;
  set_user_state (Some InitialState).

Definition help_command : HM unit := reply_text help_text get_main_menu_keyboard.

Definition find_command : HM unit :=
  reply_text "Please send me the show URL" get_main_menu_keyboard ;;
  set_user_state (Some FindSeatsState).

Definition monitor_command : HM unit :=
  reply_text "Please send me the show URL to monitor" get_main_menu_keyboard ;;
  set_user_state (Some FindSeatsState).

Definition myshows_command : HM unit := list_shows.
Definition stop_command : HM unit := list_stops.

Definition invalid_url_message : string := "Invalid URL format. Please send a valid URL".
Definition no_seats_message : string := "No available seats found or error occurred.".
Definition searching_message : string := "Searching for available seats...".

Definition find_seats_for_url (url : string) : HM unit :=
  match extract_theater_id url with
  | Some (String _ _) =>
      reply_text searching_message NoMarkup ;;
      available_seats <- fetch ;;
      match available_seats with
      | [] => reply_text no_seats_message get_main_menu_keyboard
      | _ =>
          adjacent_groups <- hlift (find_adjacent_seats available_seats 2 None) ;;
          reply_text (groups_message true adjacent_groups) get_main_menu_keyboard
      end
  | _ => reply_text invalid_url_message get_main_menu_keyboard
  end.

Definition handle_url (url : string) : HM unit :=
  match extract_theater_id url with
  | Some (String _ _ as theater_id) =>
      reply_text ("Found show ID: " ++ theater_id ++ nl ++ "What would you like to do?")
                 (InlineKeyboard [[("🔍 Find Seats Now", "find_now_" ++ theater_id)];
                                  [("➕ Monitor This Show", "monitor_" ++ theater_id)];
                                  back_to_menu])
  | _ => reply_text invalid_url_message get_main_menu_keyboard
  end.

Definition handle_min_seats_input (text : string) (theater_id : option string) : HM unit :=
  if negb (isdigit text) then reply_text "Please enter a valid number." get_main_menu_keyboard
  else
    min_seats <- hlift (match py_int text with Some z => Ok z | None => Err ValueError end) ;;
    if negb (truthy theater_id) then
      reply_text "Something went wrong. Please try again." get_main_menu_keyboard ;;
      set_user_state None
    else
      reply_text "What is the maximum row number you want to consider? (Enter a number, or 0 for unlimited)"
                 get_main_menu_keyboard ;;
      set_user_state (Some (MonitorSetupState theater_id (Some "max_row_setup") (Some min_seats))).

Definition started_message (theater_id : string) (min_seats : Z) (max_row : option Z) : string :=
  "✅ Successfully started monitoring show " ++ theater_id ++ " for " ++ py_str min_seats
  ++ " adjacent seats!" ++ nl
  ++ "Maximum row: " ++ max_row_info max_row ++ nl
  ++ "I'll notify you when available seats are found.".

(** [int(text)], then [0] for unlimited. *)
Definition parse_max_row (text : string) : result (option Z) :=
  match py_int text with
  | Some z => Ok (if Z.eqb z 0 then None else Some z)
  | None => Err ValueError
  end.

Definition handle_max_row_input (text : string) (theater_id : option string)
  (min_seats : option Z) : HM unit :=
  if negb (isdigit text) then
    reply_text "Please enter a valid number (0 for unlimited)." get_main_menu_keyboard
  else
    max_row <- hlift (parse_max_row text) ;;
    let chat_id := update_chat env in
    match theater_id, min_seats with
    | Some tid, Some min =>
        if negb (truthy theater_id) then
          reply_text "Something went wrong. Please try again." get_main_menu_keyboard ;;
          set_user_state None
        else
          let key := py_str chat_id ++ "_" ++ tid in
          shows <- get_shows ;;
          set_shows (dict_set key (mkShow chat_id tid min (now_iso env) [] max_row) shows) ;;
          save ;;
          start_monitoring_task key tid min chat_id ;;
          reply_text (started_message tid min max_row) get_main_menu_keyboard ;;
          set_user_state None
    | _, _ =>
        reply_text "Something went wrong. Please try again." get_main_menu_keyboard ;;
        set_user_state None
    end.

Definition set_max_row (sh : MonitoredShow) (mr : option Z) : MonitoredShow :=
  mkShow (chat_id sh) (theater_id sh) (min_seats sh) (created_at sh)
         (last_available_groups sh) mr.

(** The [ChangeMaxRowState] branch of [handle_message]. *)
Definition change_max_row_input (text key : string) : HM unit :=
  if negb (isdigit text) then
    reply_text "Please enter a valid number (0 for unlimited)." get_main_menu_keyboard
  else
    max_row <- hlift (parse_max_row text) ;;
    shows <- get_shows ;;
    (match key, dict_get key shows with
     | String _ _, Some show =>
         set_shows (dict_set key (set_max_row show max_row) shows) ;;
         save ;;
         reply_text ("✅ Successfully updated max row to "
                     ++ (match max_row with None => "unlimited" | Some m => py_str m end)
                     ++ " for show " ++ theater_id show ++ ".") get_main_menu_keyboard
     | _, _ =>
         reply_text "❌ Error updating max row. Please try again." get_main_menu_keyboard
     end) ;;
    set_user_state None.

Definition is_input_state (s : option ustate) : bool :=
  match s with
  | Some (ChangeMaxRowState _) | Some (MonitorSetupState _ _ _) => true
  | _ => false
  end.

Definition handle_message (raw_text : string) : HM unit :=
  let text := rstrip (lstrip raw_text) in
  current_state <- get_user_state ;;
  (if is_input_state current_state && existsb (String.eqb text) button_commands
   then set_user_state None else hret tt) ;;
  if String.eqb text find_btn then
    reply_text "Please send me the show URL" get_main_menu_keyboard ;;
    set_user_state (Some FindSeatsState)
  else if String.eqb text monitor_btn then
    reply_text "Please send me the show URL to monitor" get_main_menu_keyboard ;;
    set_user_state (Some FindSeatsState)
  else if String.eqb text myshows_btn then list_shows
  else if String.eqb text stop_btn then list_stops
  else if String.eqb text help_btn then reply_text help_text get_main_menu_keyboard
  else
    current_state <- get_user_state ;;
    match current_state with
    | Some (ChangeMaxRowState key) => change_max_row_input text key
    | Some (MonitorSetupState tid (Some w) tmin) =>
        if String.eqb w "min_seats" then handle_min_seats_input text tid
        else if String.eqb w "max_row_setup" then handle_max_row_input text tid tmin
        else if py_startswith "http" text then handle_url text
        else reply_text "Please send a valid show URL or use the menu buttons." get_main_menu_keyboard ;;
             set_user_state (Some InitialState)
    | Some FindSeatsState =>
        find_seats_for_url text ;;
        set_user_state None
    | _ =>
        if py_startswith "http" text then handle_url text
        else
          reply_text "Please send a valid show URL or use the menu buttons." get_main_menu_keyboard ;;
          (match current_state with
           | Some InitialState => hret tt
           | _ => set_user_state (Some InitialState)
           end)
    end.

Definition inline_button_handler (data : string) : HM unit :=
  call_api Answer ;;
  if py_startswith "find_now_" data then
    theater_id <- hlift (py_index (py_split "_"%char data) 2) ;;
    edit_message_text searching_message NoMarkup ;;
    available_seats <- fetch ;;
    match available_seats with
    | [] => edit_message_text no_seats_message NoMarkup
    | _ =>
        adjacent_groups <- hlift (find_adjacent_seats available_seats 2 None) ;;
        edit_message_text (groups_message false adjacent_groups) (InlineKeyboard [back_to_menu])
    end
  else if py_startswith "monitor_" data then
    theater_id <- hlift (py_index (py_split "_"%char data) 1) ;;
    edit_message_text "How many adjacent seats do you need? (Enter a number)" NoMarkup ;;
    set_user_state (Some (MonitorSetupState (Some theater_id) (Some "min_seats") None))
  else if py_startswith "stop_" data then
    key <- hlift (py_index (py_split_once "_"%char data) 1) ;;
    shows <- get_shows ;;
    match dict_get key shows with
    | Some show =>
        set_shows (dict_del key shows) ;;
        save ;;
        stop_monitoring_task key ;;
        edit_message_text ("✅ Successfully stopped monitoring show " ++ theater_id show) NoMarkup
    | None => edit_message_text "❌ The show is no longer being monitored." NoMarkup
    end
  else if py_startswith "manage_" data then
    key <- hlift (py_index (py_split_once "_"%char data) 1) ;;
    shows <- get_shows ;;
    match dict_get key shows with
    | Some show =>
        edit_message_text (manage_message show)
          (InlineKeyboard [[("Change Max Row", "change_max_row_" ++ key)];
                           [("Stop Monitoring", "stop_" ++ key)];
                           back_to_menu])
    | None => edit_message_text "❌ Show not found." NoMarkup
    end
  else if py_startswith "change_max_row_" data then
    (* [split_all[-1]] and the [in] tests only feed the log. *)
    key <- hlift (py_index (py_split_once "_"%char data) 1) ;;
    shows <- get_shows ;;
    match dict_get key shows with
    | Some _ =>
        edit_message_text "What is the new maximum row number you want to consider? (Enter a number, or 0 for unlimited)"
                          NoMarkup ;;
        set_user_state (Some (ChangeMaxRowState key))
    | None => edit_message_text "❌ Show not found." NoMarkup
    end
  else if String.eqb data "main_menu" then
    edit_message_text ("🎭 Welcome to the Theater Seat Finder Bot!" ++ nl
                       ++ "Use the buttons below or send a show URL:") get_main_menu_keyboard ;;
    set_user_state (Some InitialState)
  else hret tt.

End Handlers.

(** [TheaterBot.__init__]: the store is loaded and no task is running. *)
Definition bot_init (db_text : Type) (toml_loads : db_text -> option tval)
  (st : BotState db_text) : result (HState db_text) :=
  match load_db db_text toml_loads st with
  | (Ok shows, st') =>
      Ok (mkH db_text (mkState db_text shows (db_file db_text st') (trace db_text st'))
              [] [] [] None [])
  | (Err e, _) => Err e
  end.

(** The commands registered in [run]. *)
Inductive command : Type :=
| CStart | CHelp | CFind | CMonitor | CMyShows | CStop.

Definition run_command (db_text : Type) (dumps : tval -> db_text) (env : henv) (c : command)
  : HM db_text unit :=
  match c with
  | CStart => start_command db_text env
  | CHelp => help_command db_text env
  | CFind => find_command db_text env
  | CMonitor => monitor_command db_text env
  | CMyShows => myshows_command db_text env
  | CStop => stop_command db_text env
  end.

(** What can happen to the bot between two handler runs: a handler runs
    for some update (an exception it raises is logged by the framework and
    its effects so far remain), the update comes from another user, whose
    [context.user_data] holds another state, or a monitoring task writes
    the store. *)
Inductive bot_step {T : Type} (dumps : tval -> T) : HState T -> HState T -> Prop :=
| step_message env raw h : bot_step dumps h (snd (handle_message T dumps env raw h))
| step_button env data h : bot_step dumps h (snd (inline_button_handler T dumps env data h))
| step_command env c h : bot_step dumps h (snd (run_command T dumps env c h))
| step_user h u :
    bot_step dumps h (mkH T (bot T h) (monitoring_tasks T h) (tasks_created T h)
                          (tasks_cancelled T h) u (api_log T h))
| step_store h b :
    bot_step dumps h (mkH T b (monitoring_tasks T h) (tasks_created T h)
                          (tasks_cancelled T h) (user_state T h) (api_log T h)).

Definition task_part {T} (h : HState T) : list (string * nat) * list (nat * TaskSpec) * list nat :=
  (monitoring_tasks T h, tasks_created T h, tasks_cancelled T h).

Definition frame {T} (h : HState T)
  : list (string * MonitoredShow) * (list (string * nat) * list (nat * TaskSpec) * list nat) :=
  (monitored_shows T (bot T h), task_part h).

Definition keeps_frame {T A} (m : HM T A) : Prop := forall h, frame (snd (m h)) = frame h.
Definition keeps_tasks {T A} (m : HM T A) : Prop := forall h, task_part (snd (m h)) = task_part h.

(** The task registry: [monitoring_tasks] has distinct keys and maps each
    key to a created, uncancelled task for that key; every created task
    that was never cancelled is the one stored under its key; tasks are
    numbered [0, 1, ...] and only created tasks are cancelled. *)
Definition tasks_ok {T} (h : HState T) : Prop :=
  NoDup (map fst (monitoring_tasks T h))
  /\ map fst (tasks_created T h) = seq 0 (List.length (tasks_created T h))
  /\ (forall t, In t (tasks_cancelled T h) -> (t < List.length (tasks_created T h))%nat)
  /\ (forall k t, dict_get k (monitoring_tasks T h) = Some t ->
        exists sp, In (t, sp) (tasks_created T h) /\ task_key sp = k
                   /\ ~ In t (tasks_cancelled T h))
  /\ (forall t sp, In (t, sp) (tasks_created T h) -> ~ In t (tasks_cancelled T h) ->
        dict_get (task_key sp) (monitoring_tasks T h) = Some t).

Definition preserves {T A} (P : HState T -> Prop) (m : HM T A) : Prop :=
  forall h, P h -> P (snd (m h)).

Definition env_7 : henv := mkEnv 7 "2026-01-01T12:00:00" None HttpClientError.

Definition hstate_7_42 : HState tval :=
  mkH tval (state_7_42 []) [("7_42", 0%nat)] [(0%nat, mkTask "42" 2 7 "7_42")] [] None [].

(** * Proofs *)

Local Close Scope string_scope.

(** ** The differ *)

Lemma key_eqb_eq (a b : string * string * string) : key_eqb a b = true <-> a = b.
Proof.
  destruct a as [[r1 s1] e1], b as [[r2 s2] e2]; simpl.
  rewrite !andb_true_iff, !String.eqb_eq.
  split; [intros [[-> ->] ->]; reflexivity | intros H; inversion H; auto].
Qed.

Lemma key_mem_In k ks : key_mem k ks = true <-> In k ks.
Proof.
  unfold key_mem; rewrite existsb_exists.
  split.
  - intros [x [Hx Hk]]; apply key_eqb_eq in Hk; subst; assumption.
  - intros H; exists k; split; [assumption | apply key_eqb_eq; reflexivity].
Qed.

Lemma compare_groups_fold (keys : list (string * string * string)) (B acc : list Group) :
  fold_left (fun new_added group =>
               if key_mem (group_key group) keys then new_added
               else new_added ++ [group]) B acc
  = acc ++ filter (fun g => negb (key_mem (group_key g) keys)) B.
Proof.
  revert acc; induction B as [|g B IH]; intros acc; simpl.
  - rewrite app_nil_r; reflexivity.
  - rewrite IH; destruct (key_mem (group_key g) keys); simpl.
    + reflexivity.
    + rewrite <- app_assoc; reflexivity.
Qed.

Lemma compare_groups_filter (A B : list Group) :
  _compare_groups A B
  = filter (fun g => negb (key_mem (group_key g) (map group_key A))) B.
Proof. unfold _compare_groups; apply compare_groups_fold. Qed.

(** C3: the differ keeps, in order, the groups of the new list whose
    (row, start_chair, end_chair) triple is not a triple of the old list;
    hence diff(A, A) = [], diff([], A) = A, no reported group has an old
    triple, and a group whose triple is old is never reported, whatever
    its count. *)
Theorem compare_groups_correct (A B : list Group) :
  _compare_groups A B
    = filter (fun g => negb (key_mem (group_key g) (map group_key A))) B
  /\ _compare_groups A A = []
  /\ _compare_groups [] A = A
  /\ (forall g, In g (_compare_groups A B) -> ~ In (group_key g) (map group_key A))
  /\ (forall g g', In g' A -> group_key g = group_key g' ->
                   ~ In g (_compare_groups A B)).
Proof.
  rewrite !compare_groups_filter.
  split; [reflexivity|]; split; [|split; [|split]].
  - assert (Hall : forall l, incl l A ->
              filter (fun g => negb (key_mem (group_key g) (map group_key A))) l = []).
    { induction l as [|g l IH]; intros Hincl; simpl; [reflexivity|].
      assert (Hm : key_mem (group_key g) (map group_key A) = true).
      { apply key_mem_In, in_map, Hincl; left; reflexivity. }
      rewrite Hm; simpl; apply IH; intros x Hx; apply Hincl; right; exact Hx. }
    apply Hall; intros x Hx; exact Hx.
  - simpl; induction A as [|g A IH]; simpl; [reflexivity | rewrite IH; reflexivity].
  - intros g Hg; apply filter_In in Hg; destruct Hg as [_ Hg].
    intros Hin; apply key_mem_In in Hin; rewrite Hin in Hg; discriminate.
  - intros g g' Hg' Hk Hg; apply filter_In in Hg; destruct Hg as [_ Hg].
    assert (Hm : key_mem (group_key g) (map group_key A) = true).
    { apply key_mem_In; rewrite Hk; apply in_map; exact Hg'. }
    rewrite Hm in Hg; discriminate.
Qed.

(** ** The max_row filter *)

(** C2 (as the code is designed): with every row label numeric, a present
    ceiling keeps exactly the seats whose row is at most the ceiling, in
    input order, and does not fail; an absent ceiling keeps every seat. *)
Theorem max_row_filter_numeric (seats : list Seat) (m : Z)
  (Hnum : forall s, In s seats -> py_int (row s) <> None) :
  max_row_filter seats (Some m) = Ok (spec_ceiling_filter seats m)
  /\ max_row_filter seats None = Ok seats.
Proof.
  split; [|reflexivity].
  unfold max_row_filter, spec_ceiling_filter.
  assert (Hall : forallb (fun s => match py_int (row s) with
                                   | Some _ => true | None => false end) seats = true).
  { apply forallb_forall; intros s Hs; specialize (Hnum s Hs).
    destruct (py_int (row s)); [reflexivity | congruence]. }
  rewrite Hall; f_equal; apply filter_ext_in; intros s Hs.
  specialize (Hnum s Hs); destruct (py_int (row s)); [reflexivity | congruence].
Qed.

Lemma max_row_filter_numeric_witness :
  max_row_filter [avail "3" "1"; avail "10" "1"] (Some 4)
    = Ok (spec_ceiling_filter [avail "3" "1"; avail "10" "1"] 4)
  /\ max_row_filter [avail "3" "1"; avail "10" "1"] None = Ok [avail "3" "1"; avail "10" "1"].
Proof.
  apply (max_row_filter_numeric [avail "3" "1"; avail "10" "1"] 4).
  intros s [<-|[<-|[]]]; simpl; discriminate.
Defined.

(** C2 fails as stated: with a non-numeric row label "x" next to the row
    "10" and the ceiling 4, the filter does not keep "x" and drop "10";
    it fails (its handler names an unbound variable). *)
Lemma max_row_filter_mixed_rows :
  max_row_filter [avail "x" "1"; avail "10" "1"] (Some 4) = Err NameError
  /\ max_row_filter [avail "x" "1"; avail "10" "1"] (Some 4)
     <> Ok (spec_ceiling_filter [avail "x" "1"; avail "10" "1"] 4).
Proof. split; [vm_compute; reflexivity | vm_compute; discriminate]. Qed.

(** ** The per-row sort *)

(** C4: a row holding the seat numbers "1" and "A" is not sorted with "A"
    last: [list.sort] compares an [int] key with a [str] key and raises
    [TypeError], which escapes [find_adjacent_seats]. *)
Theorem sort_row_mixed_fails :
  sort_row [avail "1" "1"; avail "1" "A"] = Err TypeError
  /\ find_adjacent_seats [avail "1" "1"; avail "1" "A"] 1 None = Err TypeError.
Proof. split; vm_compute; reflexivity. Qed.

(** ** The store *)

(** C8: when the database path is a directory, [open] raises
    [IsADirectoryError]; the handler logs it, finds that the path exists
    and calls [os.remove], which raises [IsADirectoryError] again, and this
    second exception escapes [load_db]. *)
Theorem load_db_directory_raises :
  fst (load_db tval ideal_loads (mkState _ [] (Directory _) [])) = Err IsADirectoryError.
Proof. vm_compute; reflexivity. Qed.

(** ** The parser: attribute order *)

(** C5 fails as stated: the pattern fixes the order of the attributes, and
    one element carrying the same three attributes in the order data-row,
    data-chair, class is not recovered at all. *)
Lemma parse_reordered_attributes :
  parse_seats_from_html (anchor_reordered "seat" "2" "1") = []
  /\ parse_seats_from_html (anchor_reordered "seat" "2" "1") <> [avail "1" "2"].
Proof. split; [vm_compute; reflexivity | vm_compute; discriminate]. Qed.

(** ** The monitoring loop *)

(** C6 fails as stated: the first tick fetches a row with the seat numbers
    "1" and "A"; grouping raises [TypeError], which ends the loop although
    the subscription is still in the store and nothing cancelled it; the
    second tick, which would have reported seats 1-2, never runs. *)
Lemma monitor_show_error_ends_loop :
  let r := monitor_show tval ideal_dumps "42" 2 7 "7_42"
             [quiet_tick (HttpOk (anchor "seat" "1" "1" "" ++ anchor "seat" "A" "1" ""));
              quiet_tick (HttpOk (anchor "seat" "1" "1" "" ++ anchor "seat" "2" "1" ""))]
             (state_7_42 []) in
  fst r = Ok (Crashed TypeError)
  /\ loop_cond tval "7_42" 7 (snd r) = true
  /\ trace tval (snd r) = [EStarted; ELoopError TypeError].
Proof. vm_compute; auto. Qed.

(** C7 fails as stated: on a tick whose fetch yields no seat, the stored
    groups stay the previous ones (not the grouping of the empty list,
    which is empty) and [save_db] is not called. *)
Lemma tick_empty_fetch_keeps_groups :
  let g := mkGroup "1" "1" "2" 2 in
  tick_body tval ideal_dumps "42" 2 7 "7_42" (quiet_tick (HttpOk "")) (state_7_42 [g])
    = (Ok tt, state_7_42 [g])
  /\ find_adjacent_seats [] 2 None = Ok []
  /\ ~ In ESave (trace tval (state_7_42 [g])).
Proof. vm_compute; split; [reflexivity | split; [reflexivity | intros []]]. Qed.

(** ** The store round trip *)

Lemma strip_groups (gs : list Group) :
  (fix go l := match l with
               | [] => []
               | x :: l' => strip_none x :: go l'
               end) (map group_to_toml gs) = map group_to_toml gs.
Proof. induction gs as [|g gs IH]; simpl; [reflexivity | rewrite IH; reflexivity]. Qed.

Lemma none_free_groups (gs : list Group) :
  (fix go l := match l with
               | [] => true
               | x :: l' => none_free x && go l'
               end) (map group_to_toml gs) = true.
Proof. induction gs as [|g gs IH]; simpl; [reflexivity | exact IH]. Qed.

Lemma strip_show (sh : MonitoredShow) : strip_none (show_to_toml sh) = stripped_show sh.
Proof.
  destruct sh as [c t m a gs [mr|]]; unfold show_to_toml, stripped_show; simpl;
    rewrite strip_groups; reflexivity.
Qed.

Lemma strip_db (shows : list (string * MonitoredShow)) :
  strip_none (db_to_toml shows)
  = TTable [("monitored_shows"%string, TTable (map (fun '(k, sh) => (k, stripped_show sh)) shows))].
Proof.
  unfold db_to_toml; simpl.
  apply (f_equal (fun l => TTable [("monitored_shows"%string, TTable l)])).
  induction shows as [|[k sh] shows IH]; [reflexivity|].
  simpl; rewrite IH; f_equal; f_equal.
  destruct sh as [c t m a gs [mr|]]; simpl; rewrite strip_groups; reflexivity.
Qed.

Lemma none_free_stripped_db (shows : list (string * MonitoredShow)) :
  none_free (strip_none (db_to_toml shows)) = true.
Proof.
  rewrite strip_db; simpl; rewrite andb_true_r.
  induction shows as [|[k sh] shows IH]; [reflexivity|].
  simpl; rewrite IH, andb_true_r.
  destruct sh as [c t m a gs [mr|]]; simpl; rewrite none_free_groups; reflexivity.
Qed.

Lemma groups_of_toml (gs : list Group) :
  map_result group_of_toml (map group_to_toml gs) = Ok gs.
Proof.
  induction gs as [|[r s e c] gs IH]; simpl; [reflexivity|].
  rewrite IH; reflexivity.
Qed.

Lemma show_of_stripped (sh : MonitoredShow) : show_of_toml (stripped_show sh) = Ok sh.
Proof.
  destruct sh as [c t m a gs [mr|]]; unfold show_of_toml, stripped_show; simpl;
    rewrite groups_of_toml; reflexivity.
Qed.

Lemma dict_set_fresh {A} (k : string) (v : A) (d : list (string * A)) :
  ~ In k (map fst d) -> dict_set k v d = d ++ [(k, v)].
Proof.
  induction d as [|[k' v'] d IH]; intros Hk; simpl; [reflexivity|].
  destruct (String.eqb_spec k k') as [->|Hne].
  - exfalso; apply Hk; left; reflexivity.
  - rewrite IH; [reflexivity | intros H; apply Hk; right; exact H].
Qed.

Lemma load_entries (shows acc : list (string * MonitoredShow)) :
  NoDup (map fst (acc ++ shows)) ->
  fold_left (fun acc '(key, value) =>
               shows <-? acc ;; sh <-? show_of_toml value ;; Ok (dict_set key sh shows))
            (map (fun '(k, sh) => (k, stripped_show sh)) shows) (Ok acc)
  = Ok (acc ++ shows).
Proof.
  revert acc; induction shows as [|[k sh] shows IH]; intros acc Hnd; simpl.
  - rewrite app_nil_r; reflexivity.
  - rewrite show_of_stripped; simpl.
    rewrite dict_set_fresh.
    + rewrite IH; [rewrite <- app_assoc; reflexivity|].
      rewrite <- app_assoc; exact Hnd.
    + rewrite map_app in Hnd; simpl in Hnd.
      apply NoDup_remove_2 in Hnd; intros H; apply Hnd, in_or_app; left; exact H.
Qed.

Lemma save_db_spec text dumps (st : BotState text) :
  exists post,
    save_db text dumps st
      = (Ok tt, mkState text (monitored_shows text st)
                  (match db_file text st with
                   | NoFile _ | File _ _ => File text (dumps (strip_none (db_to_toml (monitored_shows text st))))
                   | n => n
                   end)
                  (trace text st ++ ESave :: post))
    /\ (post = [] \/ exists e, post = [ESaveFailed e]).
Proof.
  destruct st as [sh fs tr]; destruct fs; simpl.
  - exists []; split; [|left; reflexivity]; unfold save_db, bind, emit, modify; simpl; reflexivity.
  - exists []; split; [|left; reflexivity]; unfold save_db, bind, emit, modify; simpl; reflexivity.
  - exists [ESaveFailed PermissionError]; split; [|right; eexists; reflexivity].
    unfold save_db, bind, emit, modify; simpl; rewrite <- app_assoc; reflexivity.
  - exists [ESaveFailed IsADirectoryError]; split; [|right; eexists; reflexivity].
    unfold save_db, bind, emit, modify; simpl; rewrite <- app_assoc; reflexivity.
Qed.

(** C9: if the [toml] codec decodes what it encodes (for the documents
    [toml.dump] writes, which hold no [None]), then saving a mapping with
    distinct keys to a writable path and loading it back gives the same
    mapping, every field included, also for an absent max_row. *)
Theorem load_save_roundtrip (text : Type) (dumps : tval -> text) (loads : text -> option tval)
  (Hcodec : forall d, none_free d = true -> loads (dumps d) = Some d)
  (st : BotState text)
  (Hwritable : db_file text st = NoFile text \/ exists t, db_file text st = File text t)
  (Hkeys : NoDup (map fst (monitored_shows text st))) :
  fst (load_db text loads (snd (save_db text dumps st))) = Ok (monitored_shows text st).
Proof.
  destruct (save_db_spec text dumps st) as [post [Hsave _]].
  rewrite Hsave; unfold snd.
  destruct Hwritable as [Hf | [t Hf]]; rewrite Hf; unfold load_db, db_file;
    rewrite Hcodec by apply none_free_stripped_db;
    rewrite strip_db; unfold shows_of_toml; simpl;
    rewrite (load_entries (monitored_shows text st) []) by exact Hkeys;
    reflexivity.
Qed.

Lemma load_save_roundtrip_witness :
  (forall d, none_free d = true -> ideal_loads (ideal_dumps d) = Some d)
  /\ (db_file tval (state_7_42 [mkGroup "1" "1" "2" 2]) = NoFile tval
      \/ exists t, db_file tval (state_7_42 [mkGroup "1" "1" "2" 2]) = File tval t)
  /\ NoDup (map fst (monitored_shows tval (state_7_42 [mkGroup "1" "1" "2" 2])))
  /\ fst (load_db tval ideal_loads (snd (save_db tval ideal_dumps (state_7_42 [mkGroup "1" "1" "2" 2]))))
     = Ok (monitored_shows tval (state_7_42 [mkGroup "1" "1" "2" 2])).
Proof.
  assert (Hc : forall d, none_free d = true -> ideal_loads (ideal_dumps d) = Some d)
    by (intros d _; reflexivity).
  assert (Hw : db_file tval (state_7_42 [mkGroup "1" "1" "2" 2]) = NoFile tval
      \/ exists t, db_file tval (state_7_42 [mkGroup "1" "1" "2" 2]) = File tval t)
    by (left; reflexivity).
  assert (Hk : NoDup (map fst (monitored_shows tval (state_7_42 [mkGroup "1" "1" "2" 2]))))
    by (simpl; constructor; [intros [] | constructor]).
  split; [exact Hc|]; split; [exact Hw|]; split; [exact Hk|].
  exact (load_save_roundtrip tval ideal_dumps ideal_loads Hc _ Hw Hk).
Defined.

(** ** One monitoring tick *)

Lemma dict_get_set {A} (k : string) (v : A) (d : list (string * A)) :
  dict_get k (dict_set k v d) = Some v.
Proof.
  induction d as [|[k' v'] d IH]; simpl.
  - rewrite String.eqb_refl; reflexivity.
  - destruct (String.eqb_spec k k') as [->|Hne]; simpl.
    + rewrite String.eqb_refl; reflexivity.
    + apply String.eqb_neq in Hne; rewrite Hne; exact IH.
Qed.

Lemma fetch_state text (env : tick_env text) (st : BotState text) :
  fetch_and_parse_chairmap text env st
  = (fst (fetch_and_parse_chairmap text env st), during_fetch text env st).
Proof. unfold fetch_and_parse_chairmap, bind, modify; destruct (http text env); reflexivity. Qed.

(** C7 (as the code is designed): a tick that completes and whose fetch
    returned seats stores the full grouping computed on that tick (with
    the max_row read from the store after the fetch) as the subscription's
    last groups and ends with a call of [save_db]; when the diff is empty
    nothing is sent.  A tick whose fetch returned no seat changes nothing
    and does not save. *)
Theorem tick_body_stores_grouping text dumps theater min chat key
  (env : tick_env text) (st st' : BotState text) (seats : list Seat)
  (Hfetch : fst (fetch_and_parse_chairmap text env st) = Ok seats)
  (Htick : tick_body text dumps theater min chat key env st = (Ok tt, st')) :
  (seats = [] -> st' = during_fetch text env st)
  /\ (seats <> [] ->
      exists sh0 gs sh,
        dict_get key (monitored_shows text (during_fetch text env st)) = Some sh0
        /\ find_adjacent_seats seats min (max_row sh0) = Ok gs
        /\ dict_get key (monitored_shows text st') = Some sh
        /\ last_available_groups sh = gs
        /\ (exists pre post, trace text st' = pre ++ ESave :: post /\ save_tail post)
        /\ (_compare_groups (last_available_groups sh0) gs = [] ->
            exists post, trace text st' = trace text (during_fetch text env st) ++ ESave :: post
                         /\ save_tail post)).
Proof.
  unfold tick_body, bind at 1 in Htick.
  rewrite fetch_state, Hfetch in Htick.
  remember (during_fetch text env st) as st1 eqn:Hst1.
  destruct seats as [|s0 seats'].
  - split; [intros _; unfold ret in Htick; congruence | intros H; congruence].
  - split; [intros H; discriminate|intros _].
    unfold bind at 1, get_show at 1 in Htick.
    destruct (dict_get key (monitored_shows text st1)) as [sh0|] eqn:Hget; [|discriminate].
    unfold bind at 1, lift at 1 in Htick.
    destruct (find_adjacent_seats (s0 :: seats') min (max_row sh0)) as [gs|e] eqn:Hfind;
      [|discriminate].
    unfold bind at 1, get_show at 1 in Htick; rewrite Hget in Htick.
    destruct (_compare_groups (last_available_groups sh0) gs) as [|n0 ns] eqn:Hcmp.
    + unfold bind at 1, ret at 1, bind at 1, get_show at 1 in Htick; rewrite Hget in Htick.
      unfold bind at 1, put_show, modify in Htick.
      destruct (save_db_spec text dumps
                  (mkState text (dict_set key (set_last_groups sh0 gs) (monitored_shows text st1))
                           (db_file text st1) (trace text st1))) as [post [Hs Hpost]].
      rewrite Hs in Htick; apply (f_equal snd) in Htick; simpl in Htick; subst st'; simpl.
      exists sh0, gs, (set_last_groups sh0 gs).
      split; [reflexivity|]; split; [exact Hfind|].
      split; [apply dict_get_set|]; split; [reflexivity|].
      split; [exists (trace text st1), post; split; [reflexivity | exact Hpost]|].
      intros _; exists post; split; [reflexivity | exact Hpost].
    + unfold bind at 1 in Htick.
      destruct (send_message text env chat theater (n0 :: ns) (List.length gs) st1)
        as [[u|e] st2] eqn:Hsend; [|discriminate].
      unfold bind at 1, get_show at 1 in Htick.
      destruct (dict_get key (monitored_shows text st2)) as [sh2|] eqn:Hget2; [|discriminate].
      unfold bind at 1, put_show, modify in Htick.
      destruct (save_db_spec text dumps
                  (mkState text (dict_set key (set_last_groups sh2 gs) (monitored_shows text st2))
                           (db_file text st2) (trace text st2))) as [post [Hs Hpost]].
      rewrite Hs in Htick; apply (f_equal snd) in Htick; simpl in Htick; subst st'; simpl.
      exists sh0, gs, (set_last_groups sh2 gs).
      split; [reflexivity|]; split; [exact Hfind|].
      split; [apply dict_get_set|]; split; [reflexivity|].
      split; [exists (trace text st2), post; split; [reflexivity | exact Hpost]|].
      intros H; rewrite Hcmp in H; discriminate.
Qed.

Lemma tick_body_stores_grouping_witness :
  let env := quiet_tick (HttpOk (anchor "seat" "1" "1" "" ++ anchor "seat" "2" "1" "")) in
  let st := state_7_42 [] in
  let st' := snd (tick_body tval ideal_dumps "42" 2 7 "7_42" env st) in
  let seats := [avail "1" "1"; avail "1" "2"] in
  fst (fetch_and_parse_chairmap tval env st) = Ok seats
  /\ tick_body tval ideal_dumps "42" 2 7 "7_42" env st = (Ok tt, st')
  /\ ((seats = [] -> st' = during_fetch tval env st)
      /\ (seats <> [] ->
          exists sh0 gs sh,
            dict_get "7_42" (monitored_shows tval (during_fetch tval env st)) = Some sh0
            /\ find_adjacent_seats seats 2 (max_row sh0) = Ok gs
            /\ dict_get "7_42" (monitored_shows tval st') = Some sh
            /\ last_available_groups sh = gs
            /\ (exists pre post, trace tval st' = pre ++ ESave :: post /\ save_tail post)
            /\ (_compare_groups (last_available_groups sh0) gs = [] ->
                exists post, trace tval st' = trace tval (during_fetch tval env st) ++ ESave :: post
                             /\ save_tail post))).
Proof.
  intros env st st' seats.
  assert (H1 : fst (fetch_and_parse_chairmap tval env st) = Ok seats) by (vm_compute; reflexivity).
  assert (H2 : tick_body tval ideal_dumps "42" 2 7 "7_42" env st = (Ok tt, st'))
    by (vm_compute; reflexivity).
  split; [exact H1|]; split; [exact H2|].
  exact (tick_body_stores_grouping tval ideal_dumps "42" 2 7 "7_42" env st st' seats H1 H2).
Defined.

(** ** How the monitoring loop ends *)

Section Loop.
Variables (text : Type) (dumps : tval -> text).
Variables (theater : string) (min chat : Z) (key : string).

Lemma monitor_loop_ok (envs : list (tick_env text)) (st st' : BotState text) (o : outcome) :
  monitor_loop text dumps theater min chat key envs st = (Ok o, st') ->
  (o = Exited /\ loop_cond text key chat st' = false)
  \/ (o = StillRunning /\ loop_cond text key chat st' = true).
Proof.
  revert st; induction envs as [|env envs IH]; intros st H; simpl in H;
    unfold bind at 1, gets in H.
  - destruct (loop_cond text key chat st) eqn:Hc; unfold ret in H;
      injection H as <- <-; [right | left]; auto.
  - destruct (loop_cond text key chat st) eqn:Hc.
    + unfold bind at 1 in H.
      destruct (tick_body text dumps theater min chat key env st) as [[u|e] st1];
        [|discriminate].
      unfold bind at 1 in H.
      destruct (sleep text env st1) as [[v|e] st2]; [|discriminate].
      exact (IH st2 H).
    + unfold ret in H; injection H as <- <-; left; auto.
Qed.

Lemma monitor_loop_tick_error (env : tick_env text) (envs : list (tick_env text))
  (st st' : BotState text) (e : exn) :
  loop_cond text key chat st = true ->
  tick_body text dumps theater min chat key env st = (Err e, st') ->
  monitor_loop text dumps theater min chat key (env :: envs) st = (Err e, st').
Proof.
  intros Hc Ht; simpl; unfold bind at 1, gets; rewrite Hc.
  unfold bind at 1; rewrite Ht; reflexivity.
Qed.

End Loop.

(** How [monitor_show] ends in general: it never propagates an
    exception.  It ends with the key gone from the store (or held by
    another chat), with the ticks it was given all run and the key still
    present, with a logged cancellation, or with a logged exception other
    than cancellation; an exception raised by a tick body ends the loop
    right there, whatever ticks would have followed. *)
Theorem monitor_show_outcome text dumps theater min chat key
  (envs : list (tick_env text)) (st : BotState text) :
  (exists o st',
     monitor_show text dumps theater min chat key envs st = (Ok o, st')
     /\ ((o = Exited /\ loop_cond text key chat st' = false)
         \/ (o = StillRunning /\ loop_cond text key chat st' = true)
         \/ (o = Cancelled /\ exists pre, trace text st' = pre ++ [ECancelled])
         \/ (exists e, o = Crashed e /\ e <> CancelledError
                       /\ exists pre, trace text st' = pre ++ [ELoopError e])))
  /\ (forall env envs' st1 st2 e,
        loop_cond text key chat st1 = true ->
        tick_body text dumps theater min chat key env st1 = (Err e, st2) ->
        monitor_loop text dumps theater min chat key (env :: envs') st1 = (Err e, st2)).
Proof.
  split; [|intros; apply monitor_loop_tick_error; assumption].
  unfold monitor_show, bind at 1, emit at 1, modify at 1, catch.
  set (st0 := mkState text (monitored_shows text st) (db_file text st)
                (List.app (trace text st) [EStarted])).
  destruct (monitor_loop text dumps theater min chat key envs st0) as [[o|e] st1] eqn:Hl.
  - exists o, st1; split; [reflexivity|].
    destruct (monitor_loop_ok text dumps theater min chat key envs st0 st1 o Hl)
      as [H|H]; [left | right; left]; exact H.
  - destruct e;
      try (eexists; eexists; split; [reflexivity|];
           right; right; right; eexists; split; [reflexivity|];
           split; [discriminate | eexists; reflexivity]).
    eexists; eexists; split; [reflexivity|].
    right; right; left; split; [reflexivity | eexists; reflexivity].
Qed.

(** ** The parser on canonical markup *)

Local Open Scope string_scope.

Lemma str_app_assoc (a b c : string) : (a ++ b) ++ c = a ++ (b ++ c).
Proof. induction a as [|x a IH]; simpl; [reflexivity | rewrite IH; reflexivity]. Qed.

Lemma str_app_nil_r (a : string) : a ++ "" = a.
Proof. induction a as [|x a IH]; simpl; [reflexivity | rewrite IH; reflexivity]. Qed.

Lemma strip_prefix_app (l v : string) : strip_prefix l (l ++ v) = Some v.
Proof.
  induction l as [|a l IH]; simpl; [reflexivity|].
  rewrite Ascii.eqb_refl; exact IH.
Qed.

Lemma rx_lit (l : string) (ps : list rx) (v : string) :
  rx_match (RLit l :: ps) (l ++ v) = rx_match ps v.
Proof. simpl; rewrite strip_prefix_app; reflexivity. Qed.

Lemma lazy_any_unfold {R} (k : string -> option R) (s : string) :
  lazy_any k s = match k s with
                 | Some r => Some r
                 | None => match s with
                           | EmptyString => None
                           | String _ t => lazy_any k t
                           end
                 end.
Proof. destruct s; reflexivity. Qed.

Lemma lazy_cap_unfold {R} (k : string -> option (list string * R)) (acc s : string) :
  lazy_cap k acc s = match k s with
                     | Some (caps, r) => Some (acc :: caps, r)
                     | None => match s with
                               | EmptyString => None
                               | String c t => lazy_cap k (acc ++ String c EmptyString) t
                               end
                     end.
Proof. destruct s; reflexivity. Qed.

Lemma rx_lit_mismatch (c a : ascii) (l' : string) (ps : list rx) (t : string) :
  Ascii.eqb c a = false -> rx_match (RLit (String c l') :: ps) (String a t) = None.
Proof. intros H; simpl; rewrite H; reflexivity. Qed.

Lemma str_app_nil_l (a : string) : "" ++ a = a.
Proof. reflexivity. Qed.

Lemma str_app_cons (x : ascii) (a b : string) : String x a ++ b = String x (a ++ b).
Proof. reflexivity. Qed.

(** [.*?] followed by a literal skips to the first occurrence of the
    literal's first character. *)
Lemma rx_lazy_lit (c : ascii) (l' : string) (ps : list rx) (u v : string) r :
  char_free c u = true -> rx_match ps v = Some r ->
  rx_match (RLazy :: RLit (String c l') :: ps) (u ++ String c l' ++ v) = Some r.
Proof.
  intros Hu Hv; change (rx_match (RLazy :: ?k) ?s) with (lazy_any (rx_match k) s).
  induction u as [|a u IH]; rewrite lazy_any_unfold.
  - rewrite str_app_nil_l, rx_lit, Hv; reflexivity.
  - simpl in Hu; apply andb_true_iff in Hu; destruct Hu as [Ha Hu].
    apply negb_true_iff in Ha.
    rewrite str_app_cons, rx_lit_mismatch by exact Ha.
    cbv iota beta; exact (IH Hu).
Qed.

Lemma rx_lazy_cap (c : ascii) (l' : string) (ps : list rx) (u v : string) caps rest :
  char_free c u = true -> rx_match ps v = Some (caps, rest) ->
  rx_match (RLazyCap :: RLit (String c l') :: ps) (u ++ String c l' ++ v)
  = Some (u :: caps, rest).
Proof.
  intros Hu Hv; change (rx_match (RLazyCap :: ?k) ?s) with (lazy_cap (rx_match k) "" s).
  rewrite <- (str_app_nil_l u) at 2.
  generalize "" as acc.
  induction u as [|a u IH]; intros acc; rewrite lazy_cap_unfold.
  - rewrite str_app_nil_l, rx_lit, Hv, str_app_nil_r; reflexivity.
  - simpl in Hu; apply andb_true_iff in Hu; destruct Hu as [Ha Hu].
    apply negb_true_iff in Ha.
    rewrite str_app_cons, rx_lit_mismatch by exact Ha.
    cbv iota beta; rewrite (IH Hu), str_app_assoc; reflexivity.
Qed.

Lemma rx_lit_then (l : string) (ps : list rx) (v : string) r :
  rx_match ps v = r -> rx_match (RLit l :: ps) (l ++ v) = r.
Proof. intros H; rewrite rx_lit; exact H. Qed.

Lemma rx_anchor (cls chair_num row_num body rest : string) :
  char_free dq_char cls = true -> char_free dq_char chair_num = true ->
  char_free dq_char row_num = true -> char_free lt_char body = true ->
  rx_match seat_pattern (anchor_then cls chair_num row_num body rest)
  = Some ([cls; chair_num; row_num], rest).
Proof.
  intros Hc Hch Hr Hb; unfold seat_pattern, anchor_then.
  apply (rx_lit_then "<a").
  apply (rx_lazy_lit "c" ("lass=" ++ dq) _ " "); [reflexivity|].
  apply (rx_lazy_cap dq_char "" _ cls); [exact Hc|].
  apply (rx_lazy_lit "d" ("ata-chair=" ++ dq) _ " "); [reflexivity|].
  apply (rx_lazy_cap dq_char "" _ chair_num); [exact Hch|].
  apply (rx_lazy_lit "d" ("ata-row=" ++ dq) _ " "); [reflexivity|].
  apply (rx_lazy_cap dq_char "" _ row_num); [exact Hr|].
  apply (rx_lazy_lit "<" "/a>" _ (">" ++ body)); [simpl; exact Hb|].
  reflexivity.
Qed.

Lemma anchor_app (cls chair_num row_num body rest : string) :
  anchor cls chair_num row_num body ++ rest = anchor_then cls chair_num row_num body rest.
Proof. unfold anchor, anchor_then; repeat rewrite str_app_assoc; reflexivity. Qed.

Lemma str_length_app (a b : string) : String.length (a ++ b) = (String.length a + String.length b)%nat.
Proof. induction a as [|x a IH]; simpl; [reflexivity | rewrite IH; reflexivity]. Qed.

Lemma findall_fuel_S (f : nat) (ps : list rx) (s : string) :
  findall_fuel (S f) ps s
  = match rx_match ps s with
    | Some (caps, rest) => caps :: findall_fuel f ps rest
    | None => match s with
              | EmptyString => []
              | String _ t => findall_fuel f ps t
              end
    end.
Proof. reflexivity. Qed.

Lemma findall_gap (gap s : string) (fuel : nat) :
  char_free lt_char gap = true ->
  findall_fuel (String.length gap + fuel) seat_pattern (gap ++ s)
  = findall_fuel fuel seat_pattern s.
Proof.
  induction gap as [|a gap IH]; intros Hg; [reflexivity|].
  simpl in Hg; apply andb_true_iff in Hg; destruct Hg as [Ha Hg].
  apply negb_true_iff in Ha.
  simpl String.length; rewrite str_app_cons; cbn [Nat.add findall_fuel].
  unfold seat_pattern; rewrite rx_lit_mismatch by exact Ha.
  exact (IH Hg).
Qed.

Lemma findall_doc (els : list (string * string * string * string * string)) (fuel : nat) :
  forallb canonical_el els = true ->
  (String.length (synthetic_doc els) < fuel)%nat ->
  findall_fuel fuel seat_pattern (synthetic_doc els)
  = map (fun '(_, cls, chair_num, row_num, _) => [cls; chair_num; row_num]) els.
Proof.
  revert fuel; induction els as [|[[[[gap cls] ch] r] body] els IH]; intros fuel Hc Hlen.
  - destruct fuel as [|f]; [simpl in Hlen; lia | reflexivity].
  - simpl in Hc; apply andb_true_iff in Hc; destruct Hc as [Hel Hc].
    repeat (apply andb_true_iff in Hel; destruct Hel as [Hel ?]).
    change (synthetic_doc ((gap, cls, ch, r, body) :: els))
      with (gap ++ anchor cls ch r body ++ synthetic_doc els) in *.
    rewrite !str_length_app in Hlen.
    assert (Ha : (0 < String.length (anchor cls ch r body))%nat) by (simpl; lia).
    replace fuel with (String.length gap + S (fuel - String.length gap - 1))%nat by lia.
    rewrite findall_gap by assumption.
    rewrite findall_fuel_S, anchor_app, rx_anchor by assumption.
    simpl; f_equal; apply IH; [exact Hc | lia].
Qed.

(** C5 (amended).  For a document made of anchor elements whose attributes
    come in the order the pattern expects (class, data-chair, data-row),
    with no double quote inside the attribute values and no [<] between the
    elements or in their bodies (which may span lines),
    [parse_seats_from_html] returns one seat per element in document order,
    with the element's row and chair and status "taken" exactly when the
    class contains "taken". *)
Theorem parse_canonical_doc (els : list (string * string * string * string * string)) :
  forallb canonical_el els = true ->
  parse_seats_from_html (synthetic_doc els) = map expected_seat els.
Proof.
  intros Hc; unfold parse_seats_from_html, findall.
  rewrite findall_doc by (assumption || lia).
  clear Hc; induction els as [|[[[[gap cls] ch] r] body] els IH]; [reflexivity|].
  simpl; rewrite IH; reflexivity.
Qed.

Lemma parse_canonical_doc_witness :
  forallb canonical_el
    [("", "seat", "3", "1", ""); ("  ", "seat taken", "4", "1", "x")] = true
  /\ parse_seats_from_html
       (synthetic_doc [("", "seat", "3", "1", ""); ("  ", "seat taken", "4", "1", "x")])
     = [mkSeat "1" "3" "available"; mkSeat "1" "4" "taken"].
Proof.
  split; [vm_compute; reflexivity|].
  exact (parse_canonical_doc
           [("", "seat", "3", "1", ""); ("  ", "seat taken", "4", "1", "x")]
           eq_refl).
Defined.

Local Close Scope string_scope.

(** ** Consistency of the groups *)

Lemma rev_last_hd (l : list Seat) (d : Seat) :
  l <> [] -> exists s rest, rev l = s :: rest /\ List.last l d = s.
Proof.
  induction l as [|x l _] using rev_ind; intros H; [congruence|].
  rewrite rev_unit, last_last; eauto.
Qed.

Lemma chairs_from_snoc (a : Z) (l : list Seat) (x : Seat) :
  chairs_from a (l ++ [x])
  = chairs_from a l
    && match py_int (chair x) with
       | Some z => Z.eqb z (a + Z.of_nat (List.length l))
       | None => false
       end.
Proof.
  revert a; induction l as [|y l IH]; intros a; simpl.
  - rewrite Z.add_0_r, andb_true_r; reflexivity.
  - rewrite IH, andb_assoc.
    replace (a + 1 + Z.of_nat (List.length l)) with (a + Z.pos (Pos.of_succ_nat (List.length l)))
      by lia.
    reflexivity.
Qed.

Lemma desc_chairs (b : Z) (l : list Seat) :
  desc_from b l = true ->
  chairs_from (b - Z.of_nat (List.length l) + 1) (rev l) = true.
Proof.
  revert b; induction l as [|h t IH]; intros b H; [reflexivity|].
  simpl in H; apply andb_true_iff in H; destruct H as [H1 H2].
  simpl rev; rewrite chairs_from_snoc, length_rev.
  replace (b - Z.of_nat (List.length (h :: t)) + 1)
    with (b - 1 - Z.of_nat (List.length t) + 1) by (simpl List.length; lia).
  rewrite (IH _ H2); simpl.
  destruct (py_int (chair h)) as [z|]; [|discriminate].
  apply Z.eqb_eq in H1; apply Z.eqb_eq; lia.
Qed.

Lemma desc_head (b : Z) (h : Seat) (t : list Seat) :
  desc_from b (h :: t) = true -> py_int (chair h) = Some b.
Proof.
  simpl; intros H; apply andb_true_iff in H; destruct H as [H _].
  destruct (py_int (chair h)); [apply Z.eqb_eq in H; congruence | discriminate].
Qed.

Lemma chairs_head (a : Z) (h : Seat) (t : list Seat) :
  chairs_from a (h :: t) = true -> py_int (chair h) = Some a.
Proof.
  simpl; intros H; apply andb_true_iff in H; destruct H as [H _].
  destruct (py_int (chair h)); [apply Z.eqb_eq in H; congruence | discriminate].
Qed.

Section Runs.

Variables (seats : list Seat) (r : string) (min_seats : Z).

Lemma close_sequence_ok (h : Seat) (t : list Seat) (g : Group) :
  (forall s, In s (h :: t) -> In s seats /\ row s = r) ->
  ((2 <= List.length (h :: t))%nat -> exists b, desc_from b (h :: t) = true) ->
  In g (close_sequence r min_seats (h :: t)) ->
  group_row g = r /\ exists run, group_has_run seats g run.
Proof.
  intros HQ Hd Hg; unfold close_sequence in Hg.
  destruct (Z.of_nat (List.length (h :: t)) >=? min_seats); [|contradiction].
  destruct Hg as [<-|[]]; split; [reflexivity|].
  destruct (rev_last_hd (h :: t) h) as [s0 [rest [Hrev Hlast]]]; [discriminate|].
  exists (s0 :: rest); unfold group_has_run; cbn [group_row start_chair end_chair count].
  rewrite <- Hrev, length_rev.
  assert (Hend : List.last (rev (h :: t)) s0 = h)
    by (change (rev (h :: t)) with (rev t ++ [h]); apply last_last).
  split; [intros s Hs; apply HQ, in_rev; exact Hs|].
  split; [rewrite Hlast; reflexivity|].
  split; [rewrite Hend; reflexivity|].
  split; [reflexivity|].
  - intros H2; destruct Hd as [b Hb]; [lia|].
    exists (b - Z.of_nat (List.length (h :: t)) + 1); split; [|split].
    + apply desc_chairs; exact Hb.
    + rewrite Hlast; apply chairs_head with rest; rewrite <- Hrev; apply desc_chairs; exact Hb.
    + rewrite (desc_head _ _ _ Hb); f_equal; lia.
Qed.

Lemma scan_row_ok (rest seq_rev : list Seat) (g : Group) :
  seq_rev <> [] ->
  (forall s, In s (seq_rev ++ rest) -> In s seats /\ row s = r) ->
  ((2 <= List.length seq_rev)%nat -> exists b, desc_from b seq_rev = true) ->
  In g (scan_row r min_seats seq_rev rest) ->
  group_row g = r /\ exists run, group_has_run seats g run.
Proof.
  revert seq_rev; induction rest as [|c rest IH]; intros seq_rev Hne HQ Hd Hg;
    (destruct seq_rev as [|h t]; [congruence|]).
  - rewrite app_nil_r in HQ; exact (close_sequence_ok h t g HQ Hd Hg).
  - simpl in Hg; destruct (is_consecutive h c) eqn:E.
    + apply (IH (c :: h :: t)); [discriminate | | | exact Hg].
      * intros s Hs; apply HQ; rewrite in_app_iff in Hs |- *; simpl in Hs |- *; tauto.
      * intros _; unfold is_consecutive in E.
        destruct (py_int (chair c)) as [cz|] eqn:Ec; [|discriminate].
        destruct (py_int (chair h)) as [p|] eqn:Eh; [|discriminate].
        apply Z.eqb_eq in E; exists cz.
        change (desc_from cz (c :: h :: t))
          with ((match py_int (chair c) with Some z => Z.eqb z cz | None => false end)
                && desc_from (cz - 1) (h :: t)).
        rewrite Ec, Z.eqb_refl; simpl andb.
        destruct (Nat.le_gt_cases 2 (List.length (h :: t))) as [Hl|Hl].
        -- destruct (Hd Hl) as [b Hb].
           rewrite (desc_head _ _ _ Hb) in Eh; injection Eh as <-.
           replace (cz - 1) with b by lia; exact Hb.
        -- destruct t; [|simpl in Hl; lia].
           simpl; rewrite Eh, andb_true_r; apply Z.eqb_eq; lia.
    + apply in_app_iff in Hg; destruct Hg as [Hg|Hg].
      * apply (close_sequence_ok h t g); [| exact Hd | exact Hg].
        intros s Hs; apply HQ; rewrite in_app_iff; left; exact Hs.
      * apply (IH [c]); [discriminate | | simpl; lia | exact Hg].
        intros s Hs; apply HQ; rewrite in_app_iff in Hs |- *; simpl in Hs |- *; tauto.
Qed.

Lemma row_groups_ok (row_seats : list Seat) (g : Group) :
  (forall s, In s row_seats -> In s seats /\ row s = r) ->
  In g (row_groups min_seats (r, row_seats)) ->
  exists run, group_has_run seats g run.
Proof.
  intros HQ Hg; unfold row_groups in Hg.
  destruct (Z.of_nat (List.length row_seats) <? min_seats); [contradiction|].
  destruct row_seats as [|first rest]; [contradiction|].
  apply (scan_row_ok rest [first]); [discriminate | exact HQ | simpl; lia | exact Hg].
Qed.

End Runs.

Lemma max_row_filter_incl (seats kept : list Seat) (mr : option Z) :
  max_row_filter seats mr = Ok kept -> forall s, In s kept -> In s seats.
Proof.
  unfold max_row_filter; destruct mr as [m|]; intros H s Hs.
  - destruct (forallb _ seats); [|discriminate].
    injection H as <-; apply filter_In in Hs; tauto.
  - injection H as <-; exact Hs.
Qed.

Lemma dict_append_seat_in (d : list (string * list Seat)) (x : Seat) r l :
  In (r, l) (dict_append_seat d x) ->
  In (r, l) d \/ (r = row x /\ (l = [x] \/ exists l0, In (r, l0) d /\ l = l0 ++ [x])).
Proof.
  induction d as [|[r' l'] d IH]; simpl; intros H.
  - destruct H as [H|[]]; injection H as <- <-; right; auto.
  - destruct (String.eqb r' (row x)) eqn:E.
    + apply String.eqb_eq in E; destruct H as [H|H].
      * injection H as <- <-; right; split; [congruence|]; right; eauto.
      * left; right; exact H.
    + destruct H as [H|H]; [left; left; exact H|].
      destruct (IH H) as [H'|[Hr [Hl|[l0 [Hin Hl]]]]]; [left; right; exact H'| |].
      * right; auto.
      * right; split; [exact Hr|]; right; exists l0; auto.
Qed.

Lemma group_by_row_in (kept : list Seat) r l :
  In (r, l) (group_by_row kept) -> forall s, In s l -> In s kept /\ row s = r.
Proof.
  unfold group_by_row.
  assert (Hgen : forall xs acc,
             (forall r l, In (r, l) acc -> forall s, In s l -> In s kept /\ row s = r) ->
             incl xs kept ->
             forall r l, In (r, l) (fold_left dict_append_seat xs acc) ->
                         forall s, In s l -> In s kept /\ row s = r).
  { induction xs as [|x xs IH]; intros acc Hacc Hincl; simpl; [exact Hacc|].
    apply IH; [|intros y Hy; apply Hincl; right; exact Hy].
    intros r' l' Hin s Hs.
    destruct (dict_append_seat_in acc x r' l' Hin) as [H|[Hr [Hl|[l0 [H0 Hl]]]]].
    - exact (Hacc _ _ H s Hs).
    - subst l'; destruct Hs as [<-|[]]; split; [apply Hincl; left; reflexivity | congruence].
    - subst l'; apply in_app_iff in Hs; destruct Hs as [Hs|[<-|[]]].
      + exact (Hacc _ _ H0 s Hs).
      + split; [apply Hincl; left; reflexivity | congruence]. }
  apply Hgen; [intros ? ? [] | intros y Hy; exact Hy].
Qed.

Lemma insert_by_perm {A} (le : A -> A -> bool) (x : A) (l : list A) :
  Permutation (x :: l) (insert_by le x l).
Proof.
  induction l as [|y l IH]; simpl; [reflexivity|].
  destruct (le x y); [reflexivity|].
  rewrite perm_swap; constructor; exact IH.
Qed.

Lemma isort_perm {A} (le : A -> A -> bool) (l : list A) : Permutation l (isort le l).
Proof.
  induction l as [|x l IH]; simpl; [reflexivity|].
  rewrite <- insert_by_perm; constructor; exact IH.
Qed.

Lemma sort_row_perm (l l' : list Seat) : sort_row l = Ok l' -> Permutation l l'.
Proof.
  unfold sort_row; intros H.
  destruct (forallb key_is_int l); [injection H as <-; apply isort_perm|].
  destruct (forallb _ l); [injection H as <-; apply isort_perm | discriminate].
Qed.

Lemma sort_rows_in (d d' : list (string * list Seat)) :
  sort_rows d = Ok d' ->
  forall r l', In (r, l') d' -> exists l, In (r, l) d /\ Permutation l l'.
Proof.
  revert d'; induction d as [|[r0 l0] d IH]; simpl; intros d' H r l' Hin.
  - injection H as <-; contradiction.
  - destruct (sort_row l0) as [l0'|e] eqn:E1; [|discriminate]; simpl in H.
    destruct (sort_rows d) as [d1|e] eqn:E2; [|discriminate]; simpl in H.
    injection H as <-; destruct Hin as [Hin|Hin].
    + injection Hin as <- <-; exists l0; split; [left; reflexivity | apply sort_row_perm, E1].
    + destruct (IH d1 eq_refl r l' Hin) as [l [Hl Hp]]; exists l; split; [right|]; assumption.
Qed.

(** C10.  Every group returned by [find_adjacent_seats] describes a run of
    input seats: the run is non-empty, all its seats are in the input and in
    the group's row, [start_chair] and [end_chair] are the chairs of its
    first and last seat, [count] is its length, and when [count >= 2] the
    chairs of the run parse as [a], [a + 1], ..., with
    [int(end_chair) = int(start_chair) + count - 1]. *)
Theorem find_adjacent_groups_consistent (seats : list Seat) (min_seats : Z)
  (max_row : option Z) (gs : list Group) :
  find_adjacent_seats seats min_seats max_row = Ok gs ->
  forall g, In g gs -> exists run, group_has_run seats g run.
Proof.
  unfold find_adjacent_seats; intros H g Hg.
  destruct (max_row_filter seats max_row) as [kept|e] eqn:E1; [|discriminate]; simpl in H.
  destruct (sort_rows (group_by_row kept)) as [sorted|e] eqn:E2; [|discriminate]; simpl in H.
  injection H as <-; apply in_flat_map in Hg; destruct Hg as [[r l'] [Hin Hg]].
  destruct (sort_rows_in _ _ E2 r l' Hin) as [l [Hl Hp]].
  apply (row_groups_ok seats r min_seats l' g); [|exact Hg].
  intros s Hs; apply (Permutation_in _ (Permutation_sym Hp)) in Hs.
  destruct (group_by_row_in kept r l Hl s Hs) as [Hk Hr].
  split; [exact (max_row_filter_incl _ _ _ E1 s Hk) | exact Hr].
Qed.

Lemma find_adjacent_groups_consistent_witness :
  find_adjacent_seats [avail "1" "3"; avail "1" "4"; avail "2" "9"] 2 None
  = Ok [mkGroup "1" "3" "4" 2]
  /\ exists run, group_has_run [avail "1" "3"; avail "1" "4"; avail "2" "9"]
                                (mkGroup "1" "3" "4" 2) run.
Proof.
  split; [vm_compute; reflexivity|].
  exact (find_adjacent_groups_consistent
           [avail "1" "3"; avail "1" "4"; avail "2" "9"] 2 None _ eq_refl
           (mkGroup "1" "3" "4" 2) (or_introl eq_refl)).
Defined.

(** ** Maximal and complete runs *)

Lemma digit_not_space (c : ascii) : is_digit c = true -> is_space c = false.
Proof.
  unfold is_digit, is_space; intros H; apply andb_true_iff in H; destruct H as [H1 H2].
  apply Nat.leb_le in H1.
  apply orb_false_iff; split; apply andb_false_iff; right; apply Nat.leb_gt; lia.
Qed.

Lemma rstrip_digits (s : string) : all_digits s = true -> rstrip s = s.
Proof.
  induction s as [|c t IH]; simpl; intros H; [reflexivity|].
  apply andb_true_iff in H; destruct H as [Hc Ht]; rewrite (IH Ht).
  destruct t; [rewrite (digit_not_space c Hc)|]; reflexivity.
Qed.

Lemma digits_tail_ok (t : string) (acc : Z) :
  all_digits t = true -> exists z, digits_tail t acc = Some z.
Proof.
  revert acc; induction t as [|d t IH]; simpl; intros acc H; [eauto|].
  apply andb_true_iff in H; destruct H as [Hd Ht]; rewrite Hd; apply IH, Ht.
Qed.

Lemma isdigit_py_int (s : string) : isdigit s = true -> exists z, py_int s = Some z.
Proof.
  destruct s as [|c t]; [discriminate|]; intros H; simpl in H.
  assert (Hc : is_digit c = true) by (apply andb_true_iff in H; tauto).
  assert (Ht : all_digits t = true) by (apply andb_true_iff in H; tauto).
  unfold py_int; cbv zeta.
  replace (lstrip (String c t)) with (String c t)
    by (simpl; rewrite (digit_not_space c Hc); reflexivity).
  rewrite rstrip_digits by exact H.
  destruct (Ascii.eqb c "-"%char) eqn:Em;
    [apply Ascii.eqb_eq in Em; subst c; discriminate|].
  destruct (Ascii.eqb c "+"%char) eqn:Ep;
    [apply Ascii.eqb_eq in Ep; subst c; discriminate|].
  simpl; rewrite Hc; apply digits_tail_ok, Ht.
Qed.

Lemma seat_value_parse (s : Seat) :
  isdigit (chair s) = true -> py_int (chair s) = Some (seat_value s).
Proof.
  intros H; destruct (isdigit_py_int _ H) as [z Hz]; unfold seat_value; rewrite Hz; reflexivity.
Qed.

Lemma max_row_filter_retained (seats : list Seat) (max_row : option Z) :
  (max_row = None \/ forall s, In s seats -> py_int (row s) <> None) ->
  max_row_filter seats max_row = Ok (retained_seats seats max_row).
Proof.
  intros [->|Hnum]; [reflexivity|].
  destruct max_row as [m|]; [|reflexivity].
  unfold max_row_filter, retained_seats, spec_ceiling_filter.
  assert (Hall : forallb (fun s => match py_int (row s) with
                                   | Some _ => true | None => false end) seats = true).
  { apply forallb_forall; intros s Hs; specialize (Hnum s Hs).
    destruct (py_int (row s)); [reflexivity | congruence]. }
  rewrite Hall; f_equal; apply filter_ext_in; intros s Hs.
  specialize (Hnum s Hs); destruct (py_int (row s)); [reflexivity | congruence].
Qed.

Lemma dict_append_keys (d : list (string * list Seat)) (x : Seat) :
  map fst (dict_append_seat d x)
  = if existsb (fun k => String.eqb k (row x)) (map fst d) then map fst d
    else map fst d ++ [row x].
Proof.
  induction d as [|[r l] d IH]; simpl; [reflexivity|].
  destruct (String.eqb r (row x)); simpl; [reflexivity|].
  rewrite IH; destruct (existsb _ (map fst d)); reflexivity.
Qed.

Lemma dict_append_in_nodup (d : list (string * list Seat)) (x : Seat) r l :
  NoDup (map fst d) -> In (r, l) (dict_append_seat d x) ->
  (r <> row x /\ In (r, l) d)
  \/ (r = row x /\ ((exists l0, In (r, l0) d /\ l = l0 ++ [x]) \/ (l = [x] /\ ~ In r (map fst d)))).
Proof.
  induction d as [|[r' l'] d IH]; simpl; intros Hnd H.
  - destruct H as [H|[]]; injection H as <- <-; right; split; [reflexivity|]; right; auto.
  - apply NoDup_cons_iff in Hnd; destruct Hnd as [Hr' Hnd].
    destruct (String.eqb r' (row x)) eqn:E.
    + apply String.eqb_eq in E; destruct H as [H|H].
      * injection H as <- <-; right; split; [exact E|]; left; exists l'; auto.
      * left; split; [|right; exact H].
        intros ->; apply Hr'; rewrite E; apply (in_map fst) in H; exact H.
    + apply String.eqb_neq in E; destruct H as [H|H].
      * injection H as <- <-; left; auto.
      * destruct (IH Hnd H) as [[Hne Hin]|[Hr [[l0 [Hin Hl]]|[Hl Hnin]]]].
        -- left; auto.
        -- right; split; [exact Hr|]; left; exists l0; auto.
        -- right; split; [exact Hr|]; right; split; [exact Hl|].
           intros [Heq|Hin]; [congruence | exact (Hnin Hin)].
Qed.

Lemma filter_none {A} (f : A -> bool) (l : list A) :
  (forall x, In x l -> f x = false) -> filter f l = [].
Proof.
  induction l as [|x l IH]; simpl; intros H; [reflexivity|].
  rewrite (H x (or_introl eq_refl)); apply IH; intros y Hy; apply H; right; exact Hy.
Qed.

Lemma rows_inv_step (acc : list (string * list Seat)) (seen : list Seat) (x : Seat) :
  rows_inv acc seen -> rows_inv (dict_append_seat acc x) (seen ++ [x]).
Proof.
  intros [Hnd [Hent Hkeys]]; split; [|split].
  - rewrite dict_append_keys.
    destruct (existsb _ (map fst acc)) eqn:E; [exact Hnd|].
    apply (Permutation_NoDup (Permutation_cons_append (map fst acc) (row x))).
    constructor; [|exact Hnd].
    intros Hin; assert (Hx : existsb (fun k => String.eqb k (row x)) (map fst acc) = true)
      by (apply existsb_exists; exists (row x); split; [exact Hin | apply String.eqb_refl]).
    congruence.
  - intros r l Hin; rewrite filter_app.
    destruct (dict_append_in_nodup acc x r l Hnd Hin) as [[Hne Hin']|[Hr [[l0 [Hin' Hl]]|[Hl Hnin]]]].
    + simpl; rewrite (proj2 (String.eqb_neq (row x) r)) by congruence.
      rewrite app_nil_r; exact (Hent r l Hin').
    + subst l; rewrite <- (Hent r l0 Hin'); simpl; rewrite Hr, String.eqb_refl; reflexivity.
    + subst l r; simpl; rewrite String.eqb_refl.
      rewrite filter_none; [reflexivity|].
      intros s Hs; apply String.eqb_neq; intros Heq; apply Hnin; rewrite <- Heq; exact (Hkeys s Hs).
  - intros s Hs; apply in_app_iff in Hs; rewrite dict_append_keys.
    destruct (existsb _ (map fst acc)) eqn:E; destruct Hs as [Hs|[<-|[]]].
    + exact (Hkeys s Hs).
    + apply existsb_exists in E; destruct E as [k [Hk Heq]]; apply String.eqb_eq in Heq.
      subst k; exact Hk.
    + apply in_app_iff; left; exact (Hkeys s Hs).
    + apply in_app_iff; right; left; reflexivity.
Qed.

Lemma rows_inv_group_by_row (kept : list Seat) : rows_inv (group_by_row kept) kept.
Proof.
  unfold group_by_row.
  assert (H : forall xs acc seen, rows_inv acc seen ->
                rows_inv (fold_left dict_append_seat xs acc) (seen ++ xs)).
  { induction xs as [|x xs IH]; intros acc seen Hinv; simpl; [rewrite app_nil_r; exact Hinv|].
    replace (seen ++ x :: xs) with ((seen ++ [x]) ++ xs) by (rewrite <- app_assoc; reflexivity).
    apply IH, rows_inv_step, Hinv. }
  apply (H kept [] []).
  split; [constructor|]; split; [intros r l []| intros s []].
Qed.

Lemma group_by_row_entry (kept : list Seat) r l :
  In (r, l) (group_by_row kept) -> l = filter (fun s => String.eqb (row s) r) kept.
Proof. destruct (rows_inv_group_by_row kept) as [_ [H _]]; apply H. Qed.

Lemma group_by_row_key (kept : list Seat) (s : Seat) :
  In s kept -> exists l, In (row s, l) (group_by_row kept).
Proof.
  destruct (rows_inv_group_by_row kept) as [_ [_ H]]; intros Hs.
  pose proof (H s Hs) as Hk; apply in_map_iff in Hk; destruct Hk as [[k l] [Hk Hin]].
  simpl in Hk; subst k; eauto.
Qed.

Lemma key_is_int_digit (s : Seat) : isdigit (chair s) = true -> key_is_int s = true.
Proof. intros H; unfold key_is_int, chair_key; rewrite H; reflexivity. Qed.

Lemma sort_rows_ok (d : list (string * list Seat)) :
  (forall r l, In (r, l) d -> forall s, In s l -> isdigit (chair s) = true) ->
  sort_rows d = Ok (map (fun '(r, l) => (r, isort int_key_le l)) d).
Proof.
  induction d as [|[r l] d IH]; simpl; intros H; [reflexivity|].
  assert (Hl : forallb key_is_int l = true).
  { apply forallb_forall; intros s Hs; apply key_is_int_digit, (H r l (or_introl eq_refl)), Hs. }
  unfold sort_row; rewrite Hl; simpl.
  rewrite IH; [reflexivity|].
  intros r' l' Hin; apply (H r' l'); right; exact Hin.
Qed.

Lemma int_key_le_value (a b : Seat) :
  isdigit (chair a) = true -> isdigit (chair b) = true ->
  int_key_le a b = (seat_value a <=? seat_value b).
Proof. intros Ha Hb; unfold int_key_le, chair_key; rewrite Ha, Hb; reflexivity. Qed.


Lemma insert_sorted (x : Seat) (l : list Seat) :
  isdigit (chair x) = true -> Forall (fun s => isdigit (chair s) = true) l ->
  StronglySorted value_le l -> StronglySorted value_le (insert_by int_key_le x l).
Proof.
  intros Hx; induction l as [|y l IH]; intros Hall Hs; simpl.
  - constructor; constructor.
  - apply Forall_cons_iff in Hall; destruct Hall as [Hy Hall].
    apply StronglySorted_inv in Hs; destruct Hs as [Hs Hfy].
    rewrite (int_key_le_value x y Hx Hy).
    destruct (seat_value x <=? seat_value y) eqn:E.
    + apply Z.leb_le in E; constructor; [constructor; assumption|].
      constructor; [exact E|].
      eapply Forall_impl; [|exact Hfy]; unfold value_le; intros z Hz; lia.
    + apply Z.leb_gt in E; constructor; [apply IH; assumption|].
      apply (Permutation_Forall (insert_by_perm int_key_le x l)).
      constructor; [unfold value_le; lia | exact Hfy].
Qed.

Lemma isort_sorted (l : list Seat) :
  Forall (fun s => isdigit (chair s) = true) l -> StronglySorted value_le (isort int_key_le l).
Proof.
  induction l as [|x l IH]; simpl; intros Hall; [constructor|].
  apply Forall_cons_iff in Hall; destruct Hall as [Hx Hall].
  apply insert_sorted; [exact Hx | | exact (IH Hall)].
  exact (Permutation_Forall (isort_perm int_key_le l) Hall).
Qed.

Lemma sorted_strict (l : list Seat) :
  StronglySorted value_le l -> NoDup (map seat_value l) -> StronglySorted value_lt l.
Proof.
  induction 1 as [|x l Hs IH Hf]; simpl; intros Hnd; constructor.
  - apply IH; apply NoDup_cons_iff in Hnd; tauto.
  - apply NoDup_cons_iff in Hnd; destruct Hnd as [Hnin _].
    apply Forall_forall; intros y Hy; rewrite Forall_forall in Hf; specialize (Hf y Hy).
    unfold value_le, value_lt in *.
    assert (seat_value x <> seat_value y) by (intros Heq; apply Hnin; rewrite Heq; apply in_map, Hy).
    lia.
Qed.

Lemma nodup_map_filter {A B} (key : A -> B) (keep : A -> bool) (xs : list A) :
  NoDup (map key xs) -> NoDup (map key (filter keep xs)).
Proof.
  induction xs as [|x xs IH]; simpl; intros H; [constructor|].
  apply NoDup_cons_iff in H; destruct H as [Hnin H].
  destruct (keep x); simpl; [|exact (IH H)].
  constructor; [|exact (IH H)].
  intros Hin; apply Hnin; apply in_map_iff in Hin; destruct Hin as [y [Hy Hin]].
  apply filter_In in Hin; rewrite <- Hy; apply in_map; tauto.
Qed.

Lemma nodup_map_weaken {A B C} (f : A -> B) (g : A -> C) (l : list A) :
  (forall a b, In a l -> In b l -> g a = g b -> f a = f b) ->
  NoDup (map f l) -> NoDup (map g l).
Proof.
  induction l as [|x l IH]; simpl; intros Hfg H; [constructor|].
  apply NoDup_cons_iff in H; destruct H as [Hnin H].
  constructor.
  - intros Hin; apply in_map_iff in Hin; destruct Hin as [y [Hy Hin]].
    apply Hnin; rewrite <- (Hfg y x (or_intror Hin) (or_introl eq_refl) Hy); apply in_map, Hin.
  - apply IH; [intros a b Ha Hb; apply Hfg; right; assumption | exact H].
Qed.

Lemma desc_from_values (b : Z) (l : list Seat) :
  desc_from b l = true ->
  forall i, 0 <= i < Z.of_nat (List.length l) ->
  exists s, In s l /\ py_int (chair s) = Some (b - i).
Proof.
  revert b; induction l as [|h t IH]; intros b H i Hi; [simpl in Hi; lia|].
  pose proof (desc_head _ _ _ H) as Hh.
  simpl in H; apply andb_true_iff in H; destruct H as [_ H].
  destruct (Z.eq_dec i 0) as [->|Hne].
  - exists h; split; [left; reflexivity | rewrite Z.sub_0_r; exact Hh].
  - destruct (IH (b - 1) H (i - 1)) as [s [Hs Hz]]; [simpl List.length in Hi; lia|].
    exists s; split; [right; exact Hs | rewrite Hz; f_equal; lia].
Qed.

Lemma nodup_run (v : Z) (n a : nat) :
  NoDup (map (fun i => v + Z.of_nat i) (seq a n)).
Proof.
  revert a; induction n as [|n IH]; intros a; simpl; constructor; [|apply IH].
  intros Hin; apply in_map_iff in Hin; destruct Hin as [i [Hi Hin]].
  apply in_seq in Hin; lia.
Qed.

Section Scan.

Variables (R : list Seat) (r : string) (min_seats : Z).
Hypothesis Hmin : 1 <= min_seats.

Lemma close_props (h : Seat) (t : list Seat) (b w0 : Z) :
  w0 = b - Z.of_nat (List.length (h :: t)) + 1 ->
  desc_from b (h :: t) = true ->
  (forall s, In s (h :: t) -> In s R /\ row s = r) ->
  ~ in_row R r (w0 - 1) -> ~ in_row R r (b + 1) ->
  (forall g, In g (close_sequence r min_seats (h :: t)) ->
             group_row g = r /\ maximal_group R min_seats g)
  /\ (forall v k, min_seats <= k -> w0 <= v -> v + k - 1 <= b ->
        exists g, In g (close_sequence r min_seats (h :: t)) /\ group_covers g r v k).
Proof.
  intros Hw0 Hd HQ Hlo Hhi.
  assert (Hstart : py_int (chair (List.last (h :: t) h)) = Some w0).
  { destruct (rev_last_hd (h :: t) h) as [s0 [rest [Hrev Hlast]]]; [discriminate|].
    rewrite Hlast; apply chairs_head with rest; rewrite <- Hrev, Hw0; apply desc_chairs, Hd. }
  assert (Hend : py_int (chair h) = Some b) by exact (desc_head _ _ _ Hd).
  assert (Hvals : forall i, 0 <= i < Z.of_nat (List.length (h :: t)) -> in_row R r (w0 + i)).
  { intros i Hi.
    destruct (desc_from_values b (h :: t) Hd (Z.of_nat (List.length (h :: t)) - 1 - i))
      as [s [Hs Hz]]; [lia|].
    exists s; destruct (HQ s Hs) as [HR Hr]; split; [exact HR|]; split; [exact Hr|].
    rewrite Hz; f_equal; lia. }
  change (close_sequence r min_seats (h :: t))
    with (if Z.of_nat (List.length (h :: t)) >=? min_seats
          then [mkGroup r (chair (List.last (h :: t) h)) (chair h)
                        (Z.of_nat (List.length (h :: t)))]
          else []).
  destruct (Z.of_nat (List.length (h :: t)) >=? min_seats) eqn:Emin.
  - apply Z.geb_le in Emin; split.
    + intros g [<-|[]]; split; [reflexivity|]; exists w0; cbn [start_chair end_chair count group_row].
      split; [exact Hstart|]; split; [rewrite Hend; f_equal; lia|]; split; [lia|].
      split; [exact Hvals|]; split; [exact Hlo|].
      replace (w0 + Z.of_nat (List.length (h :: t))) with (b + 1) by lia; exact Hhi.
    + intros v k Hk Hv Hvk; eexists; split; [left; reflexivity|].
      split; [reflexivity|]; exists w0; cbn [start_chair count]; split; [exact Hstart | lia].
  - rewrite Z.geb_leb in Emin; apply Z.leb_gt in Emin.
    split; [intros g []|]; intros v k Hk Hv Hvk; lia.
Qed.

Lemma scan_props (rest : list Seat) : forall (h : Seat) (t : list Seat) (b w0 : Z),
  w0 = b - Z.of_nat (List.length (h :: t)) + 1 ->
  desc_from b (h :: t) = true ->
  (forall s, In s ((h :: t) ++ rest) -> In s R /\ row s = r) ->
  (forall s, In s rest -> py_int (chair s) = Some (seat_value s)) ->
  StronglySorted value_lt rest ->
  Forall (fun s => b < seat_value s) rest ->
  ~ in_row R r (w0 - 1) ->
  (forall z, in_row R r z -> w0 <= z -> z <= b \/ exists s, In s rest /\ seat_value s = z) ->
  (forall g, In g (scan_row r min_seats (h :: t) rest) ->
             group_row g = r /\ maximal_group R min_seats g)
  /\ (forall v k, min_seats <= k -> w0 <= v -> (forall i, 0 <= i < k -> in_row R r (v + i)) ->
        exists g, In g (scan_row r min_seats (h :: t) rest) /\ group_covers g r v k).
Proof.
  induction rest as [|c rest IH]; intros h t b w0 Hw0 Hd HQ Hp Hs Hgt Hlo Hsuf.
  - rewrite app_nil_r in HQ.
    assert (Hwb : w0 <= b) by (rewrite Hw0; simpl List.length; lia).
    assert (Hhi : ~ in_row R r (b + 1)).
    { intros Hn; assert (Hw : w0 <= b + 1) by lia.
      destruct (Hsuf _ Hn Hw) as [H|[s [[] _]]]; lia. }
    destruct (close_props h t b w0 Hw0 Hd HQ Hlo Hhi) as [HS HC].
    change (scan_row r min_seats (h :: t) []) with (close_sequence r min_seats (h :: t)).
    split; [exact HS|].
    intros v k Hk Hv Hrun; apply HC; [exact Hk | exact Hv|].
    assert (Hn : in_row R r (v + (k - 1))) by (apply Hrun; lia).
    assert (Hw : w0 <= v + (k - 1)) by lia.
    destruct (Hsuf _ Hn Hw) as [H|[s [[] _]]]; lia.
  - assert (Hc : py_int (chair c) = Some (seat_value c)) by (apply Hp; left; reflexivity).
    assert (Hb : py_int (chair h) = Some b) by exact (desc_head _ _ _ Hd).
    apply StronglySorted_inv in Hs; destruct Hs as [Hs Hfc].
    apply Forall_cons_iff in Hgt; destruct Hgt as [Hbc Hgt].
    assert (Hrest : forall s, In s rest -> seat_value c < seat_value s)
      by (rewrite Forall_forall in Hfc; exact Hfc).
    assert (Hwb : w0 <= b) by (rewrite Hw0; simpl List.length; lia).
    change (scan_row r min_seats (h :: t) (c :: rest))
      with (if is_consecutive h c then scan_row r min_seats (c :: h :: t) rest
            else close_sequence r min_seats (h :: t) ++ scan_row r min_seats [c] rest).
    assert (Econs : is_consecutive h c = (seat_value c =? b + 1))
      by (unfold is_consecutive; rewrite Hc, Hb; reflexivity).
    rewrite Econs; destruct (seat_value c =? b + 1) eqn:E.
    + apply Z.eqb_eq in E.
      apply (IH c (h :: t) (b + 1) w0).
      * rewrite Hw0; cbn [List.length]; lia.
      * change (desc_from (b + 1) (c :: h :: t))
          with ((match py_int (chair c) with Some z => Z.eqb z (b + 1) | None => false end)
                && desc_from (b + 1 - 1) (h :: t)).
        rewrite Hc, E, Z.eqb_refl, Z.add_simpl_r; exact Hd.
      * intros s Hs'; apply HQ; rewrite in_app_iff in Hs' |- *; simpl in Hs' |- *; tauto.
      * intros s Hs'; apply Hp; right; exact Hs'.
      * exact Hs.
      * rewrite <- E; exact Hfc.
      * exact Hlo.
      * intros z Hz Hzw; destruct (Hsuf z Hz Hzw) as [H|[s [[<-|Hs'] Hsz]]];
          [left; lia | left; lia | right; eauto].
    + apply Z.eqb_neq in E.
      assert (Hhi : ~ in_row R r (b + 1)).
      { intros Hn; assert (Hw : w0 <= b + 1) by lia.
        destruct (Hsuf _ Hn Hw) as [H|[s [[<-|Hs'] Hsz]]]; [lia | lia |].
        specialize (Hrest s Hs'); lia. }
      destruct (close_props h t b w0 Hw0 Hd) as [HS HC];
        [intros s Hs'; apply HQ, in_app_iff; left; exact Hs' | exact Hlo | exact Hhi |].
      destruct (IH c [] (seat_value c) (seat_value c)) as [IS IC].
      * simpl; lia.
      * simpl; rewrite Hc, Z.eqb_refl; reflexivity.
      * intros s Hs'; apply HQ; rewrite in_app_iff in Hs' |- *; simpl in Hs' |- *; tauto.
      * intros s Hs'; apply Hp; right; exact Hs'.
      * exact Hs.
      * exact Hfc.
      * intros Hn; assert (Hw : w0 <= seat_value c - 1) by lia.
        destruct (Hsuf _ Hn Hw) as [H|[s [[<-|Hs'] Hsz]]]; [lia | lia |].
        specialize (Hrest s Hs'); lia.
      * intros z Hz Hzw; assert (Hw : w0 <= z) by lia.
        destruct (Hsuf z Hz Hw) as [H|[s [[<-|Hs'] Hsz]]]; [lia | left; lia | right; eauto].
      * split.
        -- intros g Hg; apply in_app_iff in Hg; destruct Hg as [Hg|Hg];
             [exact (HS g Hg) | exact (IS g Hg)].
        -- intros v k Hk Hv Hrun.
           destruct (Z_lt_le_dec v (seat_value c)) as [Hvc|Hvc].
           ++ destruct (Z_le_gt_dec v b) as [Hvb|Hvb].
              ** assert (Hvk : v + k - 1 <= b).
                 { destruct (Z_le_gt_dec (v + k - 1) b) as [?|Hgt']; [assumption|].
                   exfalso; apply Hhi; replace (b + 1) with (v + (b + 1 - v)) by lia.
                   apply Hrun; lia. }
                 destruct (HC v k Hk Hv Hvk) as [g [Hg Hcov]].
                 exists g; split; [apply in_app_iff; left; exact Hg | exact Hcov].
              ** exfalso.
                 assert (Hn : in_row R r v) by (replace v with (v + 0) by lia; apply Hrun; lia).
                 destruct (Hsuf v Hn Hv) as [H|[s [[<-|Hs'] Hsz]]]; [lia | lia |].
                 specialize (Hrest s Hs'); lia.
           ++ destruct (IC v k Hk Hvc Hrun) as [g [Hg Hcov]].
              exists g; split; [apply in_app_iff; right; exact Hg | exact Hcov].
Qed.

Lemma row_props (l : list Seat) :
  (forall s, In s l -> In s R /\ row s = r) ->
  (forall s, In s R -> row s = r -> In s l) ->
  (forall s, In s l -> py_int (chair s) = Some (seat_value s)) ->
  StronglySorted value_lt l ->
  (forall g, In g (row_groups min_seats (r, l)) ->
             group_row g = r /\ maximal_group R min_seats g)
  /\ (forall v k, min_seats <= k -> (forall i, 0 <= i < k -> in_row R r (v + i)) ->
        exists g, In g (row_groups min_seats (r, l)) /\ group_covers g r v k).
Proof.
  intros Hin Hall Hp Hs.
  assert (Hval : forall z, in_row R r z -> exists s, In s l /\ seat_value s = z).
  { intros z [s [HsR [Hsr Hsz]]]; exists s; split; [exact (Hall s HsR Hsr)|].
    rewrite (Hp s (Hall s HsR Hsr)) in Hsz; congruence. }
  change (row_groups min_seats (r, l))
    with (if Z.of_nat (List.length l) <? min_seats then []
          else match l with
               | [] => []
               | first :: rest => scan_row r min_seats [first] rest
               end).
  destruct (Z.of_nat (List.length l) <? min_seats) eqn:Elen.
  - apply Z.ltb_lt in Elen; split; [intros g []|].
    intros v k Hk Hrun; exfalso.
    assert (Hincl : incl (map (fun i => v + Z.of_nat i) (seq 0 (Z.to_nat k)))
                         (map seat_value l)).
    { intros z Hz; apply in_map_iff in Hz; destruct Hz as [i [<- Hi]]; apply in_seq in Hi.
      destruct (Hval (v + Z.of_nat i)) as [s [Hs' Hsz]]; [apply Hrun; lia|].
      rewrite <- Hsz; apply in_map, Hs'. }
    apply NoDup_incl_length in Hincl; [|apply nodup_run].
    rewrite !length_map, length_seq in Hincl; lia.
  - apply Z.ltb_ge in Elen.
    destruct l as [|first rest]; [simpl in Elen; lia|].
    pose proof (StronglySorted_inv Hs) as [Hsr Hfr].
    assert (Hrest : forall s, In s rest -> seat_value first < seat_value s)
      by (rewrite Forall_forall in Hfr; exact Hfr).
    destruct (scan_props rest first [] (seat_value first) (seat_value first)) as [HS HC].
    + simpl; lia.
    + simpl; rewrite (Hp first (or_introl eq_refl)), Z.eqb_refl; reflexivity.
    + exact Hin.
    + intros s Hs'; apply Hp; right; exact Hs'.
    + exact Hsr.
    + exact Hfr.
    + intros Hn; destruct (Hval _ Hn) as [s [[<-|Hs'] Hsz]]; [lia|].
      specialize (Hrest s Hs'); lia.
    + intros z Hz _; destruct (Hval _ Hz) as [s [[<-|Hs'] Hsz]]; [left; lia | right; eauto].
    + split; [exact HS|]; intros v k Hk Hrun; apply HC; [exact Hk | | exact Hrun].
      destruct (Z_le_gt_dec (seat_value first) v) as [?|Hlt]; [assumption | exfalso].
      destruct (Hval v) as [s [[<-|Hs'] Hsz]];
        [replace v with (v + 0) by lia; apply Hrun; lia | lia |].
      specialize (Hrest s Hs'); lia.
Qed.

End Scan.

Lemma key_is_int_isdigit (s : Seat) : key_is_int s = isdigit (chair s).
Proof. unfold key_is_int, chair_key; destruct (isdigit (chair s)); reflexivity. Qed.

Lemma sort_rows_uniform (d : list (string * list Seat)) :
  (forall r l, In (r, l) d ->
     forallb key_is_int l = true \/ forallb (fun s => negb (key_is_int s)) l = true) ->
  sort_rows d
  = Ok (map (fun '(r, l) => (r, if forallb key_is_int l then isort int_key_le l
                                else isort str_key_le l)) d).
Proof.
  induction d as [|[r l] d IH]; simpl; intros H; [reflexivity|].
  unfold sort_row.
  destruct (forallb key_is_int l) eqn:E;
    [|destruct (H r l (or_introl eq_refl)) as [Hl|Hl]; [congruence | rewrite Hl]];
    simpl; rewrite IH by (intros r' l' Hin; apply (H r' l'); right; exact Hin);
    reflexivity.
Qed.

Lemma filter_filter_sub {A} (p q : A -> bool) (l : list A) :
  (forall x, In x l -> p x = true -> q x = true) -> filter p l = filter p (filter q l).
Proof.
  induction l as [|x l IH]; simpl; intros H; [reflexivity|].
  rewrite IH by (intros y Hy; apply H; right; exact Hy).
  destruct (q x) eqn:Q; simpl; [reflexivity|].
  destruct (p x) eqn:P; [|reflexivity].
  rewrite (H x (or_introl eq_refl) P) in Q; discriminate.
Qed.

(** With no chair number to read, no two seats are consecutive: the scan
    closes a run of one at every seat. *)
Lemma label_scan (r : string) (min_seats : Z) (x : Seat) (rest : list Seat) :
  (forall s, In s (x :: rest) -> py_int (chair s) = None) ->
  forall g, In g (scan_row r min_seats [x] rest) ->
    min_seats <= 1 /\ exists s, In s (x :: rest) /\ g = mkGroup r (chair s) (chair s) 1.
Proof.
  assert (Hone : forall y g, In g (close_sequence r min_seats [y]) ->
                   min_seats <= 1 /\ g = mkGroup r (chair y) (chair y) 1).
  { intros y g Hg; unfold close_sequence in Hg; cbn [List.length List.last] in Hg.
    destruct (Z.of_nat 1 >=? min_seats) eqn:E; [|destruct Hg].
    destruct Hg as [<-|[]]; split; [apply Z.geb_le in E; lia | reflexivity]. }
  revert x; induction rest as [|c rest IH]; intros x Hn g Hg; cbn [scan_row] in Hg.
  - destruct (Hone x g Hg) as [Hm ->]; split; [exact Hm|].
    exists x; split; [left; reflexivity | reflexivity].
  - unfold is_consecutive in Hg; rewrite (Hn c (or_intror (or_introl eq_refl))) in Hg.
    apply in_app_iff in Hg; destruct Hg as [Hg|Hg].
    + destruct (Hone x g Hg) as [Hm ->]; split; [exact Hm|].
      exists x; split; [left; reflexivity | reflexivity].
    + destruct (IH c (fun s Hs => Hn s (or_intror Hs)) g Hg) as [Hm [s [Hs ->]]].
      split; [exact Hm|]; exists s; split; [right; exact Hs | reflexivity].
Qed.

Lemma label_row_groups (r : string) (min_seats : Z) (l : list Seat) :
  (forall s, In s l -> py_int (chair s) = None) ->
  forall g, In g (row_groups min_seats (r, l)) ->
    min_seats <= 1 /\ exists s, In s l /\ g = mkGroup r (chair s) (chair s) 1.
Proof.
  intros Hn g; unfold row_groups.
  destruct (Z.of_nat (List.length l) <? min_seats); [intros []|].
  destruct l as [|x rest]; [intros []|]; apply label_scan, Hn.
Qed.




(** ** [extract_theater_id] *)

Local Open Scope string_scope.

Lemma all_digits_app (a b : string) :
  all_digits (a ++ b) = all_digits a && all_digits b.
Proof. induction a as [|c a IH]; simpl; [reflexivity | rewrite IH, andb_assoc; reflexivity]. Qed.

Lemma digits_plus_digits {R} (k : string -> option R) (s : string) :
  forall acc d r, all_digits acc = true ->
  digits_plus k acc s = Some (d, r) -> d <> EmptyString /\ all_digits d = true.
Proof.
  induction s as [|c t IH]; intros acc d r Hacc H; simpl in H.
  - destruct acc as [|a acc]; [discriminate|].
    destruct (k EmptyString); [|discriminate]; injection H as <- _.
    split; [discriminate | exact Hacc].
  - destruct (is_digit c) eqn:Ec.
    + destruct (digits_plus k (acc ++ String c EmptyString) t) as [[d' r']|] eqn:E.
      * injection H as <- <-; apply (IH (acc ++ String c EmptyString) d' r'); [|exact E].
        rewrite all_digits_app, Hacc; simpl; rewrite Ec; reflexivity.
      * destruct acc as [|a acc]; [discriminate|].
        destruct (k (String c t)); [|discriminate]; injection H as <- _.
        split; [discriminate | exact Hacc].
    + destruct acc as [|a acc]; [discriminate|].
      destruct (k (String c t)); [|discriminate]; injection H as <- _.
      split; [discriminate | exact Hacc].
Qed.

Lemma lazy_line_some {R} (k : string -> option R) (s : string) (x : R) :
  lazy_line k s = Some x -> exists p s1, s = p ++ s1 /\ k s1 = Some x.
Proof.
  induction s as [|c t IH]; simpl; intros H.
  - exists "", ""; split; [reflexivity|].
    destruct (k ""); [exact H | discriminate].
  - destruct (k (String c t)) eqn:E.
    + exists "", (String c t); split; [reflexivity | rewrite E; exact H].
    + destruct (Ascii.eqb c newline); [discriminate|].
      destruct (IH H) as [p [s1 [-> Hk]]].
      exists (String c p), s1; split; [reflexivity | exact Hk].
Qed.

Lemma search_some {R} (m : string -> option R) (s : string) (x : R) :
  search m s = Some x -> exists p s1, s = p ++ s1 /\ m s1 = Some x.
Proof.
  induction s as [|c t IH]; simpl; intros H.
  - exists "", ""; split; [reflexivity|].
    destruct (m ""); [exact H | discriminate].
  - destruct (m (String c t)) eqn:E.
    + exists "", (String c t); split; [reflexivity | rewrite E; exact H].
    + destruct (IH H) as [p [s1 [-> Hk]]].
      exists (String c p), s1; split; [reflexivity | exact Hk].
Qed.

Lemma theater_pattern_some (s d w : string) :
  theater_pattern s = Some (d, w) ->
  exists p s1 s2, s = p ++ s1 /\ strip_prefix "showURL=" s1 = Some s2
                  /\ digits_plus dot_star "" s2 = Some (d, w).
Proof.
  unfold theater_pattern; intros H.
  destruct (lazy_line_some _ _ _ H) as [p [s1 [-> Hk]]].
  destruct (strip_prefix "showURL=" s1) as [s2|] eqn:E; [|discriminate].
  exists p, s1, s2; auto.
Qed.

Lemma str_contains_prefix (l s v : string) :
  strip_prefix l s = Some v -> str_contains l s = true.
Proof. destruct s; simpl; intros H; rewrite H; reflexivity. Qed.

Lemma str_contains_app (l p s : string) :
  str_contains l s = true -> str_contains l (p ++ s) = true.
Proof.
  induction p as [|c p IH]; simpl; intros H; [exact H|].
  destruct (strip_prefix l (String c (p ++ s))); [reflexivity | exact (IH H)].
Qed.

(** X2: a URL in which [showURL=] does not occur has no theater id. *)
Theorem extract_theater_id_absent (url : string) :
  str_contains "showURL=" url = false -> extract_theater_id url = None.
Proof.
  unfold extract_theater_id; intros H.
  destruct (search theater_pattern url) as [[d w]|] eqn:E; [|reflexivity].
  destruct (search_some _ _ _ E) as [p [s [-> Hs]]].
  destruct (theater_pattern_some _ _ _ Hs) as [q [s1 [s2 [-> [Hp _]]]]].
  apply str_contains_prefix in Hp.
  rewrite (str_contains_app _ p _ (str_contains_app _ q _ Hp)) in H; discriminate.
Qed.

Lemma extract_theater_id_absent_witness :
  str_contains "showURL=" "https://example.com/show?id=12" = false
  /\ extract_theater_id "https://example.com/show?id=12" = None.
Proof.
  split; [vm_compute; reflexivity|].
  apply extract_theater_id_absent; vm_compute; reflexivity.
Defined.

Lemma dot_star_some (s : string) : exists w, dot_star s = Some w.
Proof.
  induction s as [|c t IH]; simpl; [eexists; reflexivity|].
  destruct (Ascii.eqb c newline); [eexists; reflexivity | exact IH].
Qed.

Lemma digits_plus_max (d r : string) :
  all_digits d = true -> (forall c t, r = String c t -> is_digit c = false) ->
  forall acc, acc <> "" \/ d <> "" ->
  exists w, digits_plus dot_star acc (d ++ r) = Some (acc ++ d, w).
Proof.
  intros Hd Hr; induction d as [|c d IH]; intros acc Hne.
  - simpl; destruct Hne as [Hne|Hne]; [|congruence].
    rewrite str_app_nil_r.
    assert (Hhere : exists w, match acc with
                              | "" => None
                              | String _ _ => match dot_star r with
                                              | Some w => Some (acc, w)
                                              | None => None end
                              end = Some (acc, w)).
    { destruct acc as [|a acc]; [congruence|].
      destruct (dot_star_some r) as [w Hw]; rewrite Hw; exists w; reflexivity. }
    destruct r as [|c t]; simpl.
    + exact Hhere.
    + rewrite (Hr c t eq_refl); exact Hhere.
  - change (all_digits (String c d)) with (is_digit c && all_digits d) in Hd.
    apply andb_true_iff in Hd as [Hc Hd].
    change (String c d ++ r) with (String c (d ++ r)).
    change (digits_plus dot_star acc (String c (d ++ r)))
      with (let here := match acc with
                        | EmptyString => None
                        | _ => match dot_star (String c (d ++ r)) with
                               | Some w => Some (acc, w) | None => None end
                        end in
            if is_digit c then
              match digits_plus dot_star (acc ++ String c EmptyString) (d ++ r) with
              | Some w => Some w
              | None => here
              end
            else here).
    cbv zeta; rewrite Hc.
    destruct (IH Hd (acc ++ String c "")) as [w Hw].
    { left; destruct acc; discriminate. }
    rewrite Hw, str_app_assoc; exists w; reflexivity.
Qed.

(** No proper prefix of [showURL=] is followed by [s]: an occurrence that
    starts before a [showURL=] lies entirely before it. *)
Lemma showurl_no_border (q y : string) :
  str_contains "showURL=" q = false -> q <> "" ->
  strip_prefix "showURL=" (q ++ "showURL=" ++ y) = None.
Proof.
  intros Hc Hne; destruct q as [|c q]; [congruence|]; clear Hne.
  do 7 (cbn [strip_prefix String.append];
        match goal with |- context [Ascii.eqb ?a c] => destruct (Ascii.eqb_spec a c) as [<-|] end;
        [|reflexivity]; destruct q as [|c q]; [reflexivity|]).
  cbn [strip_prefix String.append];
  match goal with |- context [Ascii.eqb ?a c] => destruct (Ascii.eqb_spec a c) as [<-|] end;
  [|reflexivity].
  exfalso; simpl in Hc; discriminate.
Qed.

Lemma lazy_line_hit {R} (k : string -> option R) (s : string) (x : R) :
  k s = Some x -> lazy_line k s = Some x.
Proof. destruct s; simpl; intros H; rewrite H; reflexivity. Qed.

Lemma lazy_line_miss {R} (k : string -> option R) (c : ascii) (t : string) :
  k (String c t) = None ->
  lazy_line k (String c t) = if Ascii.eqb c newline then None else lazy_line k t.
Proof. simpl; intros H; rewrite H; reflexivity. Qed.

Lemma search_hit {R} (m : string -> option R) (s : string) (x : R) :
  m s = Some x -> search m s = Some x.
Proof. destruct s; simpl; intros H; rewrite H; reflexivity. Qed.

Lemma search_miss {R} (m : string -> option R) (c : ascii) (t : string) :
  m (String c t) = None -> search m (String c t) = search m t.
Proof. simpl; intros H; rewrite H; reflexivity. Qed.

Lemma str_contains_tail (l : string) (c : ascii) (t : string) :
  str_contains l (String c t) = false -> str_contains l t = false.
Proof. simpl; destruct (strip_prefix l (String c t)); [discriminate | auto]. Qed.

Section First_id.

Variables (d r : string).
Hypothesis Hd : isdigit d = true.
Hypothesis Hr : forall c t, r = String c t -> is_digit c = false.

Let hit : exists w, theater_pattern ("showURL=" ++ d ++ r) = Some (d, w).
Proof.
  unfold theater_pattern.
  destruct (digits_plus_max d r) with (acc := "") as [w Hw].
  - destruct d; [discriminate | exact Hd].
  - exact Hr.
  - right; destruct d; [discriminate | discriminate].
  - exists w; apply lazy_line_hit; rewrite strip_prefix_app; exact Hw.
Qed.

Lemma attempt_before (q : string) :
  str_contains "showURL=" q = false ->
  theater_pattern (q ++ "showURL=" ++ d ++ r) = None
  \/ exists w, theater_pattern (q ++ "showURL=" ++ d ++ r) = Some (d, w).
Proof.
  unfold theater_pattern; induction q as [|c q IH]; intros Hc.
  - right; exact hit.
  - rewrite str_app_cons, lazy_line_miss.
    + destruct (Ascii.eqb c newline); [left; reflexivity|].
      exact (IH (str_contains_tail _ _ _ Hc)).
    + rewrite <- str_app_cons, showurl_no_border; [reflexivity | exact Hc | discriminate].
Qed.

Lemma search_before (q : string) :
  str_contains "showURL=" q = false ->
  exists w, search theater_pattern (q ++ "showURL=" ++ d ++ r) = Some (d, w).
Proof.
  induction q as [|c q IH]; intros Hc.
  - destruct hit as [w Hw]; exists w; apply search_hit; exact Hw.
  - destruct (attempt_before (String c q) Hc) as [Hn|[w Hw]].
    + rewrite str_app_cons, search_miss; [exact (IH (str_contains_tail _ _ _ Hc)) | exact Hn].
    + exists w; apply search_hit; exact Hw.
Qed.

End First_id.

(** X3: the id is the whole run of digits after the first [showURL=]:
    for a URL [p ++ "showURL=" ++ d ++ r] where [showURL=] does not occur
    in [p], [d] is a non-empty string of digits and [r] does not start with
    a digit, [extract_theater_id] returns [d], even when [p] holds a
    newline. *)
Theorem extract_theater_id_first (p d r : string) :
  str_contains "showURL=" p = false -> isdigit d = true ->
  (forall c t, r = String c t -> is_digit c = false) ->
  extract_theater_id (p ++ "showURL=" ++ d ++ r) = Some d.
Proof.
  intros Hp Hd Hr; unfold extract_theater_id.
  destruct (search_before d r Hd Hr p Hp) as [w ->]; reflexivity.
Qed.

Lemma extract_theater_id_first_witness :
  extract_theater_id (("https://x.il/iframe?a=1" ++ nl ++ "b") ++ "showURL=" ++ "8051" ++ "&seat=2")
  = Some "8051".
Proof.
  apply (extract_theater_id_first ("https://x.il/iframe?a=1" ++ nl ++ "b") "8051" "&seat=2").
  - vm_compute; reflexivity.
  - vm_compute; reflexivity.
  - intros c t H; injection H as <- _; reflexivity.
Defined.

(** ** The handlers *)

Lemma dict_del_absent {A} (k : string) (d : list (string * A)) :
  dict_get k d = None -> dict_del k d = d.
Proof.
  induction d as [|[k' v] d IH]; simpl; [reflexivity|].
  destruct (String.eqb k k'); [discriminate|]; intros H; rewrite (IH H); reflexivity.
Qed.

Lemma dict_get_del_other {A} (k k' : string) (d : list (string * A)) :
  k' <> k -> dict_get k' (dict_del k d) = dict_get k' d.
Proof.
  intros Hne; induction d as [|[k0 v] d IH]; simpl; [reflexivity|].
  destruct (String.eqb_spec k k0) as [<-|]; simpl.
  - apply String.eqb_neq in Hne; rewrite Hne; reflexivity.
  - rewrite IH; reflexivity.
Qed.

Lemma dict_get_fresh {A} (k : string) (d : list (string * A)) :
  ~ In k (map fst d) -> dict_get k d = None.
Proof.
  induction d as [|[k1 v1] d IH]; simpl; intros Hn; [reflexivity|].
  destruct (String.eqb_spec k k1) as [->|]; [tauto|]; apply IH; tauto.
Qed.

Lemma dict_get_del_self {A} (k : string) (d : list (string * A)) :
  NoDup (map fst d) -> dict_get k (dict_del k d) = None.
Proof.
  induction d as [|[k0 v] d IH]; simpl; intros Hnd; [reflexivity|].
  inversion Hnd as [|? ? Hn Hnd']; subst.
  destruct (String.eqb_spec k k0) as [<-|Hne]; simpl.
  - apply dict_get_fresh; exact Hn.
  - apply String.eqb_neq in Hne; rewrite Hne; exact (IH Hnd').
Qed.

Lemma dict_get_set_other {A} (k k' : string) (v : A) (d : list (string * A)) :
  k' <> k -> dict_get k' (dict_set k v d) = dict_get k' d.
Proof.
  intros Hne; induction d as [|[k0 v0] d IH]; simpl.
  - apply String.eqb_neq in Hne; rewrite Hne; reflexivity.
  - destruct (String.eqb_spec k k0) as [<-|]; simpl.
    + apply String.eqb_neq in Hne; rewrite Hne; reflexivity.
    + rewrite IH; reflexivity.
Qed.

Lemma save_db_ok text dumps (st : BotState text) :
  save_db text dumps st = (Ok tt, snd (save_db text dumps st)).
Proof. destruct (save_db_spec text dumps st) as [post [-> _]]; reflexivity. Qed.

Lemma save_db_shows text dumps (st : BotState text) :
  monitored_shows text (snd (save_db text dumps st)) = monitored_shows text st.
Proof. destruct (save_db_spec text dumps st) as [post [-> _]]; reflexivity. Qed.

(** X4: pressing a [stop_<key>] button for a subscribed [key], whichever
    chat the subscription belongs to, deletes exactly that entry from the
    store, saves it with [save_db], cancels and unregisters the task stored
    under [key] (if any) and reports the show's id; the user state and the
    other tasks are untouched. *)
Theorem inline_stop_button text dumps env (k : string) (h : HState text) (sh : MonitoredShow) :
  api_error env = None ->
  dict_get k (monitored_shows text (bot text h)) = Some sh ->
  inline_button_handler text dumps env ("stop_" ++ k) h
  = (Ok tt,
     mkH text (snd (save_db text dumps
                      (mkState text (dict_del k (monitored_shows text (bot text h)))
                               (db_file text (bot text h)) (trace text (bot text h)))))
         (dict_del k (monitoring_tasks text h))
         (tasks_created text h)
         (List.app (tasks_cancelled text h)
                   (match dict_get k (monitoring_tasks text h) with Some t => [t] | None => [] end))
         (user_state text h)
         (List.app (api_log text h)
                   [Answer; EditText ("✅ Successfully stopped monitoring show " ++ theater_id sh) NoMarkup]))
  /\ (forall k', k' <> k ->
        dict_get k' (monitored_shows text (snd (save_db text dumps
                      (mkState text (dict_del k (monitored_shows text (bot text h)))
                               (db_file text (bot text h)) (trace text (bot text h))))))
        = dict_get k' (monitored_shows text (bot text h)))
  /\ (NoDup (map fst (monitored_shows text (bot text h))) ->
      dict_get k (monitored_shows text (snd (save_db text dumps
                      (mkState text (dict_del k (monitored_shows text (bot text h)))
                               (db_file text (bot text h)) (trace text (bot text h)))))) = None).
Proof.
  intros Hapi Hk; split; [|split].
  - unfold inline_button_handler, call_api, hbind; rewrite Hapi; cbn -[save_db].
    rewrite Hk; unfold save, on_bot; rewrite save_db_ok; cbn -[save_db].
    unfold stop_monitoring_task, edit_message_text, call_api; rewrite Hapi; cbn -[save_db].
    destruct (dict_get k (monitoring_tasks text h)) eqn:Et; cbn -[save_db].
    + rewrite <- app_assoc; reflexivity.
    + rewrite (dict_del_absent _ _ Et), <- app_assoc, app_nil_r; reflexivity.
  - intros k' Hne; rewrite save_db_shows; apply dict_get_del_other; exact Hne.
  - intros Hnd; rewrite save_db_shows; apply dict_get_del_self; exact Hnd.
Qed.

Lemma inline_stop_button_witness :
  fst (inline_button_handler tval ideal_dumps env_7 ("stop_" ++ "7_42") hstate_7_42) = Ok tt
  /\ monitored_shows tval (bot tval (snd (inline_button_handler tval ideal_dumps env_7
                                            ("stop_" ++ "7_42") hstate_7_42))) = [].
Proof.
  destruct (inline_stop_button tval ideal_dumps env_7 "7_42" hstate_7_42 (show_7_42 []))
    as [E _]; [reflexivity | reflexivity |].
  rewrite E; split; [reflexivity | vm_compute; reflexivity].
Defined.

(** X5: a [stop_<key>] button for a key that is no longer in the store
    only answers the query and says so: store, file, tasks and user state
    are unchanged. *)
Theorem inline_stop_missing text dumps env (k : string) (h : HState text) :
  api_error env = None ->
  dict_get k (monitored_shows text (bot text h)) = None ->
  inline_button_handler text dumps env ("stop_" ++ k) h
  = (Ok tt, mkH text (bot text h) (monitoring_tasks text h) (tasks_created text h)
                (tasks_cancelled text h) (user_state text h)
                (List.app (api_log text h)
                          [Answer; EditText "❌ The show is no longer being monitored." NoMarkup])).
Proof.
  intros Hapi Hk.
  unfold inline_button_handler, call_api, hbind; rewrite Hapi; cbn -[save_db].
  rewrite Hk; unfold edit_message_text, call_api; rewrite Hapi; cbn.
  rewrite <- app_assoc; reflexivity.
Qed.

Lemma inline_stop_missing_witness :
  fst (inline_button_handler tval ideal_dumps env_7 ("stop_" ++ "7_43") hstate_7_42) = Ok tt.
Proof.
  rewrite (inline_stop_missing tval ideal_dumps env_7 "7_43" hstate_7_42); reflexivity.
Defined.

Lemma digit_char (n : Z) : is_digit (ascii_of_nat (Z.to_nat (48 + n mod 10))) = true.
Proof.
  assert (Hm : 0 <= n mod 10 < 10) by (apply Z.mod_pos_bound; lia).
  unfold is_digit; rewrite nat_ascii_embedding by lia.
  apply andb_true_iff; split; apply Nat.leb_le; lia.
Qed.

Lemma digits_rev_head (f : nat) : forall (n : Z) (acc : string),
  (exists x y, acc = String x y /\ is_digit x = true) ->
  exists x y, digits_rev f n acc = String x y /\ is_digit x = true.
Proof.
  induction f as [|f IH]; intros n acc Hacc; simpl; [exact Hacc|].
  destruct (n <? 10)%Z; [|apply IH]; eexists; eexists; split; [reflexivity | apply digit_char |
                                                       reflexivity | apply digit_char].
Qed.

Lemma digits_rev_S (f : nat) (n : Z) (acc : string) :
  exists x y, digits_rev (S f) n acc = String x y /\ is_digit x = true.
Proof.
  simpl; destruct (n <? 10)%Z.
  - eexists; eexists; split; [reflexivity | apply digit_char].
  - apply digits_rev_head; eexists; eexists; split; [reflexivity | apply digit_char].
Qed.

(** [str(z)] starts with a digit or with a minus sign. *)
Lemma py_str_head (z : Z) :
  exists x y, py_str z = String x y /\ (is_digit x = true \/ x = "-"%char).
Proof.
  unfold py_str; destruct (z <? 0)%Z.
  - eexists; eexists; split; [reflexivity | right; reflexivity].
  - destruct (digits_rev_S (Z.to_nat (Z.log2 z)) z "") as [x [y [E Hx]]].
    exists x, y; split; [exact E | left; exact Hx].
Qed.

Lemma max_row_key_fresh (c : Z) (t k : string) : py_str c ++ "_" ++ t <> "max_row_" ++ k.
Proof.
  destruct (py_str_head c) as [x [y [E Hx]]]; rewrite E; simpl; intros H.
  injection H as Hm _; subst x.
  destruct Hx as [Hx|Hx]; [vm_compute in Hx |]; discriminate.
Qed.

(** X6: the [Change Max Row] button of the manage view never works.
    Its callback data is [change_max_row_<key>], and the handler takes
    [split('_', 1)[1]], i.e. [max_row_<key>], as the key.  When every key
    of the store has the form [f"{chat_id}_{theater_id}"] that
    [handle_max_row_input] gives it, no such key exists: the button only
    answers [Show not found], and the user is never asked for a new
    maximum row (no [ChangeMaxRowState] is set). *)
Theorem change_max_row_button_not_found text dumps env (k : string) (h : HState text) :
  api_error env = None ->
  (forall k', In k' (map fst (monitored_shows text (bot text h))) ->
              exists (c : Z) (t : string), k' = py_str c ++ "_" ++ t) ->
  inline_button_handler text dumps env ("change_max_row_" ++ k) h
  = (Ok tt, mkH text (bot text h) (monitoring_tasks text h) (tasks_created text h)
                (tasks_cancelled text h) (user_state text h)
                (List.app (api_log text h) [Answer; EditText "❌ Show not found." NoMarkup])).
Proof.
  intros Hapi Hkeys.
  assert (Hk : dict_get ("max_row_" ++ k) (monitored_shows text (bot text h)) = None).
  { apply dict_get_fresh; intros Hin; destruct (Hkeys _ Hin) as [c [t E]].
    exact (max_row_key_fresh c t k (eq_sym E)). }
  unfold inline_button_handler, call_api, hbind; rewrite Hapi; cbn -[save_db].
  cbn in Hk; rewrite Hk; unfold edit_message_text, call_api; rewrite Hapi; cbn.
  rewrite <- app_assoc; reflexivity.
Qed.

Lemma change_max_row_button_not_found_witness :
  inline_button_handler tval ideal_dumps env_7 ("change_max_row_" ++ "7_42") hstate_7_42
  = (Ok tt, mkH tval (bot tval hstate_7_42) [("7_42", 0%nat)] [(0%nat, mkTask "42" 2 7 "7_42")]
                [] None [Answer; EditText "❌ Show not found." NoMarkup]).
Proof.
  rewrite (change_max_row_button_not_found tval ideal_dumps env_7 "7_42" hstate_7_42).
  - reflexivity.
  - reflexivity.
  - intros k' [<-|[]]; exists 7, "42"; reflexivity.
Defined.

Lemma strip_digit_text (s : string) : isdigit s = true -> rstrip (lstrip s) = s.
Proof.
  destruct s as [|c t]; [discriminate|]; intros H.
  change (isdigit (String c t)) with (is_digit c && all_digits t) in H.
  apply andb_true_iff in H as [Hc Ht].
  simpl; rewrite (digit_not_space c Hc).
  apply rstrip_digits; simpl; rewrite Hc, Ht; reflexivity.
Qed.

Lemma str_eqb_head (c b : ascii) (t u : string) :
  Ascii.eqb c b = false -> String.eqb (String c t) (String b u) = false.
Proof.
  intros H; destruct (String.eqb_spec (String c t) (String b u)) as [E|]; [|reflexivity].
  injection E as -> _; rewrite Ascii.eqb_refl in H; discriminate.
Qed.

Lemma digit_neq (c b : ascii) : is_digit c = true -> is_digit b = false -> Ascii.eqb c b = false.
Proof.
  intros Hc Hb; destruct (Ascii.eqb_spec c b) as [<-|]; [congruence | reflexivity].
Qed.

Lemma buttons_split (t : string) :
  existsb (String.eqb t) button_commands = false ->
  String.eqb t find_btn = false /\ String.eqb t monitor_btn = false
  /\ String.eqb t myshows_btn = false /\ String.eqb t stop_btn = false
  /\ String.eqb t help_btn = false.
Proof.
  unfold button_commands; cbn [existsb]; intros H.
  repeat (apply orb_false_iff in H as [? H]); repeat split; assumption.
Qed.

(** A number typed by the user is not a menu button and not a URL. *)
Lemma digit_text_menu (s : string) :
  isdigit s = true ->
  existsb (String.eqb s) button_commands = false /\ py_startswith "http" s = false.
Proof.
  destruct s as [|c t]; [discriminate|]; intros H.
  change (isdigit (String c t)) with (is_digit c && all_digits t) in H.
  apply andb_true_iff in H as [Hc _]; split.
  - unfold button_commands, find_btn, monitor_btn, myshows_btn, stop_btn, help_btn.
    cbn [existsb].
    rewrite !str_eqb_head by (apply digit_neq; [exact Hc | reflexivity]); reflexivity.
  - unfold py_startswith; cbn [strip_prefix].
    destruct (Ascii.eqb_spec "h"%char c) as [<-|]; [discriminate | reflexivity].
Qed.

(** X7: in the [ChangeMaxRowState] of a stored key, a number [n]
    (digits only) sets that subscription's max_row to [n] ([None] for
    [0]), keeps every other field, saves the store, confirms, and clears
    the user state; the tasks are not touched. *)
Theorem change_max_row_input_updates text dumps env (raw key : string) (h : HState text)
  (sh : MonitoredShow) (n : Z) :
  api_error env = None ->
  user_state text h = Some (ChangeMaxRowState key) ->
  key <> "" ->
  dict_get key (monitored_shows text (bot text h)) = Some sh ->
  isdigit raw = true -> py_int raw = Some n ->
  handle_message text dumps env raw h
  = (Ok tt,
     mkH text (snd (save_db text dumps
                      (mkState text (dict_set key (set_max_row sh (if Z.eqb n 0 then None else Some n))
                                              (monitored_shows text (bot text h)))
                               (db_file text (bot text h)) (trace text (bot text h)))))
         (monitoring_tasks text h) (tasks_created text h) (tasks_cancelled text h) None
         (List.app (api_log text h)
            [SendText ("✅ Successfully updated max row to "
                       ++ (if Z.eqb n 0 then "unlimited" else py_str n)
                       ++ " for show " ++ theater_id sh ++ ".") get_main_menu_keyboard])).
Proof.
  intros Hapi Hus Hkne Hk Hd Hn.
  destruct (digit_text_menu raw Hd) as [Hb _].
  destruct (buttons_split raw Hb) as [H1 [H2 [H3 [H4 H5]]]].
  unfold handle_message; rewrite (strip_digit_text raw Hd).
  unfold hbind at 1, get_user_state; rewrite Hus; cbn [is_input_state andb]; rewrite Hb.
  unfold hret, hbind at 1; rewrite H1, H2, H3, H4, H5.
  unfold hbind at 1; rewrite Hus.
  unfold change_max_row_input; rewrite Hd; cbn [negb].
  unfold hbind at 1, hlift, parse_max_row; rewrite Hn.
  unfold hbind at 1, get_shows.
  destruct key as [|c0 key0]; [congruence|]; rewrite Hk.
  unfold hbind, set_shows, save, on_bot; rewrite save_db_ok; cbn -[save_db].
  unfold reply_text, call_api; rewrite Hapi; cbn -[save_db].
  unfold set_user_state; destruct (Z.eqb n 0); reflexivity.
Qed.

Lemma change_max_row_input_updates_witness :
  let h := mkH tval (state_7_42 []) [("7_42", 0%nat)] [(0%nat, mkTask "42" 2 7 "7_42")] []
                (Some (ChangeMaxRowState "7_42")) [] in
  handle_message tval ideal_dumps env_7 "5" h
  = (Ok tt,
     mkH tval (snd (save_db tval ideal_dumps
                      (mkState tval (dict_set "7_42" (set_max_row (show_7_42 []) (Some 5%Z))
                                              (monitored_shows tval (bot tval h)))
                               (db_file tval (bot tval h)) (trace tval (bot tval h)))))
         (monitoring_tasks tval h) (tasks_created tval h) (tasks_cancelled tval h) None
         (List.app (api_log tval h)
            [SendText ("✅ Successfully updated max row to " ++ py_str 5%Z
                       ++ " for show " ++ theater_id (show_7_42 []) ++ ".") get_main_menu_keyboard])).
Proof.
  intros h.
  apply (change_max_row_input_updates tval ideal_dumps env_7 "5" "7_42" h (show_7_42 []) 5%Z).
  - reflexivity.
  - reflexivity.
  - discriminate.
  - reflexivity.
  - reflexivity.
  - reflexivity.
Defined.

(** X8: while the bot waits for a number (a new maximum row, or the
    minimum seats or maximum row of a monitor setup), a message that is
    neither a number nor a menu button only gets a reply asking again for
    a number; the store, the tasks and the waiting state are unchanged. *)
Theorem input_state_rejects_non_number text dumps env (raw : string) (h : HState text)
  (s : ustate) :
  api_error env = None ->
  user_state text h = Some s ->
  ((exists key, s = ChangeMaxRowState key)
   \/ (exists tid tmin w, s = MonitorSetupState tid (Some w) tmin
                          /\ (w = "min_seats" \/ w = "max_row_setup"))) ->
  isdigit (rstrip (lstrip raw)) = false ->
  existsb (String.eqb (rstrip (lstrip raw))) button_commands = false ->
  exists msg,
    handle_message text dumps env raw h
    = (Ok tt, mkH text (bot text h) (monitoring_tasks text h) (tasks_created text h)
                  (tasks_cancelled text h) (Some s)
                  (List.app (api_log text h) [SendText msg get_main_menu_keyboard])).
Proof.
  intros Hapi Hus Hs Hd Hb.
  destruct (buttons_split _ Hb) as [H1 [H2 [H3 [H4 H5]]]].
  unfold handle_message; cbv zeta.
  remember (rstrip (lstrip raw)) as t eqn:Ht; clear Ht.
  unfold hbind at 1, get_user_state; rewrite Hus; rewrite Hb, andb_false_r.
  unfold hret, hbind at 1; rewrite H1, H2, H3, H4, H5.
  unfold hbind at 1; rewrite Hus.
  destruct Hs as [[key ->] | [tid [tmin [w [-> [-> | ->]]]]]].
  - eexists; unfold change_max_row_input; rewrite Hd; cbn [negb].
    unfold reply_text, call_api; rewrite Hapi; rewrite Hus; reflexivity.
  - eexists; cbn [String.eqb Ascii.eqb Bool.eqb].
    unfold handle_min_seats_input; rewrite Hd; cbn [negb].
    unfold reply_text, call_api; rewrite Hapi; rewrite Hus; reflexivity.
  - eexists; cbn [String.eqb Ascii.eqb Bool.eqb].
    unfold handle_max_row_input; rewrite Hd; cbn [negb].
    unfold reply_text, call_api; rewrite Hapi; rewrite Hus; reflexivity.
Qed.

Lemma input_state_rejects_non_number_witness :
  exists msg,
    handle_message tval ideal_dumps env_7 " abc "
      (mkH tval (state_7_42 []) [] [] [] (Some (ChangeMaxRowState "7_42")) [])
    = (Ok tt, mkH tval (state_7_42 []) [] [] [] (Some (ChangeMaxRowState "7_42"))
                  [SendText msg get_main_menu_keyboard]).
Proof.
  apply (input_state_rejects_non_number tval ideal_dumps env_7 " abc "
           (mkH tval (state_7_42 []) [] [] [] (Some (ChangeMaxRowState "7_42")) [])
           (ChangeMaxRowState "7_42")).
  - reflexivity.
  - reflexivity.
  - left; exists "7_42"; reflexivity.
  - reflexivity.
  - reflexivity.
Defined.

(** X9: in the first step of a monitor setup for a show id [tid], a
    number [n] makes the bot ask for the maximum row and wait for it,
    remembering [tid] and [n]; the store and the tasks are unchanged. *)
Theorem monitor_setup_min_seats_step text dumps env (raw tid : string) (tmin : option Z)
  (h : HState text) (n : Z) :
  api_error env = None ->
  user_state text h = Some (MonitorSetupState (Some tid) (Some "min_seats") tmin) ->
  tid <> "" ->
  isdigit raw = true -> py_int raw = Some n ->
  handle_message text dumps env raw h
  = (Ok tt, mkH text (bot text h) (monitoring_tasks text h) (tasks_created text h)
                (tasks_cancelled text h)
                (Some (MonitorSetupState (Some tid) (Some "max_row_setup") (Some n)))
                (List.app (api_log text h)
                   [SendText "What is the maximum row number you want to consider? (Enter a number, or 0 for unlimited)"
                             get_main_menu_keyboard])).
Proof.
  intros Hapi Hus Htid Hd Hn.
  destruct (digit_text_menu raw Hd) as [Hb _].
  destruct (buttons_split raw Hb) as [H1 [H2 [H3 [H4 H5]]]].
  unfold handle_message; rewrite (strip_digit_text raw Hd).
  unfold hbind at 1, get_user_state; rewrite Hus; rewrite Hb, andb_false_r.
  unfold hret, hbind at 1; rewrite H1, H2, H3, H4, H5.
  unfold hbind at 1; rewrite Hus; cbn [String.eqb Ascii.eqb Bool.eqb].
  unfold handle_min_seats_input; rewrite Hd; cbn [negb].
  unfold hbind at 1, hlift; rewrite Hn.
  destruct tid as [|c tid']; [congruence|]; cbn [truthy negb].
  unfold hbind, reply_text, call_api; rewrite Hapi; reflexivity.
Qed.

Lemma monitor_setup_min_seats_step_witness :
  handle_message tval ideal_dumps env_7 "3"
    (mkH tval (state_7_42 []) [] [] [] (Some (MonitorSetupState (Some "42") (Some "min_seats") None)) [])
  = (Ok tt, mkH tval (state_7_42 []) [] [] []
                (Some (MonitorSetupState (Some "42") (Some "max_row_setup") (Some 3%Z)))
                [SendText "What is the maximum row number you want to consider? (Enter a number, or 0 for unlimited)"
                          get_main_menu_keyboard]).
Proof.
  apply (monitor_setup_min_seats_step tval ideal_dumps env_7 "3" "42" None
           (mkH tval (state_7_42 []) [] [] [] (Some (MonitorSetupState (Some "42") (Some "min_seats") None)) [])
           3%Z).
  - reflexivity.
  - reflexivity.
  - discriminate.
  - reflexivity.
  - reflexivity.
Defined.

(** X10: in the second step of a monitor setup for show [tid] and
    minimum [n], a number [m] subscribes the chat: the entry
    [<chat_id>_<tid>] is set to a fresh show (no groups yet, maximum row
    [m], or none for 0), the store is saved, the task stored under this
    key (if any) is cancelled, a new task for the show is created and
    registered under the key, a confirmation is sent and the state is
    cleared. *)
Theorem monitor_setup_max_row_step text dumps env (raw tid : string) (h : HState text)
  (n m : Z) :
  api_error env = None ->
  user_state text h = Some (MonitorSetupState (Some tid) (Some "max_row_setup") (Some n)) ->
  tid <> "" ->
  isdigit raw = true -> py_int raw = Some m ->
  let key := py_str (update_chat env) ++ "_" ++ tid in
  let mr := if Z.eqb m 0 then None else Some m in
  handle_message text dumps env raw h
  = (Ok tt,
     mkH text
       (snd (save_db text dumps
               (mkState text (dict_set key (mkShow (update_chat env) tid n (now_iso env) [] mr)
                                       (monitored_shows text (bot text h)))
                        (db_file text (bot text h)) (trace text (bot text h)))))
       (dict_set key (List.length (tasks_created text h)) (monitoring_tasks text h))
       (List.app (tasks_created text h)
          [(List.length (tasks_created text h), mkTask tid n (update_chat env) key)])
       (match dict_get key (monitoring_tasks text h) with
        | Some t => List.app (tasks_cancelled text h) [t]
        | None => tasks_cancelled text h
        end)
       None
       (List.app (api_log text h) [SendText (started_message tid n mr) get_main_menu_keyboard])).
Proof.
  intros Hapi Hus Htid Hd Hm key mr.
  destruct (digit_text_menu raw Hd) as [Hb _].
  destruct (buttons_split raw Hb) as [H1 [H2 [H3 [H4 H5]]]].
  unfold handle_message; rewrite (strip_digit_text raw Hd).
  unfold hbind at 1, get_user_state; rewrite Hus; rewrite Hb, andb_false_r.
  unfold hret, hbind at 1; rewrite H1, H2, H3, H4, H5.
  unfold hbind at 1; rewrite Hus; cbn [String.eqb Ascii.eqb Bool.eqb].
  unfold handle_max_row_input; rewrite Hd; cbn [negb].
  unfold hbind at 1, hlift, parse_max_row; rewrite Hm.
  destruct tid as [|c tid']; [congruence|]; cbn [truthy negb].
  unfold hbind, get_shows, set_shows, save, on_bot; rewrite save_db_ok; cbn -[save_db].
  unfold start_monitoring_task, reply_text, call_api; rewrite Hapi; cbn -[save_db].
  reflexivity.
Qed.

Lemma monitor_setup_max_row_step_witness :
  let h := mkH tval (state_7_42 []) [("7_42", 0%nat)] [(0%nat, mkTask "42" 2 7 "7_42")] []
                (Some (MonitorSetupState (Some "42") (Some "max_row_setup") (Some 3%Z))) [] in
  handle_message tval ideal_dumps env_7 "0" h
  = (Ok tt,
     mkH tval
       (snd (save_db tval ideal_dumps
               (mkState tval (dict_set "7_42" (mkShow 7 "42" 3 "2026-01-01T12:00:00" [] None)
                                       (monitored_shows tval (bot tval h)))
                        (db_file tval (bot tval h)) (trace tval (bot tval h)))))
       [("7_42", 1%nat)]
       [(0%nat, mkTask "42" 2 7 "7_42"); (1%nat, mkTask "42" 3 7 "7_42")]
       [0%nat]
       None
       [SendText (started_message "42" 3 None) get_main_menu_keyboard]).
Proof.
  intros h.
  apply (monitor_setup_max_row_step tval ideal_dumps env_7 "0" "42" h 3%Z 0%Z).
  - reflexivity.
  - reflexivity.
  - discriminate.
  - reflexivity.
  - reflexivity.
Defined.

(** ** Which handlers leave the store and the tasks alone *)

Lemma kf_run {T A} (m : HM T A) (h : HState T) :
  keeps_frame m -> frame (snd (m h)) = frame h.
Proof. intros Hm; apply Hm. Qed.

Lemma kf_bind {T A B} (m : HM T A) (k : A -> HM T B) :
  keeps_frame m -> (forall a, keeps_frame (k a)) -> keeps_frame (hbind T m k).
Proof.
  intros Hm Hk h; unfold hbind.
  specialize (Hm h); destruct (m h) as [[a|e] h'] eqn:E; cbn in Hm |- *.
  - rewrite Hk; exact Hm.
  - exact Hm.
Qed.

Lemma kf_ret {T A} (a : A) : keeps_frame (hret T a).
Proof. intros h; reflexivity. Qed.

Lemma kf_hlift {T A} (r : result A) : keeps_frame (hlift T r).
Proof. intros h; reflexivity. Qed.

Lemma kf_call_api {T} env c : keeps_frame (call_api T env c).
Proof. intros h; unfold call_api; destruct (api_error env); reflexivity. Qed.

Lemma kf_reply_text {T} env msg mk : keeps_frame (reply_text T env msg mk).
Proof. apply kf_call_api. Qed.

Lemma kf_edit_message_text {T} env msg mk : keeps_frame (edit_message_text T env msg mk).
Proof. apply kf_call_api. Qed.

Lemma kf_set_user_state {T} s : keeps_frame (set_user_state T s).
Proof. intros h; reflexivity. Qed.

Lemma kf_get_user_state {T} : keeps_frame (get_user_state T).
Proof. intros h; reflexivity. Qed.

Lemma kf_get_shows {T} : keeps_frame (get_shows T).
Proof. intros h; reflexivity. Qed.

Lemma kf_fetch {T} env : keeps_frame (fetch T env).
Proof.
  intros h; unfold fetch, on_bot.
  rewrite fetch_state; destruct (fst _); reflexivity.
Qed.

Create HintDb keeps_frame_db.
#[local] Hint Resolve kf_ret kf_hlift kf_call_api kf_reply_text kf_edit_message_text
  kf_set_user_state kf_get_user_state kf_get_shows kf_fetch : keeps_frame_db.

Ltac kf_solve :=
  repeat (apply kf_bind; [auto with keeps_frame_db | intros ?]);
  auto with keeps_frame_db.

Lemma kf_list_shows {T} env : keeps_frame (list_shows T env).
Proof. unfold list_shows; kf_solve; destruct (user_shows env _); kf_solve. Qed.

Lemma kf_list_stops {T} env : keeps_frame (list_stops T env).
Proof. unfold list_stops; kf_solve; destruct (user_shows env _); kf_solve. Qed.

Lemma kf_handle_url {T} env url : keeps_frame (handle_url T env url).
Proof. unfold handle_url; destruct (extract_theater_id url) as [[|]|]; kf_solve. Qed.

Lemma kf_find_seats_for_url {T} env url : keeps_frame (find_seats_for_url T env url).
Proof.
  unfold find_seats_for_url; destruct (extract_theater_id url) as [[|]|]; kf_solve.
  match goal with x : list Seat |- _ => destruct x end; kf_solve.
Qed.

Lemma kf_handle_min_seats_input {T} env text tid :
  keeps_frame (handle_min_seats_input T env text tid).
Proof.
  unfold handle_min_seats_input; destruct (negb (isdigit text)); kf_solve.
  destruct (negb (truthy tid)); kf_solve.
Qed.

Lemma kf_handle_max_row_nondigit {T} dumps env text tid tmin :
  isdigit text = false -> keeps_frame (handle_max_row_input T dumps env text tid tmin).
Proof. intros Hd; unfold handle_max_row_input; rewrite Hd; cbn [negb]; kf_solve. Qed.

Lemma kf_change_max_row_nondigit {T} dumps env text key :
  isdigit text = false -> keeps_frame (change_max_row_input T dumps env text key).
Proof. intros Hd; unfold change_max_row_input; rewrite Hd; cbn [negb]; kf_solve. Qed.

Lemma hbind_set_user_state {T B} s (k : unit -> HM T B) (h : HState T) :
  hbind T (set_user_state T s) k h
  = k tt (mkH T (bot T h) (monitoring_tasks T h) (tasks_created T h) (tasks_cancelled T h)
              s (api_log T h)).
Proof. reflexivity. Qed.

Lemma hbind_get_user_state {T B} (k : option ustate -> HM T B) (h : HState T) :
  hbind T (get_user_state T) k h = k (user_state T h) h.
Proof. reflexivity. Qed.

Lemma hbind_hret {T A B} (a : A) (k : A -> HM T B) (h : HState T) :
  hbind T (hret T a) k h = k a h.
Proof. reflexivity. Qed.

Lemma kf_run_command {T} dumps env c : keeps_frame (run_command T dumps env c).
Proof.
  destruct c; cbn [run_command];
    unfold start_command, help_command, find_command, monitor_command, myshows_command,
      stop_command; try apply kf_list_shows; try apply kf_list_stops; kf_solve.
Qed.

Ltac kf_url :=
  match goal with
  | Hf : frame ?h1 = _ |- context [py_startswith "http" ?x] =>
      destruct (py_startswith "http" x);
      (rewrite kf_run; [exact Hf | first [apply kf_handle_url | kf_solve]])
  end.

Ltac kf_find :=
  match goal with Hf : frame ?h1 = _ |- _ =>
    rewrite kf_run; [exact Hf | apply kf_bind; [apply kf_find_seats_for_url | intros ?; apply kf_set_user_state]]
  end.

Ltac kf_dispatch Hc :=
  match goal with Hf : frame ?h1 = _ |- _ =>
    destruct (_ =? find_btn); [rewrite kf_run; [exact Hf | kf_solve] |];
    destruct (_ =? monitor_btn); [rewrite kf_run; [exact Hf | kf_solve] |];
    destruct (_ =? myshows_btn); [rewrite kf_run; [exact Hf | apply kf_list_shows] |];
    destruct (_ =? stop_btn); [rewrite kf_run; [exact Hf | apply kf_list_stops] |];
    destruct (_ =? help_btn); [rewrite kf_run; [exact Hf | kf_solve] |];
    rewrite hbind_get_user_state; cbv beta;
    destruct (user_state _ h1) as [[| |tid [w|] tmin|key]|] eqn:Es;
    [kf_url | kf_find | | kf_url | | kf_url];
    [destruct (w =? "min_seats");
       [rewrite kf_run; [exact Hf | apply kf_handle_min_seats_input] |];
     destruct (String.eqb_spec w "max_row_setup") as [->|_];
       [destruct Hc as [Hd | [_ Hn]];
          [rewrite kf_run; [exact Hf | apply kf_handle_max_row_nondigit; exact Hd]
          | exfalso; eapply Hn; reflexivity] |];
     kf_url
    |destruct Hc as [Hd | [Hn _]];
       [rewrite kf_run; [exact Hf | apply kf_change_max_row_nondigit; exact Hd]
       | exfalso; eapply Hn; reflexivity]]
  end.

Lemma handle_message_frame T dumps env (raw : string) (h : HState T) :
  isdigit (rstrip (lstrip raw)) = false
  \/ ((forall key, user_state T h <> Some (ChangeMaxRowState key))
      /\ (forall tid tmin, user_state T h <> Some (MonitorSetupState tid (Some "max_row_setup") tmin))) ->
  frame (snd (handle_message T dumps env raw h)) = frame h.
Proof.
  intros Hc; unfold handle_message; cbv zeta.
  remember (rstrip (lstrip raw)) as t eqn:Ht; clear Ht.
  rewrite hbind_get_user_state; cbv beta.
  destruct (is_input_state (user_state T h) && existsb (String.eqb t) button_commands).
  - rewrite hbind_set_user_state; cbv beta.
    match goal with |- frame (snd (?R ?h1)) = _ =>
      assert (Hf : frame h1 = frame h) by reflexivity;
      assert (Hp : isdigit t = false
                   \/ ((forall key, user_state T h1 <> Some (ChangeMaxRowState key))
                       /\ (forall tid tmin, user_state T h1
                                            <> Some (MonitorSetupState tid (Some "max_row_setup") tmin))))
        by (right; split; intros; discriminate);
      revert Hf Hp; generalize h1 end.
    clear Hc; intros h1 Hf Hc; kf_dispatch Hc.
  - rewrite hbind_hret; cbv beta.
    match goal with |- frame (snd (?R ?h1)) = _ =>
      assert (Hf : frame h1 = frame h) by reflexivity; revert Hf Hc; generalize h1 end.
    intros h1 Hf Hc; kf_dispatch Hc.
Qed.

(** X11: a text message changes neither the store nor the tasks unless
    it is a number sent while the bot waits for a maximum row (for a new
    subscription or for an existing one). *)
Theorem handle_message_keeps_frame T dumps env (raw : string) (h : HState T) :
  isdigit (rstrip (lstrip raw)) = false
  \/ ((forall key, user_state T h <> Some (ChangeMaxRowState key))
      /\ (forall tid tmin, user_state T h <> Some (MonitorSetupState tid (Some "max_row_setup") tmin))) ->
  frame (snd (handle_message T dumps env raw h)) = frame h.
Proof. apply handle_message_frame. Qed.


Lemma handle_message_keeps_frame_witness :
  frame (snd (handle_message tval ideal_dumps env_7 "5" hstate_7_42)) = frame hstate_7_42.
Proof.
  apply (handle_message_keeps_frame tval ideal_dumps env_7 "5" hstate_7_42).
  right; split; intros; discriminate.
Defined.

(** X12: none of the commands [/start], [/help], [/find], [/monitor],
    [/myshows] and [/stop] changes the store or the tasks. *)
Theorem commands_keep_frame T dumps env (c : command) (h : HState T) :
  frame (snd (run_command T dumps env c h)) = frame h.
Proof. apply kf_run, kf_run_command. Qed.

Lemma strip_monitor_btn : rstrip (lstrip monitor_btn) = monitor_btn.
Proof. reflexivity. Qed.

(** X13: the [➕ Monitor Show] button only asks for a URL and enters the
    same state as [🔍 Find Available Seats], whatever state the bot was
    in; so the message that follows changes neither the store nor the
    tasks: monitoring is never set up from this button. *)
Theorem monitor_button_never_subscribes T dumps env env' (raw : string) (h : HState T) :
  api_error env = None ->
  handle_message T dumps env monitor_btn h
  = (Ok tt, mkH T (bot T h) (monitoring_tasks T h) (tasks_created T h) (tasks_cancelled T h)
                (Some FindSeatsState)
                (List.app (api_log T h)
                   [SendText "Please send me the show URL to monitor" get_main_menu_keyboard]))
  /\ frame (snd (handle_message T dumps env' raw (snd (handle_message T dumps env monitor_btn h))))
     = frame h.
Proof.
  intros Hapi.
  assert (E : handle_message T dumps env monitor_btn h
              = (Ok tt, mkH T (bot T h) (monitoring_tasks T h) (tasks_created T h)
                            (tasks_cancelled T h) (Some FindSeatsState)
                            (List.app (api_log T h)
                               [SendText "Please send me the show URL to monitor"
                                         get_main_menu_keyboard]))).
  { unfold handle_message; cbv zeta; rewrite strip_monitor_btn.
    rewrite hbind_get_user_state; cbv beta.
    destruct (is_input_state (user_state T h) && existsb (String.eqb monitor_btn) button_commands);
      [rewrite hbind_set_user_state | rewrite hbind_hret]; cbv beta; cbn - [reply_text];
      unfold hbind, reply_text, call_api; rewrite Hapi; reflexivity. }
  split; [exact E|].
  rewrite handle_message_frame; rewrite E; [reflexivity|].
  right; split; intros; discriminate.
Qed.

Lemma monitor_button_never_subscribes_witness :
  frame (snd (handle_message tval ideal_dumps env_7 "3"
                (snd (handle_message tval ideal_dumps env_7 monitor_btn
                        (mkH tval (state_7_42 []) [] [] []
                             (Some (MonitorSetupState (Some "42") (Some "max_row_setup") (Some 2%Z)))
                             [])))))
  = frame (mkH tval (state_7_42 []) [] [] []
               (Some (MonitorSetupState (Some "42") (Some "max_row_setup") (Some 2%Z))) []).
Proof.
  apply (monitor_button_never_subscribes tval ideal_dumps env_7 env_7 "3").
  reflexivity.
Defined.

(** ** The task registry *)

#[local] Hint Resolve kf_list_shows kf_list_stops kf_handle_url kf_find_seats_for_url
  kf_handle_min_seats_input : keeps_frame_db.

Lemma dict_set_keys_in {A} (k x : string) (v : A) (d : list (string * A)) :
  In x (map fst (dict_set k v d)) -> x = k \/ In x (map fst d).
Proof.
  induction d as [|[k' v'] d IH]; simpl.
  - intros [->|[]]; left; reflexivity.
  - destruct (String.eqb k k'); simpl; intros [->|Hx]; auto.
    destruct (IH Hx); auto.
Qed.

Lemma NoDup_dict_set {A} (k : string) (v : A) (d : list (string * A)) :
  NoDup (map fst d) -> NoDup (map fst (dict_set k v d)).
Proof.
  induction d as [|[k' v'] d IH]; simpl; intros Hnd.
  - constructor; [intros []|constructor].
  - inversion Hnd as [|? ? Hn Hnd']; subst.
    destruct (String.eqb_spec k k') as [->|Hne]; simpl; [exact Hnd|].
    constructor; [|exact (IH Hnd')].
    intros Hx; destruct (dict_set_keys_in k k' v d Hx); [congruence | contradiction].
Qed.

Lemma dict_del_keys_in {A} (k x : string) (d : list (string * A)) :
  In x (map fst (dict_del k d)) -> In x (map fst d).
Proof.
  induction d as [|[k' v'] d IH]; simpl; [tauto|].
  destruct (String.eqb k k'); simpl; intros; tauto.
Qed.

Lemma NoDup_dict_del {A} (k : string) (d : list (string * A)) :
  NoDup (map fst d) -> NoDup (map fst (dict_del k d)).
Proof.
  induction d as [|[k' v'] d IH]; simpl; intros Hnd; [exact Hnd|].
  inversion Hnd as [|? ? Hn Hnd']; subst.
  destruct (String.eqb k k'); simpl; [exact Hnd'|].
  constructor; [|exact (IH Hnd')].
  intros Hx; exact (Hn (dict_del_keys_in k k' d Hx)).
Qed.

Lemma fst_unique {B} (l : list (nat * B)) (a : nat) (b1 b2 : B) :
  NoDup (map fst l) -> In (a, b1) l -> In (a, b2) l -> b1 = b2.
Proof.
  induction l as [|[a' b'] l IH]; simpl; [tauto|].
  intros Hnd; inversion Hnd as [|? ? Hn Hnd']; subst.
  intros [E1|H1] [E2|H2].
  - congruence.
  - injection E1 as -> ->; exfalso; apply Hn.
    apply (in_map fst) in H2; exact H2.
  - injection E2 as -> ->; exfalso; apply Hn.
    apply (in_map fst) in H1; exact H1.
  - exact (IH Hnd' H1 H2).
Qed.

Lemma created_lt (c : list (nat * TaskSpec)) (t : nat) (sp : TaskSpec) :
  map fst c = seq 0 (List.length c) -> In (t, sp) c -> (t < List.length c)%nat.
Proof.
  intros Hc Hin; apply (in_map fst) in Hin; cbn in Hin; rewrite Hc in Hin.
  apply in_seq in Hin; lia.
Qed.

Lemma created_nodup (c : list (nat * TaskSpec)) :
  map fst c = seq 0 (List.length c) -> NoDup (map fst c).
Proof. intros Hc; rewrite Hc; apply seq_NoDup. Qed.

Lemma start_monitoring_task_tasks_ok {T} key tid min chat :
  preserves tasks_ok (start_monitoring_task T key tid min chat).
Proof.
  intros h [H1 [H2 [H3 [H4 H5]]]]; unfold start_monitoring_task; cbn [snd].
  set (n := List.length (tasks_created T h)).
  set (canc := match dict_get key (monitoring_tasks T h) with
               | Some t => List.app (tasks_cancelled T h) [t]
               | None => tasks_cancelled T h
               end).
  assert (Ca : forall x, In x canc -> In x (tasks_cancelled T h)
                                      \/ dict_get key (monitoring_tasks T h) = Some x).
  { intros x; unfold canc; destruct (dict_get key _); [|tauto].
    intros Hx; apply in_app_or in Hx as [Hx|[<-|[]]]; tauto. }
  assert (Cb : forall x, In x (tasks_cancelled T h) -> In x canc).
  { intros x; unfold canc; destruct (dict_get key _); [|tauto].
    intros Hx; apply in_or_app; left; exact Hx. }
  assert (Cc : forall x, dict_get key (monitoring_tasks T h) = Some x -> In x canc).
  { intros x; unfold canc; intros E; rewrite E; apply in_or_app; right; left; reflexivity. }
  assert (Hlt : forall x, In x canc -> (x < n)%nat).
  { intros x Hx; destruct (Ca x Hx) as [Hx'|E]; [exact (H3 x Hx')|].
    destruct (H4 key x E) as [sp [Hin _]]; exact (created_lt _ _ _ H2 Hin). }
  clearbody canc.
  unfold tasks_ok; cbn [monitoring_tasks tasks_created tasks_cancelled task_key].
  split; [apply NoDup_dict_set; exact H1|].
  split.
  { rewrite map_app, H2, length_app; cbn [map fst List.length].
    rewrite Nat.add_1_r, seq_S; reflexivity. }
  split.
  { intros x Hx; rewrite length_app; cbn [List.length]; specialize (Hlt x Hx); lia. }
  split.
  { intros k t Hk; destruct (String.eqb_spec k key) as [->|Hne].
    - rewrite dict_get_set in Hk; injection Hk as <-.
      exists (mkTask tid min chat key); split; [apply in_or_app; right; left; reflexivity|].
      split; [reflexivity|]; intros Hx; specialize (Hlt n Hx); lia.
    - rewrite dict_get_set_other in Hk by exact Hne.
      destruct (H4 k t Hk) as [sp [Hin [Hks Hnc]]].
      exists sp; split; [apply in_or_app; left; exact Hin|]; split; [exact Hks|].
      intros Hx; destruct (Ca t Hx) as [Hx'|E]; [exact (Hnc Hx')|].
      destruct (H4 key t E) as [sp0 [Hin0 [Hks0 _]]].
      rewrite (fst_unique _ t sp sp0 (created_nodup _ H2) Hin Hin0) in Hks; congruence. }
  { intros t sp Hin Hnc; apply in_app_or in Hin as [Hin|[E|[]]].
    - assert (Hnc' : ~ In t (tasks_cancelled T h)) by (intros Hx; exact (Hnc (Cb t Hx))).
      specialize (H5 t sp Hin Hnc').
      destruct (String.eqb_spec (task_key sp) key) as [Ek|Hne].
      + rewrite Ek in H5; exfalso; exact (Hnc (Cc t H5)).
      + rewrite dict_get_set_other by exact Hne; exact H5.
    - injection E as <- <-; cbn [task_key]; apply dict_get_set. }
Qed.

Lemma stop_monitoring_task_tasks_ok {T} key : preserves tasks_ok (stop_monitoring_task T key).
Proof.
  intros h Hok; unfold stop_monitoring_task.
  destruct (dict_get key (monitoring_tasks T h)) as [t0|] eqn:E0; [|exact Hok].
  destruct Hok as [H1 [H2 [H3 [H4 H5]]]]; cbn [snd].
  unfold tasks_ok; cbn [monitoring_tasks tasks_created tasks_cancelled].
  destruct (H4 key t0 E0) as [sp0 [Hin0 [Hks0 Hnc0]]].
  split; [apply NoDup_dict_del; exact H1|].
  split; [exact H2|].
  split.
  { intros x Hx; apply in_app_or in Hx as [Hx|[<-|[]]]; [exact (H3 x Hx)|].
    exact (created_lt _ _ _ H2 Hin0). }
  split.
  { intros k t Hk; destruct (String.eqb_spec k key) as [->|Hne].
    - rewrite dict_get_del_self in Hk by exact H1; discriminate.
    - rewrite dict_get_del_other in Hk by exact Hne.
      destruct (H4 k t Hk) as [sp [Hin [Hks Hnc]]].
      exists sp; split; [exact Hin|]; split; [exact Hks|].
      intros Hx; apply in_app_or in Hx as [Hx|[<-|[]]]; [exact (Hnc Hx)|].
      rewrite (fst_unique _ t0 sp sp0 (created_nodup _ H2) Hin Hin0) in Hks; congruence. }
  { intros t sp Hin Hnc.
    assert (Hnc' : ~ In t (tasks_cancelled T h))
      by (intros Hx; apply Hnc, in_or_app; left; exact Hx).
    specialize (H5 t sp Hin Hnc').
    destruct (String.eqb_spec (task_key sp) key) as [Ek|Hne].
    - rewrite Ek, E0 in H5; injection H5 as ->.
      exfalso; apply Hnc, in_or_app; right; left; reflexivity.
    - rewrite dict_get_del_other by exact Hne; exact H5. }
Qed.

Lemma tp_bind {T A B} (P : HState T -> Prop) (m : HM T A) (k : A -> HM T B) :
  preserves P m -> (forall a, preserves P (k a)) -> preserves P (hbind T m k).
Proof.
  intros Hm Hk h Hh; unfold hbind.
  specialize (Hm h Hh); destruct (m h) as [[a|e] h'] eqn:E; cbn in Hm |- *.
  - exact (Hk a h' Hm).
  - exact Hm.
Qed.

Lemma tp_keeps {T A} (m : HM T A) : keeps_tasks m -> preserves tasks_ok m.
Proof.
  intros Hm h Hh; specialize (Hm h); unfold task_part in Hm.
  injection Hm as e1 e2 e3; unfold tasks_ok; rewrite e1, e2, e3; exact Hh.
Qed.

Lemma kt_of_kf {T A} (m : HM T A) : keeps_frame m -> keeps_tasks m.
Proof. intros Hm h; exact (f_equal snd (Hm h)). Qed.

Lemma kt_on_bot {T A} (m : M T A) : keeps_tasks (on_bot T m).
Proof. intros h; unfold on_bot; destruct (m (bot T h)); reflexivity. Qed.

Lemma kt_save {T} dumps : keeps_tasks (save T dumps).
Proof. apply kt_on_bot. Qed.

Lemma kt_set_shows {T} d : keeps_tasks (set_shows T d).
Proof. intros h; reflexivity. Qed.

Ltac tp_step :=
  first
    [ apply start_monitoring_task_tasks_ok
    | apply stop_monitoring_task_tasks_ok
    | apply tp_keeps; first [apply kt_save | apply kt_set_shows
                            | apply kt_of_kf; solve [auto with keeps_frame_db]]
    | apply tp_bind; [| intros ?]
    | match goal with
      | |- preserves _ (match ?x with _ => _ end) => destruct x
      | |- preserves _ (if ?b then _ else _) => destruct b
      end ].

Ltac tp_solve := repeat tp_step.

Lemma handle_message_tasks_ok {T} dumps env raw :
  preserves tasks_ok (handle_message T dumps env raw).
Proof.
  unfold handle_message; cbv zeta; tp_solve.
  all: unfold handle_max_row_input; tp_solve.
  all: unfold change_max_row_input; tp_solve.
Qed.

Lemma inline_button_handler_tasks_ok {T} dumps env data :
  preserves tasks_ok (inline_button_handler T dumps env data).
Proof. unfold inline_button_handler; tp_solve. Qed.

Lemma run_command_tasks_ok {T} dumps env c : preserves tasks_ok (run_command T dumps env c).
Proof. apply tp_keeps, kt_of_kf, kf_run_command. Qed.

Lemma bot_step_tasks_ok {T} (dumps : tval -> T) (h h' : HState T) :
  bot_step dumps h h' -> tasks_ok h -> tasks_ok h'.
Proof.
  intros Hs; destruct Hs.
  - apply handle_message_tasks_ok.
  - apply inline_button_handler_tasks_ok.
  - apply run_command_tasks_ok.
  - intros Hok; exact Hok.
  - intros Hok; exact Hok.
Qed.

Lemma bot_init_tasks_ok {T} loads (st : BotState T) (h0 : HState T) :
  bot_init T loads st = Ok h0 -> tasks_ok h0.
Proof.
  unfold bot_init; destruct (load_db T loads st) as [[shows|e] st']; intros E; [|discriminate].
  injection E as <-; unfold tasks_ok; cbn.
  split; [constructor|]; split; [reflexivity|]; split; [tauto|]; split; [discriminate|tauto].
Qed.

(** X14: in every state the bot reaches from its start, through any
    sequence of messages, button presses and commands of any users and
    any writes of the monitoring tasks to the store, every task stored in
    [monitoring_tasks] under a key was created for that key and not
    cancelled, and two tasks that were created for the same key and never
    cancelled are the same task: restarting a subscription always cancels
    its previous task. *)
Theorem reachable_one_task_per_key T loads (dumps : tval -> T) (st : BotState T)
  (h0 h : HState T) :
  bot_init T loads st = Ok h0 ->
  clos_refl_trans (HState T) (bot_step dumps) h0 h ->
  (forall k t, dict_get k (monitoring_tasks T h) = Some t ->
     exists sp, In (t, sp) (tasks_created T h) /\ task_key sp = k
                /\ ~ In t (tasks_cancelled T h))
  /\ (forall t1 t2 sp1 sp2, In (t1, sp1) (tasks_created T h) -> In (t2, sp2) (tasks_created T h) ->
        ~ In t1 (tasks_cancelled T h) -> ~ In t2 (tasks_cancelled T h) ->
        task_key sp1 = task_key sp2 -> t1 = t2).
Proof.
  intros Hinit Hr.
  assert (Hok : tasks_ok h).
  { apply bot_init_tasks_ok in Hinit.
    induction Hr as [x y Hs | x | x y z _ IH1 _ IH2].
    - exact (bot_step_tasks_ok dumps x y Hs Hinit).
    - exact Hinit.
    - exact (IH2 (IH1 Hinit)). }
  destruct Hok as [_ [_ [_ [H4 H5]]]]; split; [exact H4|].
  intros t1 t2 sp1 sp2 Hi1 Hi2 Hn1 Hn2 Ek.
  pose proof (H5 t1 sp1 Hi1 Hn1) as E1; pose proof (H5 t2 sp2 Hi2 Hn2) as E2.
  rewrite Ek in E1; congruence.
Qed.

Lemma reachable_one_task_per_key_witness :
  let h0 := mkH tval (mkState tval [] (NoFile tval) []) [] [] [] None [] in
  let h1 := mkH tval (bot tval h0) [] [] []
                (Some (MonitorSetupState (Some "42") (Some "max_row_setup") (Some 2%Z))) [] in
  let h2 := snd (handle_message tval ideal_dumps env_7 "0" h1) in
  (forall k t, dict_get k (monitoring_tasks tval h2) = Some t ->
     exists sp, In (t, sp) (tasks_created tval h2) /\ task_key sp = k
                /\ ~ In t (tasks_cancelled tval h2))
  /\ (forall t1 t2 sp1 sp2, In (t1, sp1) (tasks_created tval h2) -> In (t2, sp2) (tasks_created tval h2) ->
        ~ In t1 (tasks_cancelled tval h2) -> ~ In t2 (tasks_cancelled tval h2) ->
        task_key sp1 = task_key sp2 -> t1 = t2).
Proof.
  intros h0 h1 h2.
  apply (reachable_one_task_per_key tval ideal_loads ideal_dumps (mkState tval [] (NoFile tval) []) h0 h2).
  - reflexivity.
  - apply rt_trans with h1; apply rt_step.
    + apply (step_user ideal_dumps h0).
    + apply step_message.
Defined.

(** ** The buttons [handle_url] offers *)

Lemma extract_id_isdigit (url d : string) :
  extract_theater_id url = Some d -> isdigit d = true.
Proof.
  unfold extract_theater_id; intros H.
  destruct (search theater_pattern url) as [[d' w]|] eqn:E; [|discriminate].
  injection H as <-.
  destruct (search_some _ _ _ E) as [p [s [_ Hs]]].
  destruct (theater_pattern_some _ _ _ Hs) as [q [s1 [s2 [_ [_ Hd]]]]].
  destruct (digits_plus_digits _ _ "" _ _ (eq_refl true) Hd) as [Hne Hall].
  destruct d'; [congruence | exact Hall].
Qed.

Lemma digit_not_underscore (c : ascii) : is_digit c = true -> Ascii.eqb c "_"%char = false.
Proof.
  intros Hc; destruct (Ascii.eqb_spec c "_"%char) as [->|]; [discriminate|reflexivity].
Qed.

Lemma py_split_digits (d : string) : all_digits d = true -> py_split "_"%char d = [d].
Proof.
  induction d as [|c t IH]; [reflexivity|].
  change (all_digits (String c t)) with (is_digit c && all_digits t).
  intros H; apply andb_true_iff in H as [Hc Ht].
  cbn [py_split]; rewrite (IH Ht), (digit_not_underscore c Hc); reflexivity.
Qed.

Lemma py_split_monitor (d : string) :
  all_digits d = true -> py_split "_"%char ("monitor_" ++ d) = ["monitor"; d].
Proof.
  intros Hd; cbn [String.append py_split]; rewrite (py_split_digits d Hd); reflexivity.
Qed.

(** X15: for a URL from which a show id [d] is extracted, [handle_url]
    answers with the id and the buttons [find_now_<d>] and
    [monitor_<d>]; pressing [monitor_<d>] (whatever the state is by then)
    starts the monitor setup for exactly this show id and asks for the
    number of adjacent seats. *)
Theorem handle_url_monitor_round_trip T dumps env (url d : string) (h h' : HState T) :
  api_error env = None ->
  extract_theater_id url = Some d ->
  handle_url T env url h
  = (Ok tt, mkH T (bot T h) (monitoring_tasks T h) (tasks_created T h) (tasks_cancelled T h)
                (user_state T h)
                (List.app (api_log T h)
                   [SendText ("Found show ID: " ++ d ++ nl ++ "What would you like to do?")
                      (InlineKeyboard [[("🔍 Find Seats Now", "find_now_" ++ d)];
                                       [("➕ Monitor This Show", "monitor_" ++ d)];
                                       back_to_menu])]))
  /\ inline_button_handler T dumps env ("monitor_" ++ d) h'
     = (Ok tt, mkH T (bot T h') (monitoring_tasks T h') (tasks_created T h')
                   (tasks_cancelled T h')
                   (Some (MonitorSetupState (Some d) (Some "min_seats") None))
                   (List.app (List.app (api_log T h') [Answer])
                      [EditText "How many adjacent seats do you need? (Enter a number)" NoMarkup])).
Proof.
  intros Hapi He.
  pose proof (extract_id_isdigit url d He) as Hd.
  split.
  - destruct d as [|c d0]; [discriminate|].
    unfold handle_url; rewrite He; unfold reply_text, call_api; rewrite Hapi; reflexivity.
  - assert (Hd' : all_digits d = true) by (destruct d; [discriminate | exact Hd]).
    unfold inline_button_handler, hbind at 1, call_api at 1; rewrite Hapi.
    rewrite (py_split_monitor _ Hd').
    cbn [py_startswith strip_prefix String.append Ascii.eqb Bool.eqb].
    unfold hbind at 1, hlift; cbn [py_index nth_error].
    unfold hbind, edit_message_text, call_api; rewrite Hapi; reflexivity.
Qed.

Lemma handle_url_monitor_round_trip_witness :
  let url := "https://tickets.example/buy?showURL=42&lang=en" in
  handle_url tval env_7 url hstate_7_42
  = (Ok tt, mkH tval (bot tval hstate_7_42) [("7_42", 0%nat)] [(0%nat, mkTask "42" 2 7 "7_42")] []
                None
                [SendText ("Found show ID: " ++ "42" ++ nl ++ "What would you like to do?")
                   (InlineKeyboard [[("🔍 Find Seats Now", "find_now_" ++ "42")];
                                    [("➕ Monitor This Show", "monitor_" ++ "42")];
                                    back_to_menu])])
  /\ inline_button_handler tval ideal_dumps env_7 ("monitor_" ++ "42") hstate_7_42
     = (Ok tt, mkH tval (bot tval hstate_7_42) [("7_42", 0%nat)] [(0%nat, mkTask "42" 2 7 "7_42")] []
                   (Some (MonitorSetupState (Some "42") (Some "min_seats") None))
                   [Answer; EditText "How many adjacent seats do you need? (Enter a number)" NoMarkup]).
Proof.
  intros url.
  apply (handle_url_monitor_round_trip tval ideal_dumps env_7 url "42" hstate_7_42 hstate_7_42).
  - reflexivity.
  - vm_compute; reflexivity.
Defined.

(** ** Menu buttons and the pending input *)

Lemma reply_text_ok {T} env msg mk (h : HState T) :
  api_error env = None ->
  reply_text T env msg mk h
  = (Ok tt, mkH T (bot T h) (monitoring_tasks T h) (tasks_created T h) (tasks_cancelled T h)
                (user_state T h) (List.app (api_log T h) [SendText msg mk])).
Proof. intros Hapi; unfold reply_text, call_api; rewrite Hapi; reflexivity. Qed.

Lemma list_shows_ok {T} env (h : HState T) :
  api_error env = None ->
  fst (list_shows T env h) = Ok tt /\ user_state T (snd (list_shows T env h)) = user_state T h.
Proof.
  intros Hapi; unfold list_shows, hbind, get_shows.
  destruct (user_shows env _); rewrite reply_text_ok by exact Hapi; split; reflexivity.
Qed.

Lemma list_stops_ok {T} env (h : HState T) :
  api_error env = None ->
  fst (list_stops T env h) = Ok tt /\ user_state T (snd (list_stops T env h)) = user_state T h.
Proof.
  intros Hapi; unfold list_stops, hbind, get_shows.
  destruct (user_shows env _); rewrite reply_text_ok by exact Hapi; split; reflexivity.
Qed.

Lemma in_buttons_existsb (t : string) :
  In t button_commands -> existsb (String.eqb t) button_commands = true.
Proof.
  intros Hin; apply existsb_exists; exists t; split; [exact Hin | apply String.eqb_refl].
Qed.

(** X16: a menu button is always obeyed, and it ends any pending input:
    [🔍 Find Available Seats] and [➕ Monitor Show] enter the URL-waiting
    state; the three other buttons clear the state if the bot was waiting
    for a number (a monitor setup or a new maximum row) and leave it as
    it was otherwise. *)
Theorem menu_button_state T dumps env (raw : string) (h : HState T) :
  api_error env = None ->
  In (rstrip (lstrip raw)) button_commands ->
  let t := rstrip (lstrip raw) in
  fst (handle_message T dumps env raw h) = Ok tt
  /\ user_state T (snd (handle_message T dumps env raw h))
     = if String.eqb t find_btn || String.eqb t monitor_btn then Some FindSeatsState
       else if is_input_state (user_state T h) then None
       else user_state T h.
Proof.
  intros Hapi Hin; unfold handle_message; cbv zeta.
  remember (rstrip (lstrip raw)) as t eqn:Ht; clear Ht.
  pose proof (in_buttons_existsb t Hin) as Hb.
  rewrite hbind_get_user_state; cbv beta; rewrite Hb, andb_true_r.
  destruct (is_input_state (user_state T h)) eqn:Ei;
    [rewrite hbind_set_user_state | rewrite hbind_hret]; cbv beta;
    unfold button_commands in Hin;
    destruct Hin as [<-|[<-|[<-|[<-|[<-|[]]]]]];
    unfold find_btn, monitor_btn, myshows_btn, stop_btn, help_btn;
    cbn [String.eqb Ascii.eqb Bool.eqb orb];
    first [ exact (list_shows_ok env _ Hapi) | exact (list_stops_ok env _ Hapi)
          | unfold hbind; rewrite reply_text_ok by exact Hapi; split; reflexivity ].
Qed.

Lemma menu_button_state_witness :
  fst (handle_message tval ideal_dumps env_7 help_btn
         (mkH tval (state_7_42 []) [] [] [] (Some (ChangeMaxRowState "7_42")) [])) = Ok tt
  /\ user_state tval (snd (handle_message tval ideal_dumps env_7 help_btn
         (mkH tval (state_7_42 []) [] [] [] (Some (ChangeMaxRowState "7_42")) []))) = None.
Proof.
  apply (menu_button_state tval ideal_dumps env_7 help_btn
           (mkH tval (state_7_42 []) [] [] [] (Some (ChangeMaxRowState "7_42")) [])).
  - reflexivity.
  - vm_compute; right; right; right; right; left; reflexivity.
Defined.

Definition keeps_user {T A} (m : HM T A) : Prop :=
  forall h, user_state T (snd (m h)) = user_state T h.

Lemma ku_bind {T A B} (m : HM T A) (k : A -> HM T B) :
  keeps_user m -> (forall a, keeps_user (k a)) -> keeps_user (hbind T m k).
Proof.
  intros Hm Hk h; unfold hbind.
  specialize (Hm h); destruct (m h) as [[a|e] h'] eqn:E; cbn in Hm |- *.
  - rewrite Hk; exact Hm.
  - exact Hm.
Qed.

Lemma ku_find_seats_for_url {T} env url : keeps_user (find_seats_for_url T env url).
Proof.
  assert (Hr : forall msg mk, keeps_user (reply_text T env msg mk)).
  { intros msg mk h; unfold reply_text, call_api; destruct (api_error env); reflexivity. }
  unfold find_seats_for_url; destruct (extract_theater_id url) as [[|]|]; try apply Hr.
  apply ku_bind; [apply Hr | intros _].
  apply ku_bind; [intros h; unfold fetch, on_bot; destruct (fetch_and_parse_chairmap _ _ _); reflexivity
                 | intros seats].
  destruct seats; [apply Hr|].
  apply ku_bind; [intros h; reflexivity | intros groups; apply Hr].
Qed.

(** X17: the URL-waiting state entered by [🔍 Find Available Seats] or
    [➕ Monitor Show] lasts one message: a message that is not a menu
    button is searched for as a show URL, and the state is then cleared;
    only when the search raises (the HTTP request or the Bot API call
    fails) does the state stay. *)
Theorem find_state_one_shot T dumps env (raw : string) (h : HState T) :
  user_state T h = Some FindSeatsState ->
  existsb (String.eqb (rstrip (lstrip raw))) button_commands = false ->
  (fst (handle_message T dumps env raw h) = Ok tt
   /\ user_state T (snd (handle_message T dumps env raw h)) = None)
  \/ (exists e, fst (handle_message T dumps env raw h) = Err e
                /\ user_state T (snd (handle_message T dumps env raw h)) = Some FindSeatsState).
Proof.
  intros Hus Hb.
  destruct (buttons_split _ Hb) as [H1 [H2 [H3 [H4 H5]]]].
  unfold handle_message; cbv zeta.
  remember (rstrip (lstrip raw)) as t eqn:Ht; clear Ht.
  rewrite hbind_get_user_state; cbv beta; rewrite Hus; cbn [is_input_state andb].
  rewrite hbind_hret; cbv beta; rewrite H1, H2, H3, H4, H5.
  rewrite hbind_get_user_state; cbv beta; rewrite Hus.
  unfold hbind.
  pose proof (ku_find_seats_for_url env t h) as Hk.
  destruct (find_seats_for_url T env t h) as [[u|e] h'] eqn:E; cbn in Hk |- *.
  - left; split; reflexivity.
  - right; exists e; split; [reflexivity | rewrite Hk; exact Hus].
Qed.

Lemma find_state_one_shot_witness :
  let h := mkH tval (state_7_42 []) [] [] [] (Some FindSeatsState) [] in
  (fst (handle_message tval ideal_dumps env_7 "not a url" h) = Ok tt
   /\ user_state tval (snd (handle_message tval ideal_dumps env_7 "not a url" h)) = None)
  \/ (exists e, fst (handle_message tval ideal_dumps env_7 "not a url" h) = Err e
                /\ user_state tval (snd (handle_message tval ideal_dumps env_7 "not a url" h))
                   = Some FindSeatsState).
Proof.
  intros h; apply (find_state_one_shot tval ideal_dumps env_7 "not a url" h).
  - reflexivity.
  - vm_compute; reflexivity.
Defined.

(** ** The [manage_] buttons and the fetch *)

Lemma py_split_once_manage (k : string) :
  py_split_once "_"%char ("manage_" ++ k) = ["manage"; k].
Proof. reflexivity. Qed.

(** X18: pressing [manage_<k>] looks [k] up in the store (any key, also
    one holding [_]): for a subscription it shows its details with the
    buttons [change_max_row_<k>] and [stop_<k>], otherwise it reports the
    show as not found; nothing but the Bot API log changes. *)
Theorem inline_manage_button T dumps env (k : string) (h : HState T) :
  api_error env = None ->
  inline_button_handler T dumps env ("manage_" ++ k) h
  = (Ok tt, mkH T (bot T h) (monitoring_tasks T h) (tasks_created T h) (tasks_cancelled T h)
                (user_state T h)
                (List.app (List.app (api_log T h) [Answer])
                   [match dict_get k (monitored_shows T (bot T h)) with
                    | Some show =>
                        EditText (manage_message show)
                          (InlineKeyboard [[("Change Max Row", "change_max_row_" ++ k)];
                                           [("Stop Monitoring", "stop_" ++ k)];
                                           back_to_menu])
                    | None => EditText "❌ Show not found." NoMarkup
                    end])).
Proof.
  intros Hapi.
  unfold inline_button_handler, hbind at 1, call_api at 1; rewrite Hapi.
  rewrite py_split_once_manage.
  cbn [py_startswith strip_prefix String.append Ascii.eqb Bool.eqb].
  unfold hbind, hlift, get_shows; cbn [py_index nth_error].
  destruct (dict_get k _); unfold edit_message_text, call_api; rewrite Hapi; reflexivity.
Qed.

Lemma inline_manage_button_witness :
  inline_button_handler tval ideal_dumps env_7 ("manage_" ++ "7_42") hstate_7_42
  = (Ok tt, mkH tval (bot tval hstate_7_42) [("7_42", 0%nat)] [(0%nat, mkTask "42" 2 7 "7_42")] []
                None
                [Answer; EditText (manage_message (show_7_42 []))
                           (InlineKeyboard [[("Change Max Row", "change_max_row_" ++ "7_42")];
                                            [("Stop Monitoring", "stop_" ++ "7_42")];
                                            back_to_menu])]).
Proof.
  rewrite (inline_manage_button tval ideal_dumps env_7 "7_42" hstate_7_42); reflexivity.
Defined.

